(** * mk_links.py: picon link derivation and reconciliation

    A shallow embedding of [src/mk_links.py] (class [LinkMaker] and the
    script that drives it) together with the properties of its
    specification.

    Text is modelled as [string] (bytes); the database and all file names
    are taken to be ASCII.  Python exceptions that the program does not
    catch are values of [exn] carried by [result]; [exit(1)] is an
    outcome of its own.  The file system is an explicit value of type
    [world] threaded through the program. *)

From Stdlib Require Import ZArith String Ascii List Lia Bool.
From stdpp Require Import base option list gmap sets strings fin_maps sorting.

Local Open Scope string_scope.
Local Open Scope Z_scope.
Local Open Scope list_scope.

(** ** Python exceptions and results *)

Inductive exn :=
| ValueError         (* int() on text that is no number *)
| IndexError         (* list index out of range *)
| UnboundLocalError. (* local variable read before assignment *)

Inductive result (A : Type) :=
| Ok (a : A)
| Raise (e : exn).
Arguments Ok {A} a.
Arguments Raise {A} e.

Definition rbind {A B} (r : result A) (k : A -> result B) : result B :=
  match r with
  | Ok a => k a
  | Raise e => Raise e
  end.

Notation "x <-! r ; k" := (rbind r (fun x => k))
  (at level 100, r at next level, right associativity).

Definition of_option {A} (e : exn) (o : option A) : result A :=
  match o with
  | Some a => Ok a
  | None => Raise e
  end.

(** ** Python text primitives *)

Module Py.

Definition chars (s : string) : list ascii := list_ascii_of_string s.
Definition str (l : list ascii) : string := string_of_list_ascii l.

Definition code (c : ascii) : nat := nat_of_ascii c.

(** [str.isspace] on ASCII: TAB..CR, FS..US and the blank. *)
Definition isspace (c : ascii) : bool :=
  let n := code c in
  (((9 <=? n) && (n <=? 13)) || ((28 <=? n) && (n <=? 32)))%nat.

(** [re.sub('#.*', '', line)]: a dot does not match a newline. *)
Fixpoint sub_comment (inside : bool) (l : list ascii) : list ascii :=
  match l with
  | [] => []
  | c :: l' =>
      if Ascii.eqb c "010" then c :: sub_comment false l'
      else if inside then sub_comment true l'
      else if Ascii.eqb c "#" then sub_comment true l'
      else c :: sub_comment false l'
  end.

Fixpoint lstrip (l : list ascii) : list ascii :=
  match l with
  | c :: l' => if isspace c then lstrip l' else l
  | [] => []
  end.

Definition rstrip (l : list ascii) : list ascii := rev (lstrip (rev l)).

(** [s.split()] *)
Fixpoint split_ws (cur : list ascii) (l : list ascii) : list string :=
  match l with
  | [] => match cur with [] => [] | _ => [str (rev cur)] end
  | c :: l' =>
      if isspace c
      then match cur with
           | [] => split_ws [] l'
           | _ => str (rev cur) :: split_ws [] l'
           end
      else split_ws (c :: cur) l'
  end.

(** [s.split(sep)] for a one-character separator *)
Fixpoint split_on (sep : ascii) (cur : list ascii) (l : list ascii) : list string :=
  match l with
  | [] => [str (rev cur)]
  | c :: l' =>
      if Ascii.eqb c sep then str (rev cur) :: split_on sep [] l'
      else split_on sep (c :: cur) l'
  end.

Definition split (sep : ascii) (s : string) : list string :=
  split_on sep [] (chars s).

(** [sep.join(parts)] *)
Definition join (sep : string) (parts : list string) : string :=
  String.concat sep parts.

(** [s.rfind(c)]: index of the last occurrence, or -1. *)
Fixpoint rfind_from (c : ascii) (i : Z) (best : Z) (l : list ascii) : Z :=
  match l with
  | [] => best
  | d :: l' => rfind_from c (i + 1) (if Ascii.eqb d c then i else best) l'
  end.

Definition rfind (c : ascii) (s : string) : Z := rfind_from c 0 (-1) (chars s).

(** [s[:i]] and [s[i:]] for [0 <= i]. *)
Definition upto (i : Z) (s : string) : string := str (take (Z.to_nat i) (chars s)).
Definition from (i : Z) (s : string) : string := str (drop (Z.to_nat i) (chars s)).

(** [os.path.splitext]: the extension starts at the last dot of the
    last path component, unless only dots precede it there. *)
Definition splitext (p : string) : string * string :=
  let sepIndex := rfind "/" p in
  let dotIndex := rfind "." p in
  if sepIndex <? dotIndex then
    let stem := drop (Z.to_nat (sepIndex + 1)) (take (Z.to_nat dotIndex) (chars p)) in
    if forallb (fun c => Ascii.eqb c ".") stem then (p, "")
    else (upto dotIndex p, from dotIndex p)
  else (p, "").

(** Digit values as [int()] reads them. *)
Definition digit_value (c : ascii) : option Z :=
  let n := code c in
  if ((48 <=? n) && (n <=? 57))%nat then Some (Z.of_nat n - 48)
  else if ((97 <=? n) && (n <=? 122))%nat then Some (Z.of_nat n - 87)
  else if ((65 <=? n) && (n <=? 90))%nat then Some (Z.of_nat n - 55)
  else None.

(** The blanks [int()] skips around an ASCII literal. *)
Definition isblank (c : ascii) : bool :=
  let n := code c in
  (((9 <=? n) && (n <=? 13)) || (n =? 32))%nat.

Fixpoint skip_blank (l : list ascii) : list ascii :=
  match l with
  | c :: l' => if isblank c then skip_blank l' else l
  | [] => []
  end.

(** Digits with single underscores between them, up to the end. *)
Fixpoint scan_digits (base : Z) (after_us : bool) (seen : bool) (acc : Z)
    (l : list ascii) : option Z :=
  match l with
  | [] => if after_us then None else if seen then Some acc else None
  | c :: l' =>
      if Ascii.eqb c "_" then
        if after_us then None else scan_digits base true seen acc l'
      else
        match digit_value c with
        | Some d =>
            if d <? base then scan_digits base false true (acc * base + d) l'
            else None
        | None => None
        end
  end.

(** [int(s, base)] for base 10 and 16: blanks around, an optional sign,
    for base 16 an optional [0x] followed by at most one underscore,
    then the digits.  [None] stands for ValueError.  (The interpreter's
    configurable limit on the length of decimal literals is not
    modelled.) *)
Definition parse_int (base : Z) (s : string) : option Z :=
  let l := rev (skip_blank (rev (skip_blank (chars s)))) in
  let '(neg, l) :=
    match l with
    | "+"%char :: l' => (false, l')
    | "-"%char :: l' => (true, l')
    | _ => (false, l)
    end in
  let l :=
    match l with
    | "0"%char :: x :: l' =>
        if (base =? 16) && (Ascii.eqb x "x" || Ascii.eqb x "X")
        then match l' with
             | "_"%char :: l'' => l''
             | _ => l'
             end
        else l
    | _ => l
    end in
  match l with
  | "_"%char :: _ => None
  | _ =>
      match scan_digits base false false 0 l with
      | Some v => Some (if neg then - v else v)
      | None => None
      end
  end.

Definition int (s : string) : result Z := of_option ValueError (parse_int 10 s).
Definition int16 (s : string) : result Z := of_option ValueError (parse_int 16 s).

(** [l[i]] *)
Definition getitem {A} (l : list A) (i : nat) : result A :=
  of_option IndexError (l !! i).

End Py.

(** ** Options *)

(** The dictionary [options] of the script.  [copyImages] belongs to the
    seeding of the image directory, which is not part of this model. *)
Record options := {
  o_full : bool;
  o_short : bool;
  o_fold : bool;
  o_addfold : bool;
  o_useServiceNameLinks : bool;
  o_useHardLinks : bool;
  o_cleanAll : bool
}.

(** Lines 411-412 of the script: [--full] is assumed when no link type
    was asked for. *)
Definition default_full (o : options) : options :=
  if o_full o || o_short o || o_fold o || o_addfold o || o_useServiceNameLinks o
  then o
  else {| o_full := true; o_short := o_short o; o_fold := o_fold o;
          o_addfold := o_addfold o;
          o_useServiceNameLinks := o_useServiceNameLinks o;
          o_useHardLinks := o_useHardLinks o; o_cleanAll := o_cleanAll o |}.

(** ** The file system

    A directory maps names to nodes.  [Reg i] is one name of the regular
    file with identity [i] (several names of one file are hard links),
    [Sym t] a symbolic link holding the text [t], [Dir i] a directory.

    The model covers the output directory [piconPath] ([out], the only
    part the program changes) and its sub-directory [channel_picons]
    ([chan], in [listdir] order; [None] when it cannot be listed).  Names
    are single path components.  A symbolic link of the output directory
    leads either into [channel_picons] or to an object outside both
    directories, described by [ext]; links that lead back into the output
    directory, and symbolic links inside [channel_picons], are outside
    the model.  [elsewhere] counts the names a file has outside both
    directories. *)

Definition ident : Type := Z * Z.   (* (st_dev, st_ino) *)

Inductive node :=
| Reg (i : ident)
| Sym (target : string)
| Dir (i : ident).

#[global] Instance node_eq_dec : EqDecision node.
Proof. solve_decision. Defined.

Record world := {
  out : gmap string node;
  chan : option (list (string * node));
  ext : gmap string node;
  elsewhere : gmap ident nat
}.

Definition set_out (m : gmap string node) (w : world) : world :=
  {| out := m; chan := chan w; ext := ext w; elsewhere := elsewhere w |}.

Definition CHAN_PICON_DIR : string := "channel_picons".

Fixpoint assoc {A} (k : string) (l : list (string * A)) : option A :=
  match l with
  | [] => None
  | (k', a) :: l' => if String.eqb k k' then Some a else assoc k l'
  end.

Definition chan_lookup (w : world) (name : string) : option node :=
  match chan w with
  | Some l => assoc name l
  | None => None
  end.

(** [Some rest] when [s] is [p] followed by [rest]. *)
Fixpoint strip_prefix (p s : list ascii) : option (list ascii) :=
  match p, s with
  | [], _ => Some s
  | a :: p', b :: s' => if Ascii.eqb a b then strip_prefix p' s' else None
  | _ :: _, [] => None
  end.

(** The object at the end of a path, where a final symbolic link was
    already followed: only files and directories. *)
Definition final (o : option node) : option node :=
  match o with
  | Some (Sym _) => None
  | _ => o
  end.

(** The object the text of a symbolic link of the output directory leads
    to; [None] for a dangling link. *)
Definition follow (w : world) (target : string) : option node :=
  match strip_prefix (Py.chars (CHAN_PICON_DIR +:+ "/")) (Py.chars target) with
  | Some n => final (chan_lookup w (Py.str n))
  | None => final (ext w !! target)
  end.

(** The object a name of the output directory denotes for [stat]. *)
Definition object (w : world) (name : string) : option node :=
  match out w !! name with
  | Some (Sym t) => follow w t
  | o => o
  end.

(** Number of names of file [i]. *)
Definition out_refs (m : gmap string node) (i : ident) : nat :=
  size (filter (fun kv => kv.2 = Reg i) m).

Definition chan_refs (w : world) (i : ident) : nat :=
  match chan w with
  | Some l => length (filter (fun kv => kv.2 = Reg i) l)
  | None => 0
  end.

Definition nlink (w : world) (i : ident) : nat :=
  (out_refs (out w) i + chan_refs w i + default 0%nat (elsewhere w !! i))%nat.

Record stat_result := {
  st_reg : bool;      (* S_ISREG *)
  st_id : ident;      (* (st_dev, st_ino) *)
  st_nlink : nat      (* read for regular files only *)
}.

(** [os.stat] on a name of the output directory; [None] when it raises. *)
Definition stat (w : world) (name : string) : option stat_result :=
  match object w name with
  | Some (Reg i) => Some {| st_reg := true; st_id := i; st_nlink := nlink w i |}
  | Some (Dir i) => Some {| st_reg := false; st_id := i; st_nlink := nlink w i |}
  | _ => None
  end.

Definition path_islink (w : world) (name : string) : bool :=
  match out w !! name with
  | Some (Sym _) => true
  | _ => false
  end.

Definition path_isfile (w : world) (name : string) : bool :=
  match stat w name with
  | Some st => st_reg st
  | None => false
  end.

Definition path_exists (w : world) (name : string) : bool :=
  match stat w name with
  | Some _ => true
  | None => false
  end.

Definition path_lexists (w : world) (name : string) : bool :=
  match out w !! name with
  | Some _ => true
  | None => false
  end.

(** [os.remove]: [None] when it raises (no such name, or a directory). *)
Definition os_remove (w : world) (name : string) : option world :=
  match out w !! name with
  | Some (Reg _) | Some (Sym _) => Some (set_out (delete name (out w)) w)
  | Some (Dir _) | None => None
  end.

(** [os.symlink(target, name)]: raises when the name is taken. *)
Definition os_symlink (w : world) (target name : string) : option world :=
  match out w !! name with
  | None => Some (set_out (<[name := Sym target]> (out w)) w)
  | Some _ => None
  end.

(** [os.link(piconPath/channel_picons/src, name)]: raises when the source
    is no file or the name is taken. *)
Definition os_link (w : world) (src name : string) : option world :=
  match chan_lookup w src, out w !! name with
  | Some (Reg i), None => Some (set_out (<[name := Reg i]> (out w)) w)
  | _, _ => None
  end.

(** [os.listdir(piconPath)] *)
Definition listdir (w : world) : list string := (map_to_list (out w)).*1.

(** Successful changes of the output directory, oldest first. *)
Inductive fsop :=
| Removed (name : string)
| Linked (src name : string)
| Symlinked (target name : string).

(** ** Diagnostics *)

Inductive msg :=
| TooManyFields (line : string)
| TooFewFields (line : string)
| OverRidden (picon servRefName : string)
| LinkFailed (hard : bool) (piconName servRefName : string)
| NoPicon (picon servRef : string)
| LinkExists (servRef linked picon : string)
| LinksMade (n : nat)
| Removing (n : nat)
| CantRemove (servRefName : string)
| Renamed (piconBasename old new : string)
| CantProcessImageDir
| CantProcessLinkDir.

#[global] Instance msg_eq_dec : EqDecision msg.
Proof. solve_decision. Defined.

(** ** The link maker

    The fields of [self], then the locals of [makeLinks] that live across
    its loop iterations ([servRefPartsFold] is [None] while the variable
    is unbound), then what the run printed and what it changed in the
    output directory, both oldest first. *)
Record LinkMaker := {
  opts : options;
  fs : world;
  piconFiles : gmap string (string * ident);
  origPiconLinks : gmap string ident;
  overrides : gset string;
  linkedPiconNames : gset string;
  piconLinks : gmap string string;
  linksMade : nat;
  servRefPartsFold : option (list string);
  output : list msg;
  trace : list fsop
}.

Definition set_fs (x : world) (s : LinkMaker) : LinkMaker :=
  {| opts := opts s;
     fs := x;
     piconFiles := piconFiles s;
     origPiconLinks := origPiconLinks s;
     overrides := overrides s;
     linkedPiconNames := linkedPiconNames s;
     piconLinks := piconLinks s;
     linksMade := linksMade s;
     servRefPartsFold := servRefPartsFold s;
     output := output s;
     trace := trace s |}.

Definition set_origPiconLinks (x : gmap string ident) (s : LinkMaker) : LinkMaker :=
  {| opts := opts s;
     fs := fs s;
     piconFiles := piconFiles s;
     origPiconLinks := x;
     overrides := overrides s;
     linkedPiconNames := linkedPiconNames s;
     piconLinks := piconLinks s;
     linksMade := linksMade s;
     servRefPartsFold := servRefPartsFold s;
     output := output s;
     trace := trace s |}.

Definition set_overrides (x : gset string) (s : LinkMaker) : LinkMaker :=
  {| opts := opts s;
     fs := fs s;
     piconFiles := piconFiles s;
     origPiconLinks := origPiconLinks s;
     overrides := x;
     linkedPiconNames := linkedPiconNames s;
     piconLinks := piconLinks s;
     linksMade := linksMade s;
     servRefPartsFold := servRefPartsFold s;
     output := output s;
     trace := trace s |}.

Definition set_linkedPiconNames (x : gset string) (s : LinkMaker) : LinkMaker :=
  {| opts := opts s;
     fs := fs s;
     piconFiles := piconFiles s;
     origPiconLinks := origPiconLinks s;
     overrides := overrides s;
     linkedPiconNames := x;
     piconLinks := piconLinks s;
     linksMade := linksMade s;
     servRefPartsFold := servRefPartsFold s;
     output := output s;
     trace := trace s |}.

Definition set_piconLinks (x : gmap string string) (s : LinkMaker) : LinkMaker :=
  {| opts := opts s;
     fs := fs s;
     piconFiles := piconFiles s;
     origPiconLinks := origPiconLinks s;
     overrides := overrides s;
     linkedPiconNames := linkedPiconNames s;
     piconLinks := x;
     linksMade := linksMade s;
     servRefPartsFold := servRefPartsFold s;
     output := output s;
     trace := trace s |}.

Definition set_linksMade (x : nat) (s : LinkMaker) : LinkMaker :=
  {| opts := opts s;
     fs := fs s;
     piconFiles := piconFiles s;
     origPiconLinks := origPiconLinks s;
     overrides := overrides s;
     linkedPiconNames := linkedPiconNames s;
     piconLinks := piconLinks s;
     linksMade := x;
     servRefPartsFold := servRefPartsFold s;
     output := output s;
     trace := trace s |}.

Definition set_servRefPartsFold (x : option (list string)) (s : LinkMaker) : LinkMaker :=
  {| opts := opts s;
     fs := fs s;
     piconFiles := piconFiles s;
     origPiconLinks := origPiconLinks s;
     overrides := overrides s;
     linkedPiconNames := linkedPiconNames s;
     piconLinks := piconLinks s;
     linksMade := linksMade s;
     servRefPartsFold := x;
     output := output s;
     trace := trace s |}.

Definition set_output (x : list msg) (s : LinkMaker) : LinkMaker :=
  {| opts := opts s;
     fs := fs s;
     piconFiles := piconFiles s;
     origPiconLinks := origPiconLinks s;
     overrides := overrides s;
     linkedPiconNames := linkedPiconNames s;
     piconLinks := piconLinks s;
     linksMade := linksMade s;
     servRefPartsFold := servRefPartsFold s;
     output := x;
     trace := trace s |}.

Definition set_trace (x : list fsop) (s : LinkMaker) : LinkMaker :=
  {| opts := opts s;
     fs := fs s;
     piconFiles := piconFiles s;
     origPiconLinks := origPiconLinks s;
     overrides := overrides s;
     linkedPiconNames := linkedPiconNames s;
     piconLinks := piconLinks s;
     linksMade := linksMade s;
     servRefPartsFold := servRefPartsFold s;
     output := output s;
     trace := x |}.

Definition emit (m : msg) (s : LinkMaker) : LinkMaker :=
  set_output (output s ++ [m]) s.

Definition did (op : fsop) (w : world) (s : LinkMaker) : LinkMaker :=
  set_trace (trace s ++ [op]) (set_fs w s).

(** *** Link identity *)

Inductive LinkKind := IS_FILE | IS_HLINK | IS_SLINK | IS_OTHER | IS_ERROR.

#[global] Instance LinkKind_eq_dec : EqDecision LinkKind.
Proof. solve_decision. Defined.

Definition refType (w : world) (servRefPath : string) : LinkKind :=
  if path_islink w servRefPath then IS_SLINK
  else if path_isfile w servRefPath then
    match stat w servRefPath with
    | Some st => if (1 <? st_nlink st)%nat then IS_HLINK else IS_FILE
    | None => IS_ERROR
    end
  else IS_OTHER.

(** [None] when [stat] raises. *)
Definition getLinkRef (w : world) (servRefPath : string) : option ident :=
  st_id <$> stat w servRefPath.

Definition isOverride (servRefPath : string) (s : LinkMaker) : bool * LinkMaker :=
  let s' :=
    if bool_decide (servRefPath ∉ overrides s)
       && bool_decide (refType (fs s) servRefPath = IS_FILE)
    then set_overrides ({[servRefPath]} ∪ overrides s) s
    else s in
  (bool_decide (servRefPath ∈ overrides s'), s').

(** *** The icon inventory *)

Definition PICON_SRCS : list string :=
  ["_ab"; "_fv"; "_gm"; "_lw"; "_mp"; "_nine"; "_rc"; "_sbs"; "_wp"; "_ys"].

Definition is_png (name : string) : bool :=
  String.eqb (Py.splitext name).2 ".png".

(** [path.isfile] and [getLinkRef] on a name inside [channel_picons]. *)
Definition picon_isfile (w : world) (piconName : string) : bool :=
  match chan_lookup w piconName with
  | Some (Reg _) => true
  | _ => false
  end.

Definition picon_getLinkRef (w : world) (piconName : string) : option ident :=
  match chan_lookup w piconName with
  | Some (Reg i) | Some (Dir i) => Some i
  | _ => None
  end.

(** The body of the loop of [_makePiconFileList]; [None] when an
    exception reaches the handler. *)
Definition addPiconFile (w : world) (piconName : string)
    (acc : gmap string (string * ident) * list msg)
    : option (gmap string (string * ident) * list msg) :=
  let '(piconFiles, log) := acc in
  let '(basename, ext) := Py.splitext piconName in
  if negb (String.eqb ext ".png") then Some acc
  else if picon_isfile w piconName then
    let origIndex := Py.rfind "_" basename in
    let '(piconBasename, log) :=
      if (0 <? origIndex) && bool_decide (Py.from origIndex basename ∈ PICON_SRCS)
      then
        let piconBasename := Py.upto origIndex basename in
        (Some piconBasename,
         match piconFiles !! piconBasename with
         | Some old => log ++ [Renamed piconBasename old.1 piconName]
         | None => log
         end)
      else if bool_decide (piconFiles !! basename = None) then (Some basename, log)
      else (None, log) in
    match piconBasename with
    | Some piconBasename =>
        if String.eqb piconBasename "" then Some (piconFiles, log)
        else
          match picon_getLinkRef w piconName with
          | Some ref => Some (<[piconBasename := (piconName, ref)]> piconFiles, log)
          | None => None
          end
    | None => Some (piconFiles, log)
    end
  else Some acc.

Fixpoint addPiconFiles (w : world) (names : list string)
    (acc : gmap string (string * ident) * list msg)
    : option (gmap string (string * ident) * list msg) :=
  match names with
  | [] => Some acc
  | piconName :: rest =>
      match addPiconFile w piconName acc with
      | Some acc' => addPiconFiles w rest acc'
      | None => None
      end
  end.

(** [Some (piconFiles, messages)], or [None] for the [exit(1)] of the
    handler (its message is printed by the caller below). *)
Definition _makePiconFileList (w : world)
    : option (gmap string (string * ident) * list msg) :=
  match chan w with
  | Some l => addPiconFiles w l.*1 (∅, [])
  | None => None
  end.

(** *** The existing links *)

Definition is_link (k : LinkKind) : bool :=
  match k with
  | IS_SLINK | IS_HLINK => true
  | _ => false
  end.

(** The loop of [_cleanWrongLinks]; [None] when [getLinkRef] raises. *)
Fixpoint scanLinks (w : world) (useHardLinks : bool) (names : list string)
    (origPiconLinks : gmap string ident) (wrongLinks : list string)
    : option (gmap string ident * list string) :=
  match names with
  | [] => Some (origPiconLinks, wrongLinks)
  | servRefName :: rest =>
      if is_png servRefName then
        let fileType := refType w servRefName in
        if is_link fileType then
          match getLinkRef w servRefName with
          | Some linkRef =>
              if Bool.eqb useHardLinks (bool_decide (fileType = IS_HLINK))
              then scanLinks w useHardLinks rest
                     (<[servRefName := linkRef]> origPiconLinks) wrongLinks
              else scanLinks w useHardLinks rest
                     origPiconLinks (wrongLinks ++ [servRefName])
          | None => None
          end
        else scanLinks w useHardLinks rest origPiconLinks wrongLinks
      else scanLinks w useHardLinks rest origPiconLinks wrongLinks
  end.

Fixpoint removeEach (servRefNames : list string) (s : LinkMaker) : LinkMaker :=
  match servRefNames with
  | [] => s
  | servRefName :: rest =>
      match os_remove (fs s) servRefName with
      | Some w => removeEach rest (did (Removed servRefName) w s)
      | None => removeEach rest (emit (CantRemove servRefName) s)
      end
  end.

Definition _clean (servRefNames : list string) (s : LinkMaker) : LinkMaker :=
  removeEach servRefNames (emit (Removing (length servRefNames)) s).

Definition clean (s : LinkMaker) : LinkMaker :=
  set_origPiconLinks ∅ (_clean (map_to_list (origPiconLinks s)).*1 s).

(** [true] in the first component stands for [exit(1)]. *)
Definition _cleanWrongLinks (s : LinkMaker) : bool * LinkMaker :=
  match scanLinks (fs s) (o_useHardLinks (opts s)) (listdir (fs s))
          (origPiconLinks s) [] with
  | Some (orig, wrongLinks) =>
      let s := _clean wrongLinks (set_origPiconLinks orig s) in
      (false, if o_cleanAll (opts s) then clean s else s)
  | None => (true, emit CantProcessLinkDir s)
  end.

(** [__init__], without the page texts and the seeding of images, for a
    database that can be opened. *)
Definition init (o : options) (w : world) : bool * LinkMaker :=
  let s := {| opts := o; fs := w; piconFiles := ∅; origPiconLinks := ∅;
              overrides := ∅; linkedPiconNames := ∅; piconLinks := ∅;
              linksMade := 0; servRefPartsFold := None;
              output := []; trace := [] |} in
  match _makePiconFileList w with
  | Some (files, log) =>
      _cleanWrongLinks
        {| opts := o; fs := w; piconFiles := files; origPiconLinks := ∅;
           overrides := ∅; linkedPiconNames := ∅; piconLinks := ∅;
           linksMade := 0; servRefPartsFold := None;
           output := log; trace := [] |}
  | None => (true, emit CantProcessImageDir s)
  end.

(** *** Reference expansion *)

Definition in_Z (x : Z) (l : list Z) : bool := bool_decide (x ∈ l).

(** The test of lines 219 and 231 on field 0. *)
Definition terrestrial (n0 : Z) : bool := Z.land n0 (Z.lnot 256) =? 1.

(** Lines 219-229: the block of [addfold].  It receives the list
    [servRefs] built so far and the binding of [servRefPartsFold]
    ([None] while the variable is unbound) and returns both. *)
Definition addfoldRule (servRefParts : list string)
    (acc : list (list string) * option (list string))
    : result (list (list string) * option (list string)) :=
  let '(servRefs, partsFold) := acc in
  p0 <-! Py.getitem servRefParts 0;
  n0 <-! Py.int p0;
  if terrestrial n0 then
    p2 <-! Py.getitem servRefParts 2;
    stype <-! Py.int16 p2;
    let '(servRefs, partsFold) :=
      if negb (in_Z stype [1; 2; 10])
      then let servRefPartsFold := <[2%nat := "1"]> servRefParts in
           (servRefs ++ [servRefPartsFold], Some servRefPartsFold)
      else (servRefs, partsFold) in
    alias <-! (if in_Z stype [2; 10] then
                 p5 <-! Py.getitem servRefParts 5;
                 n5 <-! Py.int16 p5;
                 if in_Z n5 [4112; 12801] then
                   p3 <-! Py.getitem servRefParts 3;
                   n3 <-! Py.int16 p3;
                   Ok (Z.land n3 15 =? 15)
                 else Ok false
               else Ok false);
    if alias : bool
    then let servRefPartsFold :=
           <[2%nat := if stype =? 10 then "2" else "A"]> servRefParts in
         Ok (servRefs ++ [servRefPartsFold], Some servRefPartsFold)
    else Ok (servRefs, partsFold)
  else Ok (servRefs, partsFold).

(** Lines 231-236: the block of [fold].  The [append] of line 236 is
    outside the test of line 233, so it reads [servRefPartsFold] whether
    or not this record bound it. *)
Definition foldRule (servRefParts : list string)
    (acc : list (list string) * option (list string))
    : result (list (list string) * option (list string)) :=
  let '(servRefs, partsFold) := acc in
  p0 <-! Py.getitem servRefParts 0;
  n0 <-! Py.int p0;
  if terrestrial n0 then
    p2 <-! Py.getitem servRefParts 2;
    stype <-! Py.int16 p2;
    let partsFold :=
      if negb (in_Z stype [1; 2; 10])
      then Some (<[2%nat := "1"]> servRefParts)
      else partsFold in
    servRefPartsFold <-! of_option UnboundLocalError partsFold;
    Ok (servRefs ++ [servRefPartsFold], partsFold)
  else Ok (servRefs, partsFold).

(** Lines 211-218: the targets that need no number. *)
Definition plainRules (o : options) (servRefParts : list string)
    (serviceName : string) : list (list string) :=
  let servRefs := [] in
  let servRefs :=
    if o_useServiceNameLinks o then servRefs ++ [[serviceName]] else servRefs in
  let servRefs :=
    if o_full o || o_addfold o then servRefs ++ [servRefParts] else servRefs in
  if o_short o
  then servRefs ++ [take 1 servRefParts ++ take 4 (drop 3 servRefParts)]
  else servRefs.

(** Lines 211-236 of [makeLinks]: the lists of fields of the targets of
    one record, and the binding of [servRefPartsFold] afterwards.  The
    argument [partsFold] is the binding left by the records before. *)
Definition expand (o : options) (partsFold : option (list string))
    (servRef serviceName : string)
    : result (list (list string) * option (list string)) :=
  let servRefParts := take 10 (Py.split ":" servRef) in
  let servRefs := plainRules o servRefParts serviceName in
  acc <-! (if o_addfold o then addfoldRule servRefParts (servRefs, partsFold)
           else Ok (servRefs, partsFold));
  if o_fold o then foldRule servRefParts acc else Ok acc.

Definition targetName (srp : list string) : string :=
  Py.join "_" srp +:+ ".png".

(** *** Reconciliation of one target

    A name of the output directory stands for its path.  [linkTarget] is
    lines 258-288: the link is confirmed, made or reported. *)
Definition linkTarget (servRef picon servRefName : string) (lexists : bool)
    (s : LinkMaker) : LinkMaker :=
  let servRefPath := servRefName in
  let useHardLinks := o_useHardLinks (opts s) in
  let '(linked, piconName, s) :=
    match piconFiles s !! picon with
    | Some (piconName, piconRef) =>
        let piconPath := CHAN_PICON_DIR +:+ "/" +:+ piconName in
        let '(linked, s) :=
          match origPiconLinks s !! servRefName with
          | Some ref =>
              (bool_decide (ref = piconRef),
               set_origPiconLinks (delete servRefName (origPiconLinks s)) s)
          | None => (false, s)
          end in
        if linked then (true, piconName, s)
        else
          match (if lexists
                 then (fun w => did (Removed servRefName) w s)
                        <$> os_remove (fs s) servRefPath
                 else Some s) with
          | Some s =>
              let s := set_linksMade (linksMade s + 1)%nat s in
              match (if useHardLinks
                     then (fun w => did (Linked piconName servRefName) w s)
                            <$> os_link (fs s) piconName servRefPath
                     else (fun w => did (Symlinked piconPath servRefName) w s)
                            <$> os_symlink (fs s) piconPath servRefPath) with
              | Some s => (true, piconName, s)
              | None =>
                  (false, piconName,
                   emit (LinkFailed useHardLinks piconName servRefName) s)
              end
          | None =>
              (false, piconName,
               emit (LinkFailed useHardLinks piconName servRefName) s)
          end
    | None => (false, "", s)
    end in
  if linked then
    set_piconLinks (<[servRefName := picon]> (piconLinks s))
      (set_linkedPiconNames ({[piconName]} ∪ linkedPiconNames s) s)
  else if bool_decide (picon ∈ ["tba"; "tobeadvised"]) then s
  else emit (NoPicon picon servRef) s.

(** The body of the loop over [servRefs] (lines 239-290). *)
Definition reconcile (servRef picon servRefName : string) (s : LinkMaker)
    : LinkMaker :=
  if bool_decide (piconLinks s !! servRefName = Some picon) then s
  else
    match piconLinks s !! servRefName with
    | None =>
        let servRefPath := servRefName in
        let exist := path_exists (fs s) servRefPath in
        let alreadyOverridden := bool_decide (servRefPath ∈ overrides s) in
        let '(over, s) := if exist then isOverride servRefPath s else (false, s) in
        if exist && over then
          if alreadyOverridden then s else emit (OverRidden picon servRefName) s
        else
          let lexists := exist || path_lexists (fs s) servRefPath in
          if negb exist || lexists
          then linkTarget servRef picon servRefName lexists s
          else if bool_decide (picon ∈ ["tba"; "tobeadvised"]) then s
          else emit (NoPicon picon servRef) s
    | Some linkedPicon => emit (LinkExists servRef linkedPicon picon) s
    end.

Fixpoint reconcileAll (servRef picon : string) (servRefs : list (list string))
    (s : LinkMaker) : LinkMaker :=
  match servRefs with
  | [] => s
  | srp :: rest =>
      reconcileAll servRef picon rest (reconcile servRef picon (targetName srp) s)
  end.

(** *** The database *)

(** One line with its comment and trailing blanks removed. *)
Definition cleanLine (line : string) : string :=
  Py.str (Py.rstrip (Py.sub_comment false (Py.chars line))).

(** The body of the loop over the lines of the database.  An exception
    leaves the loop; the link maker is then as it was before the line. *)
Definition doLine (line : string) (s : LinkMaker) : result LinkMaker :=
  let line := cleanLine line in
  if String.eqb line "" then Ok s
  else
    let F := Py.split_ws [] (Py.chars line) in
    if (3 <? length F)%nat then Ok (emit (TooManyFields line) s)
    else
      match F with
      | [servRef; serviceName; picon] =>
          r <-! expand (opts s) (servRefPartsFold s) servRef serviceName;
          let '(servRefs, partsFold) := r in
          Ok (reconcileAll servRef picon servRefs (set_servRefPartsFold partsFold s))
      | _ => Ok (emit (TooFewFields line) s)
      end.

Inductive status :=
| Finished
| Exited              (* exit(1) *)
| Crashed (e : exn).  (* an exception nobody caught *)

(** The loop of [makeLinks]: the state at its end, or at the exception. *)
Fixpoint doLines (lines : list string) (s : LinkMaker) : status * LinkMaker :=
  match lines with
  | [] => (Finished, s)
  | line :: rest =>
      match doLine line s with
      | Ok s' => doLines rest s'
      | Raise e => (Crashed e, s)
      end
  end.

(** The locals of [makeLinks] on entry. *)
Definition enter (s : LinkMaker) : LinkMaker :=
  set_servRefPartsFold None (set_linksMade 0 (set_piconLinks ∅ s)).

Definition makeLinks (lines : list string) (s : LinkMaker) : status * LinkMaker :=
  match doLines lines (enter s) with
  | (Finished, s) => (Finished, emit (LinksMade (linksMade s)) s)
  | r => r
  end.

(** *** One output directory, as the script drives it (lines 425-430).
    [checkUnused] only reports, and [makeHtmlIndex] writes the index
    page, a file that is no link and carries no image extension; both
    are left out, and the index page is taken to be writable. *)
Definition run (o : options) (lines : list string) (w : world)
    : status * LinkMaker :=
  match init o w with
  | (true, s) => (Exited, s)
  | (false, s) =>
      match makeLinks lines s with
      | (Finished, s) => (Finished, clean s)
      | r => r
      end
  end.

(** The names of the targets of one record. *)
Definition targets (o : options) (partsFold : option (list string))
    (servRef serviceName : string) : result (list string) :=
  r <-! expand o partsFold servRef serviceName;
  Ok (targetName <$> r.1).

(** A record one of whose numeric fields is read by an active rule and
    is no number: field 0 (decimal) for [fold] and [addfold]; field 2
    (hexadecimal) once field 0 selects the record; fields 5 and 3
    (hexadecimal) in the alias test of [addfold]. *)
Definition unparsable (o : options) (servRef : string) : bool :=
  let servRefParts := take 10 (Py.split ":" servRef) in
  (o_addfold o || o_fold o) &&
  match servRefParts !! 0%nat with
  | None => false
  | Some p0 =>
      match Py.parse_int 10 p0 with
      | None => true
      | Some n0 =>
          terrestrial n0 &&
          match servRefParts !! 2%nat with
          | None => false
          | Some p2 =>
              match Py.parse_int 16 p2 with
              | None => true
              | Some stype =>
                  o_addfold o && in_Z stype [2; 10] &&
                  match servRefParts !! 5%nat with
                  | None => false
                  | Some p5 =>
                      match Py.parse_int 16 p5 with
                      | None => true
                      | Some n5 =>
                          in_Z n5 [4112; 12801] &&
                          match servRefParts !! 3%nat with
                          | None => false
                          | Some p3 =>
                              match Py.parse_int 16 p3 with
                              | None => true
                              | Some _ => false
                              end
                          end
                      end
                  end
              end
          end
      end
  end.

(** Option sets used in the examples. *)
Definition no_options : options :=
  {| o_full := false; o_short := false; o_fold := false; o_addfold := false;
     o_useServiceNameLinks := false; o_useHardLinks := false;
     o_cleanAll := false |}.

Definition only_full : options :=
  {| o_full := true; o_short := false; o_fold := false; o_addfold := false;
     o_useServiceNameLinks := false; o_useHardLinks := false;
     o_cleanAll := false |}.

Definition only_fold : options :=
  {| o_full := false; o_short := false; o_fold := true; o_addfold := false;
     o_useServiceNameLinks := false; o_useHardLinks := false;
     o_cleanAll := false |}.

Definition only_addfold : options :=
  {| o_full := false; o_short := false; o_fold := false; o_addfold := true;
     o_useServiceNameLinks := false; o_useHardLinks := false;
     o_cleanAll := false |}.

Definition with_hardLinks (o : options) : options :=
  {| o_full := o_full o; o_short := o_short o; o_fold := o_fold o;
     o_addfold := o_addfold o;
     o_useServiceNameLinks := o_useServiceNameLinks o;
     o_useHardLinks := true; o_cleanAll := o_cleanAll o |}.

Definition with_cleanAll (o : options) : options :=
  {| o_full := o_full o; o_short := o_short o; o_fold := o_fold o;
     o_addfold := o_addfold o;
     o_useServiceNameLinks := o_useServiceNameLinks o;
     o_useHardLinks := o_useHardLinks o; o_cleanAll := true |}.

(** *** The outcomes of [reconcile]

    [reconciled servRef picon T s s'] lists the ways through the body of
    the loop over [servRefs], one constructor per path of the source; it
    is shown below to hold of [reconcile] itself. *)

(** Lines 284-285. *)
Definition claim (picon piconName T : string) (s : LinkMaker) : LinkMaker :=
  set_piconLinks (<[T := picon]> (piconLinks s))
    (set_linkedPiconNames ({[piconName]} ∪ linkedPiconNames s) s).

(** Line 267 (a no-op when the name is no baseline link). *)
Definition unbaseline (T : string) (s : LinkMaker) : LinkMaker :=
  set_origPiconLinks (delete T (origPiconLinks s)) s.

(** The test of line 251. *)
Definition overridden (s : LinkMaker) (T : string) : Prop :=
  path_exists (fs s) T = true /\ (T ∈ overrides s \/ refType (fs s) T = IS_FILE).

Definition placeholder (picon : string) : bool :=
  bool_decide (picon ∈ ["tba"; "tobeadvised"]).

(** Lines 271-272: the name is cleared when something is there. *)
Inductive cleared (T : string) (s : LinkMaker) : LinkMaker -> Prop :=
| cleared_absent :
    out (fs s) !! T = None -> cleared T s s
| cleared_removed w :
    os_remove (fs s) T = Some w -> cleared T s (did (Removed T) w s).

(** Lines 275-278. *)
Definition linkOp (useHardLinks : bool) (piconName T : string) : fsop :=
  if useHardLinks then Linked piconName T
  else Symlinked (CHAN_PICON_DIR +:+ "/" +:+ piconName) T.

Definition os_makeLink (useHardLinks : bool) (w : world) (piconName T : string)
    : option world :=
  if useHardLinks then os_link w piconName T
  else os_symlink w (CHAN_PICON_DIR +:+ "/" +:+ piconName) T.

Inductive reconciled (servRef picon T : string) (s : LinkMaker)
    : LinkMaker -> Prop :=
| R_duplicate :
    piconLinks s !! T = Some picon ->
    reconciled servRef picon T s s
| R_conflict linkedPicon :
    piconLinks s !! T = Some linkedPicon ->
    linkedPicon ≠ picon ->
    reconciled servRef picon T s (emit (LinkExists servRef linkedPicon picon) s)
| R_override_new :
    piconLinks s !! T = None ->
    path_exists (fs s) T = true ->
    T ∉ overrides s ->
    refType (fs s) T = IS_FILE ->
    reconciled servRef picon T s
      (emit (OverRidden picon T) (set_overrides ({[T]} ∪ overrides s) s))
| R_override_known :
    piconLinks s !! T = None ->
    path_exists (fs s) T = true ->
    T ∈ overrides s ->
    reconciled servRef picon T s s
| R_no_picon :
    piconLinks s !! T = None ->
    ~ overridden s T ->
    piconFiles s !! picon = None ->
    reconciled servRef picon T s
      (if placeholder picon then s else emit (NoPicon picon servRef) s)
| R_confirmed piconName piconRef :
    piconLinks s !! T = None ->
    ~ overridden s T ->
    piconFiles s !! picon = Some (piconName, piconRef) ->
    origPiconLinks s !! T = Some piconRef ->
    reconciled servRef picon T s (claim picon piconName T (unbaseline T s))
| R_made piconName piconRef s2 w :
    piconLinks s !! T = None ->
    ~ overridden s T ->
    piconFiles s !! picon = Some (piconName, piconRef) ->
    origPiconLinks s !! T ≠ Some piconRef ->
    cleared T (unbaseline T s) s2 ->
    os_makeLink (o_useHardLinks (opts s)) (fs s2) piconName T = Some w ->
    reconciled servRef picon T s
      (claim picon piconName T
         (did (linkOp (o_useHardLinks (opts s)) piconName T) w
            (set_linksMade (linksMade s2 + 1)%nat s2)))
| R_remove_failed piconName piconRef :
    piconLinks s !! T = None ->
    ~ overridden s T ->
    piconFiles s !! picon = Some (piconName, piconRef) ->
    origPiconLinks s !! T ≠ Some piconRef ->
    is_Some (out (fs s) !! T) ->
    os_remove (fs s) T = None ->
    reconciled servRef picon T s
      (let s1 := emit (LinkFailed (o_useHardLinks (opts s)) piconName T)
                   (unbaseline T s) in
       if placeholder picon then s1 else emit (NoPicon picon servRef) s1)
| R_link_failed piconName piconRef s2 :
    piconLinks s !! T = None ->
    ~ overridden s T ->
    piconFiles s !! picon = Some (piconName, piconRef) ->
    origPiconLinks s !! T ≠ Some piconRef ->
    cleared T (unbaseline T s) s2 ->
    os_makeLink (o_useHardLinks (opts s)) (fs s2) piconName T = None ->
    reconciled servRef picon T s
      (let s1 := emit (LinkFailed (o_useHardLinks (opts s)) piconName T)
                   (set_linksMade (linksMade s2 + 1)%nat s2) in
       if placeholder picon then s1 else emit (NoPicon picon servRef) s1).

(* ================================================================== *)
(** * The rest of the script *)
(* ================================================================== *)

(** ** [sorted] on text: the order of the code points. *)

(** [a <= b] as Python compares two [str]. *)
Definition str_le (a b : string) : Prop := String.leb a b = true.

#[global] Instance str_le_dec a b : Decision (str_le a b).
Proof. unfold str_le. apply _. Defined.

Definition sorted (l : list string) : list string := merge_sort str_le l.

(** ** [checkUnused] (lines 294-297): the names it prints, in order. *)

Definition piconNames (s : LinkMaker) : gset string :=
  list_to_set ((map_to_list (piconFiles s)).*2.*1).

Definition checkUnused (s : LinkMaker) : list string :=
  sorted (elements (piconNames s ∖ linkedPiconNames s)).

(** ** The name and the title of the set of icons (lines 75-92) *)

Definition TITLES : list (string * string) :=
  [("buttonPicons", "Australian picons, white background, button shading");
   ("flatBlackPicons", "Australian picons, black background");
   ("flatPicons", "Australian picons, white background");
   ("maskPicons", "Australian picons, with mask");
   ("lcdPicons", "Australian Front Panel picons");
   ("picon", "Australian picons, with mask");
   ("piconlcd", "Australian Front Panel picons")].

(** [s.rstrip('/')], by way of the reversed text. *)
Fixpoint lstrip_sep (l : list ascii) : list ascii :=
  match l with
  | c :: l' => if Ascii.eqb c "/" then lstrip_sep l' else l
  | [] => []
  end.

Definition rstrip_sep (s : string) : string :=
  Py.str (rev (lstrip_sep (rev (Py.chars s)))).

(** [posixpath.split] *)
Definition path_split (p : string) : string * string :=
  let i := Py.rfind "/" p + 1 in
  let head := Py.upto i p in
  let tail := Py.from i p in
  let head :=
    if negb (String.eqb head "")
       && negb (forallb (fun c => Ascii.eqb c "/") (Py.chars head))
    then rstrip_sep head else head in
  (head, tail).

(** Lines 75-86 of [__init__]: the name of the set of icons. *)
Definition piconSetOf (piconPath : string) : string :=
  let piconPath := if String.eqb piconPath "" then "." else piconPath in
  let '(piconSet, piconBase) := path_split piconPath in
  if negb (String.eqb piconSet "") then (path_split piconSet).2 else piconBase.

(** Line 92. *)
Definition titleOf (piconSet : string) : string :=
  match assoc piconSet TITLES with
  | Some title => title
  | None => piconSet
  end.

(** ** [makeHtmlIndex] (lines 299-323) *)

(** The newline and the double quote. *)
Definition nl : string := String "010" "".
Definition dq : string := String "034" "".

(** Lines 94-105: the texts around the table. *)
Definition htmlHead (title : string) : string :=
  "<!DOCTYPE html PUBLIC " +:+ dq +:+ "-//w3c//dtd html 4.0 transitional//en"
    +:+ dq +:+ ">" +:+ nl +:+
  "<html>" +:+ nl +:+
  "<head>" +:+ nl +:+
  "  <title>" +:+ title +:+ "</title>" +:+ nl +:+
  "</head>" +:+ nl +:+
  "<body text=" +:+ dq +:+ "#ffffff" +:+ dq +:+
    " bgcolor=" +:+ dq +:+ "#303030" +:+ dq +:+
    " link=" +:+ dq +:+ "#0000ff" +:+ dq +:+
    " vlink=" +:+ dq +:+ "#800080" +:+ dq +:+
    " alink=" +:+ dq +:+ "#ff00ff" +:+ dq +:+ ">" +:+ nl +:+
  "<h1><center>" +:+ title +:+ "</center></h1>" +:+ nl +:+
  "<table border=" +:+ dq +:+ "0" +:+ dq +:+
    " align=" +:+ dq +:+ "center" +:+ dq +:+
    " cellspacing=" +:+ dq +:+ "0" +:+ dq +:+
    " cellpadding=" +:+ dq +:+ "0" +:+ dq +:+ ">" +:+ nl +:+
  "  <tbody>".

Definition htmlTail : string :=
  "  </tbody>" +:+ nl +:+ "</table></body></html>".

(** Line 316: the cell of one icon. *)
Definition htmlCell (piconName : string) : string :=
  "    <td><img src=" +:+ dq +:+ CHAN_PICON_DIR +:+ "/" +:+ piconName +:+ dq
    +:+ "></td>" +:+ nl.

(** The loop of [makeHtmlIndex] (lines 309-321): what it writes, one
    element for each [write] or [print], and [row] at its end. *)
Fixpoint htmlRows (piconNames : list string) (row item : nat)
    : list string * nat :=
  match piconNames with
  | [] => ([], row)
  | piconName :: rest =>
      let opening :=
        if (item =? 0)%nat
        then ["  "] ++ (if negb (row =? 0)%nat then ["</tr>"] else [])
                    ++ ["<tr>" +:+ nl]
        else [] in
      let item := (item + 1)%nat in
      let '(row, item) :=
        if (6 <=? item)%nat then ((row + 1)%nat, 0%nat) else (row, item) in
      let '(written, row) := htmlRows rest row item in
      (opening ++ [htmlCell piconName] ++ written, row)
  end.

(** [makeHtmlIndex]: the texts written to [index.html], in order, when
    the file can be opened. *)
Definition makeHtmlIndex (title : string) (s : LinkMaker) : list string :=
  let '(written, row) :=
    htmlRows (sorted (map_to_list (piconFiles s)).*2.*1) 0 0 in
  [htmlHead title +:+ nl] ++ written
    ++ (if negb (row =? 0)%nat then ["  </tr>" +:+ nl] else [])
    ++ [htmlTail +:+ nl].

(** ** The options of the command line (lines 371-418) *)

Definition with_full (o : options) : options :=
  {| o_full := true; o_short := o_short o; o_fold := o_fold o;
     o_addfold := o_addfold o;
     o_useServiceNameLinks := o_useServiceNameLinks o;
     o_useHardLinks := o_useHardLinks o; o_cleanAll := o_cleanAll o |}.

Definition with_short (o : options) : options :=
  {| o_full := o_full o; o_short := true; o_fold := o_fold o;
     o_addfold := o_addfold o;
     o_useServiceNameLinks := o_useServiceNameLinks o;
     o_useHardLinks := o_useHardLinks o; o_cleanAll := o_cleanAll o |}.

Definition with_fold (o : options) : options :=
  {| o_full := o_full o; o_short := o_short o; o_fold := true;
     o_addfold := o_addfold o;
     o_useServiceNameLinks := o_useServiceNameLinks o;
     o_useHardLinks := o_useHardLinks o; o_cleanAll := o_cleanAll o |}.

Definition with_addfold (o : options) : options :=
  {| o_full := o_full o; o_short := o_short o; o_fold := o_fold o;
     o_addfold := true;
     o_useServiceNameLinks := o_useServiceNameLinks o;
     o_useHardLinks := o_useHardLinks o; o_cleanAll := o_cleanAll o |}.

Definition with_serviceNames (o : options) : options :=
  {| o_full := o_full o; o_short := o_short o; o_fold := o_fold o;
     o_addfold := o_addfold o;
     o_useServiceNameLinks := true;
     o_useHardLinks := o_useHardLinks o; o_cleanAll := o_cleanAll o |}.

(** The dictionary [options] with its entry [copyImages]. *)
Record cmdline := {
  flags : options;
  copyImages : option string
}.

(** How the handling of the options ends. *)
Inductive outcome :=
| Parsed (c : cmdline)
| Usage (status : Z)     (* usage(status) *)
| AssertionError.        (* assert False *)

Definition is_in (o : string) (names : list string) : bool :=
  bool_decide (o ∈ names).

Definition set_flags (f : options -> options) (c : cmdline) : cmdline :=
  {| flags := f (flags c); copyImages := copyImages c |}.

(** The body of the loop of lines 388-409 over the pairs [getopt] returns. *)
Definition doOption (o a : string) (c : cmdline) : outcome :=
  if is_in o ["--full"; "-f"] then Parsed (set_flags with_full c)
  else if is_in o ["--short"; "-s"] then Parsed (set_flags with_short c)
  else if is_in o ["--fold"; "-F"] then Parsed (set_flags with_fold c)
  else if is_in o ["--addfold"; "-a"] then Parsed (set_flags with_addfold c)
  else if is_in o ["--servicenames"; "-S"] then Parsed (set_flags with_serviceNames c)
  else if is_in o ["--hardlinks"; "-H"] then Parsed (set_flags with_hardLinks c)
  else if is_in o ["--cleanall"; "-c"] then Parsed (set_flags with_cleanAll c)
  else if is_in o ["--copyimages"; "-C"]
       then Parsed {| flags := flags c; copyImages := Some a |}
  else if is_in o ["--help"; "-h"] then Usage 0
  else AssertionError.

Fixpoint doOptions (opts : list (string * string)) (c : cmdline) : outcome :=
  match opts with
  | [] => Parsed c
  | (o, a) :: rest =>
      match doOption o a c with
      | Parsed c' => doOptions rest c'
      | r => r
      end
  end.

(** Lines 371-380. *)
Definition option_defaults : cmdline :=
  {| flags := no_options; copyImages := None |}.

(** Lines 388-418: the options the script runs with, from the options
    and the arguments [getopt] returns. *)
Definition script_options (opts : list (string * string)) (args : list string)
    : outcome :=
  match doOptions opts option_defaults with
  | Parsed c =>
      let c := set_flags default_full c in
      if (length args <? 2)%nat then Usage 1 else Parsed c
  | r => r
  end.

(* ================================================================== *)
(** * The notions of the statements *)
(* ================================================================== *)

(** The parts of the world no primitive changes. *)
Definition static (w w' : world) : Prop :=
  chan w' = chan w /\ ext w' = ext w /\ elsewhere w' = elsewhere w.

(** The node a new link consists of. *)
Definition linkNode (useHardLinks : bool) (w : world) (piconName : string)
    : option node :=
  if useHardLinks then
    match chan_lookup w piconName with
    | Some (Reg i) => Some (Reg i)
    | _ => None
    end
  else Some (Sym (CHAN_PICON_DIR +:+ "/" +:+ piconName)).

(** What clearing a name leaves. *)
Definition same_but_fs (s s' : LinkMaker) : Prop :=
  opts s' = opts s /\ piconFiles s' = piconFiles s /\
  origPiconLinks s' = origPiconLinks s /\ overrides s' = overrides s /\
  linkedPiconNames s' = linkedPiconNames s /\ piconLinks s' = piconLinks s /\
  linksMade s' = linksMade s /\ servRefPartsFold s' = servRefPartsFold s /\
  output s' = output s /\ static (fs s) (fs s').

(** The target names of one line and the binding of [servRefPartsFold]
    after it; a line that is skipped has none. *)
Definition lineTargets (o : options) (partsFold : option (list string))
    (line : string) : result (list string * option (list string)) :=
  let line := cleanLine line in
  if String.eqb line "" then Ok ([], partsFold)
  else
    let F := Py.split_ws [] (Py.chars line) in
    if (3 <? length F)%nat then Ok ([], partsFold)
    else
      match F with
      | [servRef; serviceName; picon] =>
          r <-! expand o partsFold servRef serviceName;
          Ok (targetName <$> r.1, r.2)
      | _ => Ok ([], partsFold)
      end.

(** The names the database derives, up to the end or to the record that
    raises. *)
Fixpoint derived (o : options) (partsFold : option (list string))
    (lines : list string) : list string :=
  match lines with
  | [] => []
  | line :: rest =>
      match lineTargets o partsFold line with
      | Ok (ts, partsFold') => ts ++ derived o partsFold' rest
      | Raise _ => []
      end
  end.

(** The kind of link the run wants. *)
Definition wanted (useHardLinks : bool) : LinkKind :=
  if useHardLinks then IS_HLINK else IS_SLINK.

(** The name an operation changes. *)
Definition op_name (op : fsop) : string :=
  match op with
  | Removed n => n
  | Linked _ n => n
  | Symlinked _ n => n
  end.

Definition msg_is_override (T : string) (m : msg) : bool :=
  match m with
  | OverRidden _ T' => String.eqb T T'
  | _ => false
  end.

(** [T] names the plain file [i], and the link maker has neither taken it
    for a baseline link nor claimed it. *)
Definition plain_file (T : string) (i : ident) (s : LinkMaker) : Prop :=
  out (fs s) !! T = Some (Reg i) /\ (nlink (fs s) i <= 1)%nat /\
  origPiconLinks s !! T = None /\ piconLinks s !! T = None.

(** No operation of the run so far was on [T], and no removal of it was
    attempted. *)
Definition untouched (T : string) (s : LinkMaker) : Prop :=
  Forall (fun op => op_name op ≠ T) (trace s) /\ CantRemove T ∉ output s.

(** The override of [T] was reported once if [T] is marked, else never. *)
Definition logged_once (T : string) (s : LinkMaker) : Prop :=
  length (filter (fun m => msg_is_override T m = true) (output s))
  = if decide (T ∈ overrides s) then 1%nat else 0%nat.

(** The link maker after the inventory and the scan, before any removal. *)
Definition scanned (o : options) (w : world)
    (files : gmap string (string * ident)) (log : list msg)
    (orig : gmap string ident) : LinkMaker :=
  {| opts := o; fs := w; piconFiles := files; origPiconLinks := orig;
     overrides := ∅; linkedPiconNames := ∅; piconLinks := ∅;
     linksMade := 0; servRefPartsFold := None; output := log; trace := [] |}.

Definition is_Renamed (m : msg) : Prop :=
  match m with
  | Renamed _ _ _ => True
  | _ => False
  end.

(** Every entry of the inventory names a file of the image directory
    together with its identity. *)
Definition inventory_sound (w : world) (files : gmap string (string * ident)) : Prop :=
  forall key piconName ref,
    files !! key = Some (piconName, ref) ->
    chan_lookup w piconName = Some (Reg ref).

Definition kept (T : string) (i : ident) (s : LinkMaker) : Prop :=
  plain_file T i s /\ untouched T s /\ logged_once T s.

(** Any number of runs, one after the other, on one output directory. *)
Fixpoint runs (jobs : list (options * list string)) (w : world) : world :=
  match jobs with
  | [] => w
  | (o, lines) :: rest => runs rest (fs (run o lines w).2)
  end.

(** A baseline link that no record has claimed is either still listed
    for removal and removable, or already gone. *)
Definition pending (T : string) (s : LinkMaker) : Prop :=
  piconLinks s !! T = None ->
  out (fs s) !! T = None \/
  (is_Some (origPiconLinks s !! T) /\
   exists n, out (fs s) !! T = Some n /\ forall i, n ≠ Dir i).

(** [T] is a link of the kind the run makes, and [stat] finds the file
    [id] behind it. *)
Definition links_to (h : bool) (w : world) (T : string) (id : ident) : Prop :=
  (if h then out w !! T = Some (Reg id) else exists t, out w !! T = Some (Sym t)) /\
  getLinkRef w T = Some id.

(** The invariant of the loop of [makeLinks]: the inventory names files
    of the image directory; baseline links and claimed targets are links
    of the wanted kind to the recorded file; a claimed target is no
    baseline link any more; a marked override is a regular file that no
    record has claimed. *)
Definition consistent (s : LinkMaker) : Prop :=
  inventory_sound (fs s) (piconFiles s) /\
  (forall T id, origPiconLinks s !! T = Some id ->
     links_to (o_useHardLinks (opts s)) (fs s) T id) /\
  (forall T q, piconLinks s !! T = Some q ->
     exists pn id, piconFiles s !! q = Some (pn, id) /\
       links_to (o_useHardLinks (opts s)) (fs s) T id /\
       origPiconLinks s !! T = None) /\
  (forall T, T ∈ overrides s ->
     exists i, out (fs s) !! T = Some (Reg i) /\ piconLinks s !! T = None).

(** The states a run passes through while it reconciles. *)
Inductive reachable (o : options) (w : world) : LinkMaker -> Prop :=
| reach_enter s0 :
    init o w = (false, s0) -> reachable o w (enter s0)
| reach_lines lines s :
    reachable o w s -> reachable o w (doLines lines s).2
| reach_binding pf s :
    reachable o w s -> reachable o w (set_servRefPartsFold pf s)
| reach_reconcile servRef picon T s :
    reachable o w s -> reachable o w (reconcile servRef picon T s).

(** What was printed between two states of a run. *)
Definition said (s s' : LinkMaker) : list msg :=
  drop (length (output s)) (output s').

(** The binding of [servRefPartsFold] after some lines. *)
Fixpoint bindingAfter (o : options) (partsFold : option (list string))
    (lines : list string) : option (list string) :=
  match lines with
  | [] => partsFold
  | line :: rest =>
      match lineTargets o partsFold line with
      | Ok (_, partsFold') => bindingAfter o partsFold' rest
      | Raise _ => partsFold
      end
  end.

(** Nothing more will happen to [T]: it is claimed, or marked as an
    override, or a directory that cannot be removed. *)
Definition settled (T : string) (s : LinkMaker) : Prop :=
  is_Some (piconLinks s !! T) \/ T ∈ overrides s \/
  exists i, out (fs s) !! T = Some (Dir i).

Definition abc_news : string := "1:0:2:4A:6:1010:0:0:0:0".

(** An output directory with a stale symbolic link and a plain file that
    was put there by hand, next to an image directory with two icons. *)
Definition example_world : world :=
  {| out := {[ "old.png" := Sym "channel_picons/abc.png";
               "file.png" := Reg (1, 50) ]};
     chan := Some [("abc.png", Reg (1, 10)); ("sbs.png", Reg (1, 12))];
     ext := ∅; elsewhere := ∅ |}.

Definition abc_hd : string := "1_0_1_4A_6_85_0_0_0_0.png".

(** Two records with one reference and different icons. *)
Definition conflicting : list string :=
  ["1:0:1:4A:6:85:0:0:0:0 ABC_HD abc"; "1:0:1:4A:6:85:0:0:0:0 SBS sbs"].

(** A record whose field 0 is no number, before a good record. *)
Definition unreadable : list string :=
  ["x:0:1:4A:6:85:0:0:0:0 ABC_HD abc"; "1:0:1:4B:6:86:0:0:0:0 SBS sbs"].

(** A placeholder record before a record for the same reference. *)
Definition placeholder_first : list string :=
  ["1:0:1:4A:6:85:0:0:0:0 ABC_HD tba"; "1:0:1:4A:6:85:0:0:0:0 ABC_HD abc"].

(** An image directory in which a suffixed file precedes the plain one. *)
Definition ambiguous_world : world :=
  {| out := ∅;
     chan := Some [("abc_wp.png", Reg (1, 10)); ("abc.png", Reg (1, 11))];
     ext := ∅; elsewhere := ∅ |}.

(** An output directory in which a directory has the name of a target. *)
Definition blocked_world : world :=
  {| out := {[ abc_hd := Dir (1, 70) ]};
     chan := Some [("abc.png", Reg (1, 10)); ("sbs.png", Reg (1, 12))];
     ext := ∅; elsewhere := ∅ |}.

(** Names of a file outside the output directory. *)
Definition outside (w : world) (i : ident) : nat :=
  (chan_refs w i + default 0%nat (elsewhere w !! i))%nat.

(** Baseline links have a name outside the output directory when they
    are hard links. *)
Definition anchored (o : options) (w : world) (a : LinkMaker) : Prop :=
  o_useHardLinks o = true ->
  forall T id, origPiconLinks a !! T = Some id -> (1 <= outside w id)%nat.

(** Every marked override is a plain file. *)
Definition marks_plain (a : LinkMaker) : Prop :=
  forall T, T ∈ overrides a -> exists i, plain_file T i a.

(** Every link with the image extension is of the wanted kind, can be
    followed, and is a baseline link or a claimed target. *)
Definition links_known (o : options) (a : LinkMaker) : Prop :=
  forall T, is_png T = true -> is_link (refType (fs a) T) = true ->
    refType (fs a) T = wanted (o_useHardLinks o) /\
    is_Some (getLinkRef (fs a) T) /\
    (is_Some (origPiconLinks a !! T) \/ is_Some (piconLinks a !! T)).

(** The invariant of the first of two runs. *)
Definition steady (o : options) (w : world) (a : LinkMaker) : Prop :=
  consistent a /\ opts a = o /\ static w (fs a) /\
  anchored o w a /\ marks_plain a /\ links_known o a /\
  (forall T, is_Some (piconLinks a !! T) -> is_png T = true).

(** The state [a] of the first run agrees with what the second run will
    find ([w1] with the baseline links [orig2]): every claimed target is
    a baseline link to the file of its icon, every marked override is a
    plain file, and every directory in the way is still there. *)
Definition ahead (w1 : world) (orig2 : gmap string ident) (a : LinkMaker) : Prop :=
  (forall T q, piconLinks a !! T = Some q ->
     exists pn id, piconFiles a !! q = Some (pn, id) /\ orig2 !! T = Some id) /\
  (forall T, T ∈ overrides a -> path_exists w1 T = true /\ refType w1 T = IS_FILE) /\
  (forall T i, out (fs a) !! T = Some (Dir i) -> out w1 !! T = Some (Dir i)).

(** The state [b] of the second run at the point where the first run was
    in state [a]: the same claims, nothing changed and nothing made so
    far, and the baseline links not yet claimed still listed. *)
Definition twin (w1 : world) (orig2 : gmap string ident) (a b : LinkMaker) : Prop :=
  opts b = opts a /\ piconFiles b = piconFiles a /\
  servRefPartsFold b = servRefPartsFold a /\
  fs b = w1 /\ trace b = [] /\ linksMade b = 0%nat /\
  piconLinks b = piconLinks a /\
  (forall T, origPiconLinks b !! T =
     match piconLinks a !! T with
     | Some _ => None
     | None => orig2 !! T
     end) /\
  (forall T, T ∈ overrides b -> refType w1 T = IS_FILE).

(** A report that counts links counts none. *)
Definition quiet (m : msg) : Prop :=
  match m with
  | LinksMade n | Removing n => n = 0%nat
  | _ => True
  end.

(** An output directory with a hard link to an icon and a plain file. *)
Definition linked_world : world :=
  {| out := {[ "old.png" := Reg (1, 12); "file.png" := Reg (1, 50) ]};
     chan := Some [("abc.png", Reg (1, 10)); ("sbs.png", Reg (1, 12))];
     ext := ∅; elsewhere := ∅ |}.

(** ** Notions of the further properties *)

(** [os.remove] works on files and symbolic links. *)
Definition removable (w : world) (n : string) : bool :=
  match out w !! n with
  | Some (Reg _) | Some (Sym _) => true
  | _ => false
  end.

(** The operations that make a link. *)
Definition is_linkOp (op : fsop) : bool :=
  match op with
  | Removed _ => false
  | _ => true
  end.

(** The number of links made by some operations. *)
Definition links_in (ops : list fsop) : nat :=
  length (filter (fun op => is_linkOp op = true) ops).

(** A name that ends with the image extension. *)
Definition ends_png (T : string) : Prop := exists stem, T = stem +:+ ".png".

(** The part of a run that the names without the extension do not see. *)
Definition png_only (w : world) (s : LinkMaker) : Prop :=
  static w (fs s) /\
  Forall (fun op => ends_png (op_name op)) (trace s) /\
  (forall T, ~ ends_png T -> out (fs s) !! T = out w !! T) /\
  (forall T id, origPiconLinks s !! T = Some id -> ends_png T).

(** The icon files marked as linked are those of the claimed targets. *)
Definition linked_are_used (s : LinkMaker) : Prop :=
  forall pn, pn ∈ linkedPiconNames s <->
    exists T q id, piconLinks s !! T = Some q /\ piconFiles s !! q = Some (pn, id).

(** On the index page: the texts that open and close a row, and the
    cells. *)
Definition is_open (t : string) : bool := String.eqb t ("<tr>" +:+ nl).

Definition is_close (t : string) : bool :=
  String.eqb t "</tr>" || String.eqb t ("  </tr>" +:+ nl).

Definition is_cell (t : string) : bool := String.prefix "    <td>" t.

Definition opens (written : list string) : nat :=
  length (List.filter is_open written).

Definition closes (written : list string) : nat :=
  length (List.filter is_close written).

(** One of the names was among the options given. *)
Definition given (names : list string) (opts : list (string * string)) : bool :=
  existsb (fun oa => is_in oa.1 names) opts.

(** An output directory with a symbolic link to an icon that is gone. *)
Definition dangling_world : world :=
  {| out := {[ "gone.png" := Sym "channel_picons/gone.png" ]};
     chan := Some [("abc.png", Reg (1, 10))];
     ext := ∅; elsewhere := ∅ |}.

(* ================================================================== *)
(** * Properties *)
(* ================================================================== *)

(** ** Text primitives on examples *)

Example int_dec : Py.int "257" = Ok 257.
Proof. reflexivity. Qed.
Example int_hex : Py.int16 "4A" = Ok 74.
Proof. reflexivity. Qed.
Example int_hex_prefix : Py.int16 "-0x_1f" = Ok (-31).
Proof. reflexivity. Qed.
Example int_bad : Py.int "1:0" = Raise ValueError.
Proof. reflexivity. Qed.
Example int_bad_us : Py.int "1__0" = Raise ValueError.
Proof. reflexivity. Qed.
Example splitext_png : Py.splitext "1_0_1.png" = ("1_0_1", ".png").
Proof. reflexivity. Qed.
Example splitext_dots : Py.splitext "..png" = ("..png", "").
Proof. reflexivity. Qed.
Example split_colon : Py.split ":" "1:0::A" = ["1"; "0"; ""; "A"].
Proof. reflexivity. Qed.

(** ** Reference expansion *)

Lemma rbind_Ok {A B} (r : result A) (k : A -> result B) (b : B) :
  rbind r k = Ok b -> exists a, r = Ok a /\ k a = Ok b.
Proof. destruct r as [a|e]; simpl; [eauto | discriminate]. Qed.

Lemma rbind_Raise_l {A B} (r : result A) (k : A -> result B) (e : exn) :
  r = Raise e -> rbind r k = Raise e.
Proof. intros ->. reflexivity. Qed.

(** A record with a number that cannot be read makes the expansion
    raise [ValueError], whatever [servRefPartsFold] is bound to. *)
Lemma unparsable_raises o partsFold servRef serviceName :
  unparsable o servRef = true ->
  expand o partsFold servRef serviceName = Raise ValueError.
Proof.
  unfold unparsable, expand.
  set (parts := take 10 (Py.split ":" servRef)).
  generalize (plainRules o parts serviceName). intros servRefs.
  unfold addfoldRule, foldRule, Py.getitem, Py.int, Py.int16.
  intros H. apply andb_true_iff in H as [Hact H].
  destruct (parts !! 0%nat) as [p0|]; [|discriminate].
  cbn [rbind of_option].
  destruct (Py.parse_int 10 p0) as [n0|] eqn:E0.
  2:{ destruct (o_addfold o); [reflexivity|]. cbn [orb] in Hact.
      rewrite Hact. reflexivity. }
  apply andb_true_iff in H as [Hc H]. cbn [rbind of_option]. rewrite Hc.
  destruct (parts !! 2%nat) as [p2|]; [|discriminate].
  cbn [rbind of_option].
  destruct (Py.parse_int 16 p2) as [stype|] eqn:E2.
  2:{ destruct (o_addfold o); [reflexivity|].
      cbn [orb] in Hact. rewrite Hact. reflexivity. }
  apply andb_true_iff in H as [H H5].
  apply andb_true_iff in H as [Ha Hs]. rewrite Ha. cbn [rbind of_option].
  rewrite Hs.
  destruct (parts !! 5%nat) as [p5|]; [|discriminate].
  cbn [rbind of_option].
  destruct (Py.parse_int 16 p5) as [n5|] eqn:E5.
  2:{ destruct (negb (in_Z stype [1; 2; 10])); reflexivity. }
  apply andb_true_iff in H5 as [H5 H3]. cbn [rbind of_option]. rewrite H5.
  destruct (parts !! 3%nat) as [p3|]; [|discriminate].
  cbn [rbind of_option].
  destruct (Py.parse_int 16 p3) as [n3|] eqn:E3; [discriminate|].
  destruct (negb (in_Z stype [1; 2; 10])); reflexivity.
Qed.

(** ** Reconciliation of one target *)

Lemma set_origPiconLinks_same s : set_origPiconLinks (origPiconLinks s) s = s.
Proof. destruct s; reflexivity. Qed.

Lemma unbaseline_absent T s : origPiconLinks s !! T = None -> unbaseline T s = s.
Proof.
  intros H. unfold unbaseline. rewrite delete_id by done.
  apply set_origPiconLinks_same.
Qed.

Lemma linkTarget_reconciled servRef picon T s :
  piconLinks s !! T = None ->
  ~ overridden s T ->
  reconciled servRef picon T s
    (linkTarget servRef picon T (path_lexists (fs s) T) s).
Proof.
  intros Hq Hno. unfold linkTarget. fold (placeholder picon).
  destruct (piconFiles s !! picon) as [[piconName piconRef]|] eqn:Hp.
  2:{ by apply R_no_picon. }
  assert (Hs1 : match origPiconLinks s !! T with
                | Some ref => (bool_decide (ref = piconRef),
                               set_origPiconLinks (delete T (origPiconLinks s)) s)
                | None => (false, s)
                end
                = (bool_decide (origPiconLinks s !! T = Some piconRef),
                   unbaseline T s)).
  { destruct (origPiconLinks s !! T) as [ref|] eqn:Ho.
    - f_equal. apply bool_decide_ext. split; congruence.
    - rewrite unbaseline_absent by done. by rewrite bool_decide_eq_false_2. }
  rewrite Hs1. clear Hs1.
  case_bool_decide as Ho.
  { by eapply R_confirmed. }
  unfold path_lexists.
  assert (Hfs : fs (unbaseline T s) = fs s) by reflexivity.
  destruct (out (fs s) !! T) as [n|] eqn:Hn.
  - destruct (os_remove (fs (unbaseline T s)) T) as [w1|] eqn:Hrm; cbn [fmap option_fmap option_map].
    + set (s2 := did (Removed T) w1 (unbaseline T s)).
      assert (Hc : cleared T (unbaseline T s) s2) by (by constructor).
      destruct (o_useHardLinks (opts s)) eqn:Hh.
      * destruct (os_link _ piconName T) as [w2|] eqn:Hl; cbn [fmap option_fmap option_map].
        -- eapply (R_made _ _ _ _ piconName piconRef s2 w2) in Hc; eauto.
           ++ rewrite Hh in Hc. exact Hc.
           ++ rewrite Hh. exact Hl.
        -- eapply (R_link_failed _ _ _ _ piconName piconRef s2) in Hc; eauto.
           ++ rewrite Hh in Hc. exact Hc.
           ++ rewrite Hh. exact Hl.
      * destruct (os_symlink _ _ T) as [w2|] eqn:Hl; cbn [fmap option_fmap option_map].
        -- eapply (R_made _ _ _ _ piconName piconRef s2 w2) in Hc; eauto.
           ++ rewrite Hh in Hc. exact Hc.
           ++ rewrite Hh. exact Hl.
        -- eapply (R_link_failed _ _ _ _ piconName piconRef s2) in Hc; eauto.
           ++ rewrite Hh in Hc. exact Hc.
           ++ rewrite Hh. exact Hl.
    + rewrite Hfs in Hrm.
      eapply (R_remove_failed _ _ _ _ piconName piconRef); eauto.
  - set (s2 := unbaseline T s).
    assert (Hc : cleared T (unbaseline T s) s2) by (by constructor).
    destruct (o_useHardLinks (opts s)) eqn:Hh.
    * destruct (os_link _ piconName T) as [w2|] eqn:Hl; cbn [fmap option_fmap option_map].
      -- eapply (R_made _ _ _ _ piconName piconRef s2 w2) in Hc; eauto.
         ++ rewrite Hh in Hc. exact Hc.
         ++ rewrite Hh. exact Hl.
      -- eapply (R_link_failed _ _ _ _ piconName piconRef s2) in Hc; eauto.
         ++ rewrite Hh in Hc. exact Hc.
         ++ rewrite Hh. exact Hl.
    * destruct (os_symlink _ _ T) as [w2|] eqn:Hl; cbn [fmap option_fmap option_map].
      -- eapply (R_made _ _ _ _ piconName piconRef s2 w2) in Hc; eauto.
         ++ rewrite Hh in Hc. exact Hc.
         ++ rewrite Hh. exact Hl.
      -- eapply (R_link_failed _ _ _ _ piconName piconRef s2) in Hc; eauto.
         ++ rewrite Hh in Hc. exact Hc.
         ++ rewrite Hh. exact Hl.
Qed.

Lemma reconcile_reconciled servRef picon T s :
  reconciled servRef picon T s (reconcile servRef picon T s).
Proof.
  unfold reconcile.
  case_bool_decide as Hdup; [by constructor|].
  destruct (piconLinks s !! T) as [q|] eqn:Hq.
  { apply R_conflict; congruence. }
  destruct (path_exists (fs s) T) eqn:Hex.
  - unfold isOverride.
    destruct (decide (T ∈ overrides s)) as [Hin|Hin].
    + rewrite (bool_decide_eq_false_2 (T ∉ overrides s)) by tauto.
      cbn [andb]. rewrite !bool_decide_eq_true_2 by done.
      by apply R_override_known.
    + rewrite (bool_decide_eq_true_2 (T ∉ overrides s)) by done.
      destruct (decide (refType (fs s) T = IS_FILE)) as [Hfile|Hfile].
      * rewrite (bool_decide_eq_true_2 _ Hfile). cbn [andb].
        rewrite bool_decide_eq_true_2 by (simpl; set_solver).
        rewrite bool_decide_eq_false_2 by done. cbn [andb].
        by apply R_override_new.
      * rewrite (bool_decide_eq_false_2 _ Hfile). cbn [andb].
        rewrite bool_decide_eq_false_2 by done. cbn [andb orb negb].
        assert (Hl : path_lexists (fs s) T = true).
        { unfold path_exists, stat, object in Hex. unfold path_lexists.
          destruct (out (fs s) !! T); [done|discriminate]. }
        rewrite <- Hl. apply linkTarget_reconciled; [done|].
        unfold overridden. tauto.
  - cbn [andb orb negb].
    apply linkTarget_reconciled; [done|].
    unfold overridden. rewrite Hex. intros [? _]. discriminate.
Qed.

(** ** The file system primitives *)

Lemma static_refl w : static w w.
Proof. by repeat split. Qed.

Lemma static_trans w1 w2 w3 : static w1 w2 -> static w2 w3 -> static w1 w3.
Proof. unfold static. intros (?&?&?) (?&?&?). repeat split; congruence. Qed.

Lemma static_set_out m w : static w (set_out m w).
Proof. by repeat split. Qed.

Lemma static_follow w w' t : static w w' -> follow w' t = follow w t.
Proof.
  intros (Hc&He&_). unfold follow, chan_lookup. by rewrite Hc, He.
Qed.

Lemma static_chan_lookup w w' n : static w w' -> chan_lookup w' n = chan_lookup w n.
Proof. intros (Hc&_). unfold chan_lookup. by rewrite Hc. Qed.

Lemma os_remove_Some w T w' :
  os_remove w T = Some w' ->
  w' = set_out (delete T (out w)) w /\
  exists n, out w !! T = Some n /\ forall i, n ≠ Dir i.
Proof.
  unfold os_remove. destruct (out w !! T) as [[i|t|i]|]; intros [= <-];
    (split; [done|]); eexists; (split; [done|]); done.
Qed.

Lemma os_remove_None w T :
  os_remove w T = None ->
  out w !! T = None \/ exists i, out w !! T = Some (Dir i).
Proof.
  unfold os_remove. destruct (out w !! T) as [[i|t|i]|]; try discriminate; eauto.
Qed.

Lemma os_remove_is_Some w T n :
  out w !! T = Some n -> (forall i, n ≠ Dir i) -> is_Some (os_remove w T).
Proof.
  unfold os_remove. intros -> Hn. destruct n; eauto. by destruct (Hn i).
Qed.

Lemma os_makeLink_Some h w piconName T w' :
  os_makeLink h w piconName T = Some w' ->
  out w !! T = None /\
  exists n, linkNode h w piconName = Some n /\ w' = set_out (<[T := n]> (out w)) w.
Proof.
  unfold os_makeLink, os_link, os_symlink, linkNode. destruct h.
  - destruct (chan_lookup w piconName) as [[i|t|i]|]; try discriminate.
    destruct (out w !! T); [discriminate|]. intros [= <-]. eauto.
  - destruct (out w !! T); [discriminate|]. intros [= <-]. eauto.
Qed.

Lemma os_makeLink_None h w piconName T :
  os_makeLink h w piconName T = None ->
  is_Some (out w !! T) \/ linkNode h w piconName = None.
Proof.
  unfold os_makeLink, os_link, os_symlink, linkNode. destruct h.
  - destruct (chan_lookup w piconName) as [[i|t|i]|]; eauto.
    destruct (out w !! T); [eauto|discriminate].
  - destruct (out w !! T); [eauto|discriminate].
Qed.

Lemma cleared_inv T s s2 :
  cleared T s s2 ->
  same_but_fs s s2 /\ out (fs s2) = delete T (out (fs s)) /\
  (trace s2 = trace s /\ out (fs s) !! T = None \/
   trace s2 = trace s ++ [Removed T] /\ is_Some (out (fs s) !! T)).
Proof.
  intros [Hn|w Hw].
  - split; [repeat split; done|]. split; [by rewrite delete_id|]. by left.
  - apply os_remove_Some in Hw as (-> & n & Hn & _).
    split; [repeat split; done|]. split; [done|]. right. split; [done|eauto].
Qed.

(** *** Classification in terms of nodes *)

Lemma refType_Sym w T t : out w !! T = Some (Sym t) -> refType w T = IS_SLINK.
Proof. intros H. unfold refType, path_islink. by rewrite H. Qed.

Lemma refType_Reg w T i :
  out w !! T = Some (Reg i) ->
  refType w T = if (1 <? nlink w i)%nat then IS_HLINK else IS_FILE.
Proof.
  intros H. unfold refType, path_islink, path_isfile, stat, object.
  by rewrite H.
Qed.

Lemma refType_Dir w T i : out w !! T = Some (Dir i) -> refType w T = IS_OTHER.
Proof.
  intros H. unfold refType, path_islink, path_isfile, stat, object.
  by rewrite H.
Qed.

Lemma refType_None w T : out w !! T = None -> refType w T = IS_OTHER.
Proof.
  intros H. unfold refType, path_islink, path_isfile, stat, object.
  by rewrite H.
Qed.

Lemma refType_FILE w T :
  refType w T = IS_FILE ->
  exists i, out w !! T = Some (Reg i) /\ (nlink w i <= 1)%nat.
Proof.
  destruct (out w !! T) as [[i|t|i]|] eqn:Hn.
  - rewrite (refType_Reg _ _ _ Hn). destruct (1 <? nlink w i)%nat eqn:Hl; [done|].
    intros _. exists i. split; [done|]. apply Nat.ltb_ge in Hl. lia.
  - by rewrite (refType_Sym _ _ _ Hn).
  - by rewrite (refType_Dir _ _ _ Hn).
  - by rewrite (refType_None _ _ Hn).
Qed.

Lemma refType_HLINK w T :
  refType w T = IS_HLINK ->
  exists i, out w !! T = Some (Reg i) /\ (1 < nlink w i)%nat /\
            getLinkRef w T = Some i.
Proof.
  destruct (out w !! T) as [[i|t|i]|] eqn:Hn.
  - rewrite (refType_Reg _ _ _ Hn). destruct (1 <? nlink w i)%nat eqn:Hl; [|done].
    intros _. exists i. split; [done|]. apply Nat.ltb_lt in Hl. split; [lia|].
    unfold getLinkRef, stat, object. by rewrite Hn.
  - by rewrite (refType_Sym _ _ _ Hn).
  - by rewrite (refType_Dir _ _ _ Hn).
  - by rewrite (refType_None _ _ Hn).
Qed.

Lemma refType_SLINK w T :
  refType w T = IS_SLINK -> exists t, out w !! T = Some (Sym t).
Proof.
  destruct (out w !! T) as [[i|t|i]|] eqn:Hn.
  - rewrite (refType_Reg _ _ _ Hn). by destruct (1 <? nlink w i)%nat.
  - eauto.
  - by rewrite (refType_Dir _ _ _ Hn).
  - by rewrite (refType_None _ _ Hn).
Qed.

(** *** Link counts *)

Lemma out_refs_pos (m : gmap string node) T i :
  m !! T = Some (Reg i) -> (1 <= out_refs m i)%nat.
Proof.
  intros H. unfold out_refs.
  assert (Hf : filter (fun kv : string * node => kv.2 = Reg i) m !! T = Some (Reg i)).
  { by apply map_lookup_filter_Some. }
  destruct (size (filter (fun kv : string * node => kv.2 = Reg i) m)) eqn:E; [|lia].
  apply map_size_empty_iff in E. rewrite E in Hf. by rewrite lookup_empty in Hf.
Qed.

Lemma out_refs_delete (m : gmap string node) T i :
  (out_refs (delete T m) i <= out_refs m i)%nat.
Proof.
  unfold out_refs. apply map_subseteq_size, map_filter_subseteq_mono, delete_subseteq.
Qed.

Lemma out_refs_insert_other (m : gmap string node) T n i :
  n ≠ Reg i -> (out_refs (<[T := n]> m) i <= out_refs m i)%nat.
Proof.
  intros Hn. unfold out_refs.
  rewrite map_filter_insert_False by done.
  rewrite map_filter_delete. apply map_subseteq_size, delete_subseteq.
Qed.

Lemma chan_refs_pos w pn i :
  chan_lookup w pn = Some (Reg i) -> (1 <= chan_refs w i)%nat.
Proof.
  unfold chan_lookup, chan_refs. destruct (chan w) as [l|]; [|done].
  induction l as [|[k n] l IH]; simpl; [done|].
  destruct (String.eqb pn k).
  - intros [= ->]. rewrite filter_cons_True by done. simpl. lia.
  - intros H. specialize (IH H). rewrite filter_cons.
    destruct (decide _); simpl; lia.
Qed.

(** ** What one reconciliation leaves alone *)

Ltac inv_cleared H :=
  apply cleared_inv in H as
    ((Copts & Cfiles & Corig & Cover & Clinked & Clinks & Cmade & Cfold &
      Coutput & Cstatic) & Cout & Ctrace).

Ltac split_placeholder :=
  match goal with
  | |- context [placeholder ?p] => destruct (placeholder p)
  | _ => idtac
  end.

Ltac inv_makeLink H :=
  let n := fresh "n" in
  apply os_makeLink_Some in H as (Lfree & n & Lnode & ->).

Lemma reconciled_static servRef picon T s s' :
  reconciled servRef picon T s s' ->
  opts s' = opts s /\ piconFiles s' = piconFiles s /\
  static (fs s) (fs s') /\ servRefPartsFold s' = servRefPartsFold s.
Proof.
  intros H. destruct H as [| | | | | | pn pr s2 w ? ? ? ? Hc Hl | | pn pr s2 ? ? ? ? Hc Hl];
    split_placeholder;
    try (repeat split; reflexivity).
  - inv_cleared Hc. inv_makeLink Hl. simpl.
    split; [done|]. split; [done|]. split; [|done].
    eapply static_trans; [exact Cstatic|apply static_set_out].
  - inv_cleared Hc. simpl. repeat split; try done; apply Cstatic.
  - inv_cleared Hc. simpl. repeat split; try done; apply Cstatic.
Qed.

Lemma reconciled_other servRef picon T s s' T' :
  reconciled servRef picon T s s' ->
  T' ≠ T ->
  out (fs s') !! T' = out (fs s) !! T' /\
  origPiconLinks s' !! T' = origPiconLinks s !! T' /\
  piconLinks s' !! T' = piconLinks s !! T' /\
  (T' ∈ overrides s' <-> T' ∈ overrides s).
Proof.
  intros H Hne.
  destruct H as [| | | | | | pn pr s2 w ? ? ? ? Hc Hl | | pn pr s2 ? ? ? ? Hc Hl];
    split_placeholder; simpl;
    try (repeat split; (reflexivity || tauto)).
  - repeat split; try tauto; rewrite elem_of_union, elem_of_singleton; tauto.
  - repeat split; try tauto; by rewrite ?lookup_insert_ne, ?lookup_delete_ne.
  - inv_cleared Hc. inv_makeLink Hl. simpl.
    rewrite !lookup_insert_ne by done. rewrite Cout, Corig, Clinks, Cover. simpl.
    rewrite !lookup_delete_ne by done. tauto.
  - repeat split; try tauto; by rewrite ?lookup_delete_ne.
  - repeat split; try tauto; by rewrite ?lookup_delete_ne.
  - inv_cleared Hc. rewrite Cout, Corig, Clinks, Cover. simpl.
    rewrite !lookup_delete_ne by done. tauto.
  - inv_cleared Hc. rewrite Cout, Corig, Clinks, Cover. simpl.
    rewrite !lookup_delete_ne by done. tauto.
Qed.

(** ** The loop over the database *)

Lemma reconcile_opts servRef picon T s :
  opts (reconcile servRef picon T s) = opts s /\
  servRefPartsFold (reconcile servRef picon T s) = servRefPartsFold s.
Proof.
  destruct (reconciled_static _ _ _ _ _ (reconcile_reconciled servRef picon T s))
    as (?&?&?&?). done.
Qed.

Section Invariant.

Variable P : LinkMaker -> Prop.
Variable Q : string -> Prop.

Hypothesis P_emit : forall s line,
  P s -> P (emit (TooManyFields line) s) /\ P (emit (TooFewFields line) s).
Hypothesis P_fold : forall s pf, P s -> P (set_servRefPartsFold pf s).
Hypothesis P_reconcile : forall s servRef picon T,
  Q T -> P s -> P (reconcile servRef picon T s).

Lemma reconcileAll_invariant servRef picon servRefs s :
  (forall srp, srp ∈ servRefs -> Q (targetName srp)) ->
  P s ->
  P (reconcileAll servRef picon servRefs s) /\
  opts (reconcileAll servRef picon servRefs s) = opts s /\
  servRefPartsFold (reconcileAll servRef picon servRefs s) = servRefPartsFold s.
Proof.
  revert s. induction servRefs as [|srp rest IH]; intros s HQ HP; simpl; [done|].
  destruct (reconcile_opts servRef picon (targetName srp) s) as [Ho Hf].
  destruct (IH (reconcile servRef picon (targetName srp) s)) as (?&?&?).
  - intros x Hx. apply HQ. by right.
  - apply P_reconcile; [|done]. apply HQ. by left.
  - repeat split; [done|congruence..].
Qed.

Lemma doLine_invariant line s s' :
  (forall T ts pf, lineTargets (opts s) (servRefPartsFold s) line = Ok (ts, pf) ->
                   T ∈ ts -> Q T) ->
  P s ->
  doLine line s = Ok s' ->
  P s' /\ opts s' = opts s /\
  exists ts, lineTargets (opts s) (servRefPartsFold s) line
             = Ok (ts, servRefPartsFold s').
Proof.
  unfold doLine, lineTargets. intros HQ HP.
  destruct (String.eqb (cleanLine line) "").
  { intros [= <-]. eauto. }
  destruct (3 <? length _)%nat.
  { intros [= <-]. split; [by apply P_emit|]. eauto. }
  destruct (Py.split_ws [] (Py.chars (cleanLine line)))
    as [|servRef [|serviceName [|picon [|]]]];
    try (intros [= <-]; split; [by apply P_emit|]; eauto).
  destruct (expand _ _ servRef serviceName) as [[servRefs pf]|e] eqn:He;
    [|discriminate].
  simpl in *. intros [= <-].
  destruct (reconcileAll_invariant servRef picon servRefs
              (set_servRefPartsFold pf s)) as (?&?&?).
  - intros srp Hsrp. eapply (HQ _ _ _ eq_refl). by apply list_elem_of_fmap_2.
  - by apply P_fold.
  - split; [done|]. split; [done|]. eexists. by rewrite H1.
Qed.

Lemma doLines_invariant lines s :
  (forall T, T ∈ derived (opts s) (servRefPartsFold s) lines -> Q T) ->
  P s ->
  P (doLines lines s).2 /\ opts (doLines lines s).2 = opts s.
Proof.
  revert s. induction lines as [|line rest IH]; intros s HQ HP; simpl; [done|].
  destruct (doLine line s) as [s'|e] eqn:Hl; [|done].
  simpl in HQ.
  destruct (doLine_invariant line s s') as (HP' & Ho & ts & Hts); [|done|done|].
  - intros T ts pf Hts HT. apply HQ. rewrite Hts. apply elem_of_app. by left.
  - rewrite Hts in HQ. destruct (IH s') as [? ?]; [|done|].
    + intros T HT. apply HQ. apply elem_of_app. right. by rewrite <- Ho.
    + split; [done|congruence].
Qed.

End Invariant.

(** ** Removing a list of names *)

Lemma removeEach_same names s :
  opts (removeEach names s) = opts s /\
  piconFiles (removeEach names s) = piconFiles s /\
  origPiconLinks (removeEach names s) = origPiconLinks s /\
  overrides (removeEach names s) = overrides s /\
  piconLinks (removeEach names s) = piconLinks s /\
  linksMade (removeEach names s) = linksMade s /\
  servRefPartsFold (removeEach names s) = servRefPartsFold s /\
  static (fs s) (fs (removeEach names s)).
Proof.
  revert s. induction names as [|name rest IH]; intros s; simpl.
  { repeat split; done. }
  destruct (os_remove (fs s) name) as [w|] eqn:Hw.
  - apply os_remove_Some in Hw as [-> _].
    destruct (IH (did (Removed name) (set_out (delete name (out (fs s))) (fs s)) s))
      as (?&?&?&?&?&?&?&Hs).
    repeat split; try done; apply Hs.
  - destruct (IH (emit (CantRemove name) s)) as (?&?&?&?&?&?&?&Hs).
    repeat split; try done; apply Hs.
Qed.

(** A name on the list is gone afterwards unless it is a directory; a
    name not on the list is as before. *)
Lemma removeEach_out names s T :
  out (fs (removeEach names s)) !! T =
  if decide (T ∈ names)
  then match out (fs s) !! T with
       | Some (Dir i) => Some (Dir i)
       | _ => None
       end
  else out (fs s) !! T.
Proof.
  revert s. induction names as [|name rest IH]; intros s; cbn [removeEach].
  { rewrite decide_False; [done|]. apply not_elem_of_nil. }
  destruct (os_remove (fs s) name) as [w|] eqn:Hw.
  - apply os_remove_Some in Hw as (-> & n & Hn & Hnd).
    rewrite IH. cbn [did emit set_fs set_trace set_output fs set_out out].
    destruct (decide (T = name)) as [->|Hne].
    + rewrite lookup_delete_eq, Hn.
      rewrite (decide_True (P := name ∈ name :: rest)) by by left.
      destruct (decide (name ∈ rest)); destruct n as [i|t|i]; try done;
        by destruct (Hnd i).
    + rewrite lookup_delete_ne by done.
      destruct (decide (T ∈ rest)) as [Hin|Hin].
      * rewrite decide_True; [done|]. by right.
      * rewrite decide_False; [done|]. intros [?|?]%elem_of_cons; done.
  - rewrite IH. cbn [did emit set_fs set_trace set_output fs set_out out].
    destruct (decide (T = name)) as [->|Hne].
    + rewrite (decide_True (P := name ∈ name :: rest)) by by left.
      apply os_remove_None in Hw as [Hn|[i Hn]]; rewrite Hn;
        by destruct (decide (name ∈ rest)).
    + destruct (decide (T ∈ rest)) as [Hin|Hin].
      * rewrite decide_True; [done|]. by right.
      * rewrite decide_False; [done|]. intros [?|?]%elem_of_cons; done.
Qed.

Lemma removeEach_nil s : removeEach [] s = s.
Proof. reflexivity. Qed.

Lemma listdir_spec w T : T ∈ listdir w <-> is_Some (out w !! T).
Proof.
  unfold listdir. rewrite list_elem_of_fmap. split.
  - intros [[k n] [-> Hin]]. apply elem_of_map_to_list in Hin. simpl. eauto.
  - intros [n Hn]. exists (T, n). split; [done|]. by apply elem_of_map_to_list.
Qed.

Lemma keys_spec {A} (m : gmap string A) T :
  T ∈ (map_to_list m).*1 <-> is_Some (m !! T).
Proof.
  rewrite list_elem_of_fmap. split.
  - intros [[k n] [-> Hin]]. apply elem_of_map_to_list in Hin. simpl. eauto.
  - intros [n Hn]. exists (T, n). split; [done|]. by apply elem_of_map_to_list.
Qed.

(** ** The scan of the existing links *)

Lemma scanLinks_spec w h names orig0 wrong0 orig wrong :
  scanLinks w h names orig0 wrong0 = Some (orig, wrong) ->
  (forall T, orig !! T =
     if decide (T ∈ names /\ is_png T = true /\ refType w T = wanted h)
     then getLinkRef w T else orig0 !! T) /\
  (forall T, T ∈ wrong <->
     T ∈ wrong0 \/
     (T ∈ names /\ is_png T = true /\ is_link (refType w T) = true /\
      refType w T ≠ wanted h)) /\
  (forall T, T ∈ names -> is_png T = true -> is_link (refType w T) = true ->
     is_Some (getLinkRef w T)).
Proof.
  revert orig0 wrong0. induction names as [|name rest IH]; intros orig0 wrong0;
    cbn [scanLinks].
  { intros [= <- <-]. split; [|split].
    - intros T. rewrite decide_False; [done|]. intros [H _]. by apply not_elem_of_nil in H.
    - intros T. split; [by left|]. intros [?|[H _]]; [done|]. by apply not_elem_of_nil in H.
    - intros T H. by apply not_elem_of_nil in H. }
  assert (Hskip : forall orig' wrong',
    (is_png name = false \/ is_link (refType w name) = false) ->
    scanLinks w h rest orig' wrong' = Some (orig, wrong) ->
    orig' = orig0 -> wrong' = wrong0 ->
    (forall T, orig !! T =
       if decide (T ∈ name :: rest /\ is_png T = true /\ refType w T = wanted h)
       then getLinkRef w T else orig0 !! T) /\
    (forall T, T ∈ wrong <->
       T ∈ wrong0 \/
       (T ∈ name :: rest /\ is_png T = true /\ is_link (refType w T) = true /\
        refType w T ≠ wanted h)) /\
    (forall T, T ∈ name :: rest -> is_png T = true ->
       is_link (refType w T) = true -> is_Some (getLinkRef w T))).
  { intros orig' wrong' Hno Hs -> ->. destruct (IH _ _ Hs) as (Ho & Hw & Hr).
    assert (Hnw : forall T, T = name -> is_png T = true -> refType w T = wanted h -> False).
    { intros T -> Hp Hk. destruct Hno as [Hno|Hno]; [congruence|].
      rewrite Hk in Hno. by destruct h. }
    split; [|split].
    - intros T. rewrite Ho.
      destruct (decide (T ∈ rest /\ _)) as [(?&?&?)|Hn].
      + rewrite decide_True; [done|]. split; [by right|done].
      + rewrite decide_False; [done|]. intros ([->|?]%elem_of_cons & ? & ?).
        * by eapply Hnw.
        * apply Hn. done.
    - intros T. rewrite Hw. split.
      + intros [?|(?&?&?&?)]; [by left|]. right. split; [by right|done].
      + intros [?|([->|?]%elem_of_cons&?&?&?)]; [by left| |by right].
        destruct Hno; congruence.
    - intros T [->|?]%elem_of_cons Hp Hl; [|by apply Hr].
      destruct Hno; congruence. }
  destruct (is_png name) eqn:Hpng; [|intros; eapply Hskip; eauto].
  destruct (is_link (refType w name)) eqn:Hlink; [|intros; eapply Hskip; eauto].
  destruct (getLinkRef w name) as [linkRef|] eqn:Href; [|discriminate].
  assert (Heqb : Bool.eqb h (bool_decide (refType w name = IS_HLINK))
                 = bool_decide (refType w name = wanted h)).
  { destruct h, (refType w name); try done. }
  rewrite Heqb. clear Heqb.
  destruct (decide (refType w name = wanted h)) as [Hk|Hk];
    [rewrite bool_decide_eq_true_2 by done|rewrite bool_decide_eq_false_2 by done].
  - intros Hs. destruct (IH _ _ Hs) as (Ho & Hw & Hr). split; [|split].
    + intros T. rewrite Ho.
      destruct (decide (T ∈ rest /\ _)) as [(?&?&?)|Hn].
      * rewrite decide_True; [done|]. split; [by right|done].
      * destruct (decide (T = name)) as [->|Hne].
        -- rewrite lookup_insert_eq. rewrite decide_True; [done|].
           split; [by left|done].
        -- rewrite lookup_insert_ne by done. rewrite decide_False; [done|].
           intros ([->|?]%elem_of_cons & ? & ?); [done|]. by apply Hn.
    + intros T. rewrite Hw. split.
      * intros [?|(?&?&?&?)]; [by left|]. right. split; [by right|done].
      * intros [?|([->|?]%elem_of_cons&?&?&?)]; [by left|done|by right].
    + intros T [->|?]%elem_of_cons Hp Hl; [by rewrite Href|by apply Hr].
  - intros Hs. destruct (IH _ _ Hs) as (Ho & Hw & Hr). split; [|split].
    + intros T. rewrite Ho.
      destruct (decide (T ∈ rest /\ _)) as [(?&?&?)|Hn].
      * rewrite decide_True; [done|]. split; [by right|done].
      * rewrite decide_False; [done|].
        intros ([->|?]%elem_of_cons & ? & ?); [done|]. by apply Hn.
    + intros T. rewrite Hw. rewrite elem_of_app, list_elem_of_singleton. split.
      * intros [[?| ->]|(?&?&?&?)]; [by left| |].
        -- right. split; [by left|done].
        -- right. split; [by right|done].
      * intros [?|([->|?]%elem_of_cons&?&?&?)]; [by left;left|by left;right|by right].
    + intros T [->|?]%elem_of_cons Hp Hl; [by rewrite Href|by apply Hr].
Qed.

(** ** Link counts along a run *)

Lemma nlink_static_le w w' i :
  static w w' ->
  (out_refs (out w') i <= out_refs (out w) i)%nat ->
  (nlink w' i <= nlink w i)%nat.
Proof.
  intros (Hc & _ & He) Hle. unfold nlink, chan_refs. rewrite Hc, He. lia.
Qed.

Lemma nlink_icon w pn T i :
  chan_lookup w pn = Some (Reg i) ->
  out w !! T = Some (Reg i) ->
  (1 < nlink w i)%nat.
Proof.
  intros Hc Ho. apply chan_refs_pos in Hc. apply out_refs_pos in Ho.
  unfold nlink. lia.
Qed.

Lemma op_name_linkOp h pn T : op_name (linkOp h pn T) = T.
Proof. by destruct h. Qed.

(** One reconciliation changes at most its own name. *)
Lemma reconciled_trace servRef picon T s s' :
  reconciled servRef picon T s s' ->
  exists ops, trace s' = trace s ++ ops /\ Forall (fun op => op_name op = T) ops.
Proof.
  intros H.
  destruct H as [| | | | | | pn pr s2 w ? ? ? ? Hc Hl | | pn pr s2 ? ? ? ? Hc Hl];
    split_placeholder; simpl;
    try (exists []; by rewrite app_nil_r).
  - inv_cleared Hc. destruct Ctrace as [[-> _]|[-> _]]; simpl.
    + eexists. split; [done|]. repeat constructor. apply op_name_linkOp.
    + rewrite <- app_assoc. eexists. split; [done|].
      repeat constructor. apply op_name_linkOp.
  - inv_cleared Hc. destruct Ctrace as [[-> _]|[-> _]]; simpl.
    + exists []. by rewrite app_nil_r.
    + eexists. split; [done|]. by repeat constructor.
  - inv_cleared Hc. destruct Ctrace as [[-> _]|[-> _]]; simpl.
    + exists []. by rewrite app_nil_r.
    + eexists. split; [done|]. by repeat constructor.
Qed.

(** The cases of [reconciled] in which nothing is changed on disk. *)
Lemma reconciled_overrides servRef picon T s s' :
  reconciled servRef picon T s s' ->
  overrides s' = overrides s \/
  ((T ∉ overrides s) /\ overrides s' = {[T]} ∪ overrides s /\
   output s' = output s ++ [OverRidden picon T]).
Proof.
  intros H.
  destruct H as [| | | | | | pn pr s2 w ? ? ? ? Hc Hl | | pn pr s2 ? ? ? ? Hc Hl];
    split_placeholder; simpl; try (by left); try (by right).
  all: inv_cleared Hc; left; by rewrite Cover.
Qed.

Lemma reconciled_output servRef picon T s s' :
  reconciled servRef picon T s s' ->
  exists msgs, output s' = output s ++ msgs /\
    Forall (fun m => match m with
                     | CantRemove _ => False
                     | OverRidden _ T' => T' = T /\ (T ∉ overrides s) /\ T ∈ overrides s'
                     | _ => True
                     end) msgs /\
    (overrides s' = overrides s -> Forall (fun m => forall p T', m ≠ OverRidden p T') msgs) /\
    (overrides s' ≠ overrides s -> msgs = [OverRidden picon T]).
Proof.
  intros H.
  destruct H as [| | | | | | pn pr s2 w ? ? ? ? Hc Hl | | pn pr s2 ? ? ? ? Hc Hl];
    split_placeholder; simpl;
    try (exists []; rewrite app_nil_r; repeat split; (done || by constructor)).
  - eexists. split; [done|]. repeat split; try done; by repeat constructor.
  - eexists. split; [done|]. split; [|split]; [| |done].
    + repeat constructor; [done|]. rewrite elem_of_union, elem_of_singleton. tauto.
    + intros Heq. exfalso. apply H1. rewrite <- Heq.
      rewrite elem_of_union, elem_of_singleton. tauto.
  - eexists. split; [done|]. repeat split; try done; by repeat constructor.
  - inv_cleared Hc. rewrite Coutput, Cover. simpl.
    exists []. rewrite app_nil_r. repeat split; (done || by constructor).
  - eexists. split; [done|]. repeat split; try done; by repeat constructor.
  - rewrite <- app_assoc. eexists. split; [done|].
    repeat split; try done; by repeat constructor.
  - inv_cleared Hc. rewrite Coutput, Cover. simpl.
    eexists. split; [done|]. repeat split; try done; by repeat constructor.
  - inv_cleared Hc. rewrite Coutput, Cover. simpl. rewrite <- app_assoc.
    eexists. split; [done|]. repeat split; try done; by repeat constructor.
Qed.

(** The link count of a file grows only by a hard link to a file of the
    image directory. *)
Lemma reconciled_nlink servRef picon T s s' i :
  reconciled servRef picon T s s' ->
  (nlink (fs s') i <= nlink (fs s) i)%nat \/
  exists pn, chan_lookup (fs s) pn = Some (Reg i).
Proof.
  intros H.
  destruct H as [| | | | | | pn pr s2 w ? ? ? ? Hc Hl | | pn pr s2 ? ? ? ? Hc Hl];
    split_placeholder; simpl; try (by left).
  - inv_cleared Hc. inv_makeLink Hl. simpl in *.
    destruct (decide (n = Reg i)) as [->|Hn].
    + right. unfold linkNode in Lnode. destruct (o_useHardLinks (opts s)); [|done].
      rewrite (static_chan_lookup _ _ _ Cstatic) in Lnode.
      exists pn. destruct (chan_lookup (fs s) pn) as [[j|t|j]|]; congruence.
    + left. apply nlink_static_le.
      * eapply static_trans; [exact Cstatic|apply static_set_out].
      * simpl. etrans; [by apply out_refs_insert_other|].
        rewrite Cout. apply out_refs_delete.
  - inv_cleared Hc. left. apply nlink_static_le; [done|].
    rewrite Cout. apply out_refs_delete.
  - inv_cleared Hc. left. apply nlink_static_le; [done|].
    rewrite Cout. apply out_refs_delete.
Qed.

Lemma removeEach_effects names s :
  (exists ops, trace (removeEach names s) = trace s ++ ops /\
     Forall (fun op => exists n, n ∈ names /\ op = Removed n) ops) /\
  (exists msgs, output (removeEach names s) = output s ++ msgs /\
     Forall (fun m => exists n, n ∈ names /\ m = CantRemove n) msgs) /\
  (forall i, (nlink (fs (removeEach names s)) i <= nlink (fs s) i)%nat).
Proof.
  revert s. induction names as [|name rest IH]; intros s; cbn [removeEach].
  { split; [|split]; [exists []|exists []|]; rewrite ?app_nil_r; done. }
  destruct (os_remove (fs s) name) as [w|] eqn:Hw.
  - apply os_remove_Some in Hw as (-> & _).
    destruct (IH (did (Removed name) (set_out (delete name (out (fs s))) (fs s)) s))
      as ((ops & -> & Hops) & (msgs & -> & Hmsgs) & Hn).
    split; [|split].
    + simpl. rewrite <- app_assoc. eexists. split; [done|].
      constructor; [exists name; split; [by left|done]|].
      eapply Forall_impl; [exact Hops|]. intros op (n & ? & ->). exists n.
      split; [by right|done].
    + simpl. eexists. split; [done|].
      eapply Forall_impl; [exact Hmsgs|]. intros op (n & ? & ->). exists n.
      split; [by right|done].
    + intros i. etrans; [apply Hn|]. simpl.
      apply nlink_static_le; [apply static_set_out|]. simpl. apply out_refs_delete.
  - destruct (IH (emit (CantRemove name) s))
      as ((ops & -> & Hops) & (msgs & -> & Hmsgs) & Hn).
    split; [|split].
    + simpl. eexists. split; [done|].
      eapply Forall_impl; [exact Hops|]. intros op (n & ? & ->). exists n.
      split; [by right|done].
    + simpl. rewrite <- app_assoc. eexists. split; [done|].
      constructor; [exists name; split; [by left|done]|].
      eapply Forall_impl; [exact Hmsgs|]. intros op (n & ? & ->). exists n.
      split; [by right|done].
    + intros i. apply Hn.
Qed.

(** ** Plain files are left alone *)

Lemma plain_file_overridden T i s :
  plain_file T i s -> overridden s T.
Proof.
  intros (Hn & Hl & _). split.
  - unfold path_exists, stat, object. by rewrite Hn.
  - right. rewrite (refType_Reg _ _ _ Hn).
    destruct (1 <? nlink (fs s) i)%nat eqn:E; [|done].
    apply Nat.ltb_lt in E. lia.
Qed.

Lemma plain_file_reconciled T i servRef picon T' s s' :
  reconciled servRef picon T' s s' ->
  plain_file T i s ->
  plain_file T i s' /\ (T' = T -> trace s' = trace s).
Proof.
  intros H Hp.
  assert (Hnl : (nlink (fs s') i <= 1)%nat).
  { destruct (reconciled_nlink _ _ _ _ _ i H) as [Hle|[pn Hpn]].
    - destruct Hp as (_ & ? & _). lia.
    - destruct Hp as (Hn & Hl & _).
      pose proof (nlink_icon _ _ _ _ Hpn Hn). lia. }
  destruct (decide (T' = T)) as [->|Hne].
  - pose proof (plain_file_overridden _ _ _ Hp) as Hov.
    destruct Hp as (Hn & Hl & Ho & Hq).
    destruct H; try congruence; try done; split; done.
  - destruct (reconciled_other _ _ _ _ _ T H) as (E1 & E2 & E3 & _); [done|].
    destruct Hp as (Hn & Hl & Ho & Hq).
    split; [|done]. repeat split; congruence.
Qed.

Lemma untouched_reconciled T i servRef picon T' s s' :
  reconciled servRef picon T' s s' ->
  plain_file T i s ->
  untouched T s ->
  untouched T s'.
Proof.
  intros H Hp [Ht Hm].
  destruct (reconciled_output _ _ _ _ _ H) as (msgs & Hout & Hmsgs & _).
  split.
  - destruct (decide (T' = T)) as [->|Hne].
    + destruct (plain_file_reconciled _ _ _ _ _ _ _ H Hp) as [_ Heq].
      by rewrite Heq.
    + destruct (reconciled_trace _ _ _ _ _ H) as (ops & -> & Hops).
      apply Forall_app. split; [done|].
      eapply Forall_impl; [exact Hops|]. simpl. congruence.
  - rewrite Hout. rewrite elem_of_app. intros [?|Hin]; [done|].
    rewrite Forall_forall in Hmsgs. by apply Hmsgs in Hin.
Qed.

Lemma filter_override_none T (msgs : list msg) :
  Forall (fun m => forall p T', m ≠ OverRidden p T') msgs ->
  filter (fun m => msg_is_override T m = true) msgs = [].
Proof.
  induction 1 as [|m msgs Hm _ IH]; [done|].
  rewrite filter_cons_False; [done|].
  destruct m; simpl; try done. by destruct (Hm picon servRefName).
Qed.

Lemma logged_once_reconciled T servRef picon T' s s' :
  reconciled servRef picon T' s s' ->
  logged_once T s ->
  logged_once T s'.
Proof.
  intros H. unfold logged_once.
  destruct (reconciled_output _ _ _ _ _ H) as (msgs & -> & _ & Hsame & Hnew).
  rewrite filter_app, length_app.
  destruct (reconciled_overrides _ _ _ _ _ H) as [Heq|(Hnot & Heq & _)].
  - rewrite Heq. rewrite (filter_override_none _ _ (Hsame Heq)). simpl. lia.
  - assert (Hd : overrides s' ≠ overrides s).
    { intros E. apply Hnot. rewrite <- E, Heq.
      rewrite elem_of_union, elem_of_singleton. tauto. }
    rewrite (Hnew Hd), Heq.
    destruct (decide (T = T')) as [->|Hne].
    + rewrite filter_cons_True by (simpl; by rewrite String.eqb_refl).
      rewrite (decide_False (P := T' ∈ overrides s)) by done.
      rewrite decide_True by (rewrite elem_of_union, elem_of_singleton; tauto).
      simpl. lia.
    + rewrite filter_cons_False.
      2:{ simpl. rewrite (proj2 (String.eqb_neq T T')); done. }
      simpl. intros ->.
      destruct (decide (T ∈ overrides s)).
      * rewrite decide_True; [lia|]. rewrite elem_of_union. tauto.
      * rewrite decide_False; [lia|].
        rewrite elem_of_union, elem_of_singleton. tauto.
Qed.

(** *** The constructor *)

Lemma addPiconFile_spec w piconName files log files' log' :
  addPiconFile w piconName (files, log) = Some (files', log') ->
  (inventory_sound w files -> inventory_sound w files') /\
  (Forall is_Renamed log -> Forall is_Renamed log').
Proof.
  unfold addPiconFile.
  destruct (Py.splitext piconName) as [basename ext].
  destruct (negb (String.eqb ext ".png")); [by intros [= <- <-]|].
  unfold picon_isfile, picon_getLinkRef.
  destruct (chan_lookup w piconName) as [[i|t|i]|] eqn:Hc;
    try (by intros [= <- <-]).
  set (recognised := (0 <? Py.rfind "_" basename)
                     && bool_decide (Py.from (Py.rfind "_" basename) basename ∈ PICON_SRCS)).
  assert (Hins : forall key, inventory_sound w files ->
                   inventory_sound w (<[key := (piconName, i)]> files)).
  { intros key Hs k pn r. destruct (decide (k = key)) as [->|Hne].
    - rewrite lookup_insert_eq. by intros [= <- <-].
    - rewrite lookup_insert_ne by done. apply Hs. }
  destruct recognised.
  - destruct (String.eqb _ ""); intros [= <- <-].
    + split; [done|]. intros Hl. destruct (files !! _); [|done].
      apply Forall_app. split; [done|]. by repeat constructor.
    + split; [apply Hins|]. intros Hl. destruct (files !! _); [|done].
      apply Forall_app. split; [done|]. by repeat constructor.
  - destruct (bool_decide (files !! basename = None)).
    + destruct (String.eqb _ ""); intros [= <- <-]; [done|].
      split; [apply Hins|done].
    + by intros [= <- <-].
Qed.

Lemma addPiconFiles_spec w names files log files' log' :
  addPiconFiles w names (files, log) = Some (files', log') ->
  inventory_sound w files -> Forall is_Renamed log ->
  inventory_sound w files' /\ Forall is_Renamed log'.
Proof.
  revert files log. induction names as [|name rest IH]; intros files log;
    cbn [addPiconFiles].
  { by intros [= <- <-]. }
  destruct (addPiconFile w name (files, log)) as [[f1 l1]|] eqn:H1; [|done].
  intros H Hs Hl. apply addPiconFile_spec in H1 as [H1 H2].
  eapply IH; eauto.
Qed.

Lemma _makePiconFileList_spec w files log :
  _makePiconFileList w = Some (files, log) ->
  inventory_sound w files /\ Forall is_Renamed log.
Proof.
  unfold _makePiconFileList. destruct (chan w); [|done].
  intros H. eapply addPiconFiles_spec; eauto. intros k pn r.
  by rewrite lookup_empty.
Qed.

Lemma init_inv o w st s :
  init o w = (st, s) ->
  (st = true /\ fs s = w /\ trace s = [] /\ overrides s = ∅ /\ opts s = o /\
   origPiconLinks s = ∅ /\ piconLinks s = ∅ /\
   exists log m, output s = log ++ [m] /\ Forall is_Renamed log /\
                 (m = CantProcessImageDir \/ m = CantProcessLinkDir)) \/
  (st = false /\
   exists files log orig wrong,
     _makePiconFileList w = Some (files, log) /\
     scanLinks w (o_useHardLinks o) (listdir w) ∅ [] = Some (orig, wrong) /\
     s = let s1 := _clean wrong (scanned o w files log orig) in
         if o_cleanAll o then clean s1 else s1).
Proof.
  unfold init.
  destruct (_makePiconFileList w) as [[files log]|] eqn:Hf.
  - unfold _cleanWrongLinks. cbn [fs opts origPiconLinks].
    destruct (scanLinks w (o_useHardLinks o) (listdir w) ∅ [])
      as [[orig wrong]|] eqn:Hs.
    + intros [= <- <-]. right. split; [done|].
      exists files, log, orig, wrong. split; [done|]. split; [done|].
      assert (Ho : opts (_clean wrong (scanned o w files log orig)) = o).
      { unfold _clean. by destruct (removeEach_same wrong
          (emit (Removing (length wrong)) (scanned o w files log orig))) as (->&_). }
      change (set_origPiconLinks orig _) with (scanned o w files log orig).
      cbv zeta. by rewrite Ho.
    + intros [= <- <-]. left. apply _makePiconFileList_spec in Hf as [_ Hl].
      repeat split; try done. exists log, CantProcessLinkDir. eauto.
  - intros [= <- <-]. left. repeat split; try done.
    exists [], CantProcessImageDir. split; [done|]. split; [constructor|eauto].
Qed.

(** *** The invariant of a plain file *)

Lemma kept_emit T i m s :
  (forall T', m ≠ CantRemove T') ->
  (forall p T', m ≠ OverRidden p T') ->
  kept T i s -> kept T i (emit m s).
Proof.
  intros Hm1 Hm2 (Hp & [Ht Ho] & Hl). split; [done|]. split; [split; [done|]|].
  - simpl. rewrite elem_of_app, list_elem_of_singleton. intros [?|?]; [done|].
    by eapply Hm1.
  - unfold logged_once in *. simpl. rewrite filter_app, length_app.
    rewrite filter_cons_False, filter_nil; [simpl; rewrite Hl; lia|].
    destruct m; simpl; try done. by destruct (Hm2 picon servRefName).
Qed.

Lemma kept_reconcile T i servRef picon T' s :
  kept T i s -> kept T i (reconcile servRef picon T' s).
Proof.
  intros (Hp & Hu & Hl).
  pose proof (reconcile_reconciled servRef picon T' s) as H.
  split; [|split].
  - by eapply plain_file_reconciled.
  - by eapply untouched_reconciled.
  - by eapply logged_once_reconciled.
Qed.

Lemma kept_removeEach T i names s :
  T ∉ names -> kept T i s -> kept T i (removeEach names s).
Proof.
  intros Hin ((Hn & Hl & Ho & Hq) & [Ht Hc] & Hlog).
  destruct (removeEach_same names s) as (_ & _ & Eo & Ev & Eq & _).
  destruct (removeEach_effects names s)
    as ((ops & Etr & Hops) & (msgs & Eout & Hmsgs) & Hnl).
  split; [|split].
  - repeat split.
    + rewrite removeEach_out. by rewrite decide_False.
    + specialize (Hnl i). lia.
    + by rewrite Eo.
    + by rewrite Eq.
  - split.
    + rewrite Etr. apply Forall_app. split; [done|].
      eapply Forall_impl; [exact Hops|]. intros op (n & ? & ->). simpl. congruence.
    + rewrite Eout, elem_of_app. intros [?|Hm]; [done|].
      rewrite Forall_forall in Hmsgs. apply Hmsgs in Hm as (n & ? & [= ->]). done.
  - unfold logged_once in *. rewrite Eout, Ev, filter_app, length_app, <- Hlog.
    assert (E : filter (fun m => msg_is_override T m = true) msgs = []).
    { apply filter_override_none. eapply Forall_impl; [exact Hmsgs|].
      intros m (n & _ & ->). done. }
    rewrite E. simpl. lia.
Qed.

Lemma kept_fields T i s s' :
  fs s' = fs s -> origPiconLinks s' !! T = None -> piconLinks s' !! T = None ->
  overrides s' = overrides s -> output s' = output s -> trace s' = trace s ->
  kept T i s -> kept T i s'.
Proof.
  intros E1 E2 E3 E4 E5 E6 ((Hn & Hl & Ho & Hq) & [Ht Hc] & Hlog).
  unfold kept, plain_file, untouched, logged_once. rewrite E1, E4, E5, E6. done.
Qed.

Lemma kept_clean T i s : kept T i s -> kept T i (clean s).
Proof.
  intros Hk. unfold clean, _clean.
  set (names := (map_to_list (origPiconLinks s)).*1).
  assert (Hk1 : kept T i (removeEach names (emit (Removing (length names)) s))).
  { apply kept_removeEach.
    - unfold names. rewrite keys_spec. destruct Hk as ((_&_&->&_)&_). by intros [? ?].
    - by apply kept_emit. }
  revert Hk1. generalize (removeEach names (emit (Removing (length names)) s)).
  intros s1 Hk1. apply (kept_fields T i s1); try reflexivity; try done.
  apply Hk1.
Qed.

Lemma kept_init o w st s T i :
  init o w = (st, s) ->
  out w !! T = Some (Reg i) -> refType w T = IS_FILE ->
  kept T i s.
Proof.
  intros Hi Hn Hf.
  assert (Hl : (nlink w i <= 1)%nat).
  { apply refType_FILE in Hf as (j & Hj & ?). congruence. }
  assert (Hcount : forall log, Forall is_Renamed log ->
            (CantRemove T ∉ log) /\
            filter (fun m => msg_is_override T m = true) log = []).
  { intros log Hlog. split.
    - intros Hin. rewrite Forall_forall in Hlog. by apply Hlog in Hin.
    - apply filter_override_none. eapply Forall_impl; [exact Hlog|].
      intros m Hm. by destruct m. }
  apply init_inv in Hi
    as [(-> & Efs & Etr & Eov & _ & Eo & Eq & log & m & Eout & Hlog & Hm)
       |(-> & files & log & orig & wrong & Hfiles & Hscan & ->)].
  - destruct (Hcount _ Hlog) as [Hc1 Hc2].
    unfold kept, plain_file, untouched, logged_once.
    rewrite Efs, Etr, Eov, Eout, Eo, Eq, filter_app, Hc2, !lookup_empty.
    repeat split; try done.
    + rewrite elem_of_app, list_elem_of_singleton. intros [?|E]; [done|].
      subst m. by destruct Hm.
    + rewrite filter_cons_False; [done|]. by destruct Hm as [-> | ->].
  - apply _makePiconFileList_spec in Hfiles as [_ Hlog].
    destruct (Hcount _ Hlog) as [Hc1 Hc2].
    destruct (scanLinks_spec _ _ _ _ _ _ _ Hscan) as (Horig & Hwrong & _).
    assert (Hk0 : kept T i (scanned o w files log orig)).
    { split; [|split].
      - repeat split; simpl; try done.
        rewrite Horig. rewrite decide_False; [apply lookup_empty|].
        intros (_ & _ & E). rewrite Hf in E. by destruct (o_useHardLinks o).
      - split; simpl; [constructor|done].
      - unfold logged_once. simpl. by rewrite Hc2. }
    assert (Hk1 : kept T i (_clean wrong (scanned o w files log orig))).
    { unfold _clean. apply kept_removeEach; [|by apply kept_emit].
      rewrite Hwrong. intros [Hin|(_ & _ & E & _)].
      - by apply not_elem_of_nil in Hin.
      - by rewrite Hf in E. }
    cbv zeta. destruct (o_cleanAll o); [by apply kept_clean|done].
Qed.

Lemma doLine_Raise line s e :
  doLine line s = Raise e ->
  lineTargets (opts s) (servRefPartsFold s) line = Raise e.
Proof.
  unfold doLine, lineTargets.
  destruct (String.eqb (cleanLine line) ""); [done|].
  destruct (3 <? length _)%nat; [done|].
  destruct (Py.split_ws [] (Py.chars (cleanLine line)))
    as [|servRef [|serviceName [|picon [|]]]]; try done.
  destruct (expand _ _ servRef serviceName) as [[servRefs pf]|e'] eqn:He; [done|].
  simpl. congruence.
Qed.

Lemma kept_doLine T i line s s1 :
  kept T i s -> doLine line s = Ok s1 ->
  kept T i s1 /\ opts s1 = opts s /\
  exists ts, lineTargets (opts s) (servRefPartsFold s) line
             = Ok (ts, servRefPartsFold s1).
Proof.
  intros Hk Hl.
  apply (doLine_invariant (kept T i) (fun _ => True)).
  - intros s0 l Hs0. split; by apply kept_emit.
  - intros s0 pf Hs0. by apply (kept_fields T i s0); try apply Hs0.
  - intros s0 servRef picon T' _ Hs0. by apply kept_reconcile.
  - done.
  - done.
  - done.
Qed.

Lemma kept_doLines T i lines s :
  kept T i s -> kept T i (doLines lines s).2.
Proof.
  intros Hk.
  apply (doLines_invariant (kept T i) (fun _ => True)).
  - intros s0 line Hs0. split; by apply kept_emit.
  - intros s0 pf Hs0. by apply (kept_fields T i s0); try apply Hs0.
  - intros s0 servRef picon T' _ Hs0. by apply kept_reconcile.
  - done.
  - done.
Qed.

Lemma kept_makeLinks T i lines s :
  kept T i s -> kept T i (makeLinks lines s).2.
Proof.
  intros Hk. unfold makeLinks.
  assert (Hk1 : kept T i (doLines lines (enter s)).2).
  { apply kept_doLines. by apply (kept_fields T i s); try apply Hk. }
  destruct (doLines lines (enter s)) as [[| |e] s1]; simpl in *; try done.
  by apply kept_emit.
Qed.

Lemma kept_run T i o lines w :
  out w !! T = Some (Reg i) -> refType w T = IS_FILE ->
  kept T i (run o lines w).2.
Proof.
  intros Hn Hf. unfold run.
  destruct (init o w) as [st s0] eqn:Hi.
  pose proof (kept_init _ _ _ _ _ _ Hi Hn Hf) as Hk.
  destruct st; [done|].
  pose proof (kept_makeLinks T i lines s0 Hk) as Hk1.
  destruct (makeLinks lines s0) as [[| |e] s1]; simpl in *; try done.
  by apply kept_clean.
Qed.

Lemma kept_FILE T i s : kept T i s -> refType (fs s) T = IS_FILE.
Proof.
  intros ((Hn & Hl & _) & _). rewrite (refType_Reg _ _ _ Hn).
  destruct (1 <? nlink (fs s) i)%nat eqn:E; [|done].
  apply Nat.ltb_lt in E. lia.
Qed.

(** Once marked, a target stays marked. *)
Lemma overrides_doLines T lines s :
  T ∈ overrides s -> T ∈ overrides (doLines lines s).2.
Proof.
  intros Hin.
  apply (doLines_invariant (fun s => T ∈ overrides s) (fun _ => True));
    [done|done| |done|done].
  intros s0 servRef picon T' _ Hs0.
  destruct (reconciled_overrides _ _ _ _ _ (reconcile_reconciled servRef picon T' s0))
    as [->|(_ & -> & _)]; [done|].
  rewrite elem_of_union. tauto.
Qed.

Lemma overrides_reconcileAll T servRef picon servRefs s :
  T ∈ overrides s -> T ∈ overrides (reconcileAll servRef picon servRefs s).
Proof.
  intros Hin.
  apply (reconcileAll_invariant (fun s => T ∈ overrides s) (fun _ => True));
    [|done|done].
  intros s0 servRef' picon' T' _ Hs0.
  destruct (reconciled_overrides _ _ _ _ _ (reconcile_reconciled servRef' picon' T' s0))
    as [->|(_ & -> & _)]; [done|].
  rewrite elem_of_union. tauto.
Qed.

(** A plain file that a record derives is marked as an override. *)
Lemma kept_marked_reconcile T i servRef picon s :
  kept T i s -> T ∈ overrides (reconcile servRef picon T s).
Proof.
  intros (Hp & _).
  pose proof (plain_file_overridden _ _ _ Hp) as Hov.
  destruct Hp as (Hn & Hl & Ho & Hq).
  destruct (reconcile_reconciled servRef picon T s); try congruence; try done.
  simpl. rewrite elem_of_union, elem_of_singleton. tauto.
Qed.

Lemma kept_marked_reconcileAll T i servRef picon servRefs s :
  kept T i s -> T ∈ targetName <$> servRefs ->
  T ∈ overrides (reconcileAll servRef picon servRefs s).
Proof.
  revert s. induction servRefs as [|srp rest IH]; intros s Hk Hin.
  { by apply not_elem_of_nil in Hin. }
  simpl. destruct (decide (T = targetName srp)) as [->|Hne].
  - apply overrides_reconcileAll. by eapply kept_marked_reconcile.
  - apply IH; [by apply kept_reconcile|].
    rewrite fmap_cons in Hin. apply elem_of_cons in Hin as [?|?]; done.
Qed.

Lemma doLine_Ok line s s1 :
  doLine line s = Ok s1 ->
  exists ts pf,
    lineTargets (opts s) (servRefPartsFold s) line = Ok (ts, pf) /\
    ((ts = [] /\ pf = servRefPartsFold s /\
      (s1 = s \/ (exists l, s1 = emit (TooManyFields l) s)
       \/ (exists l, s1 = emit (TooFewFields l) s))) \/
     (exists servRef picon servRefs,
        ts = targetName <$> servRefs /\
        s1 = reconcileAll servRef picon servRefs (set_servRefPartsFold pf s))).
Proof.
  unfold doLine, lineTargets.
  destruct (String.eqb (cleanLine line) "").
  { intros [= <-]. exists [], (servRefPartsFold s). split; [done|]. left. eauto. }
  destruct (3 <? length _)%nat.
  { intros [= <-]. exists [], (servRefPartsFold s). split; [done|]. left.
    split; [done|]. split; [done|]. right. left. eauto. }
  destruct (Py.split_ws [] (Py.chars (cleanLine line)))
    as [|servRef [|serviceName [|picon [|]]]];
    try (intros [= <-]; exists [], (servRefPartsFold s); split; [done|]; left;
         split; [done|]; split; [done|]; right; right; eauto).
  destruct (expand _ _ servRef serviceName) as [[servRefs pf]|e'] eqn:He; [|done].
  simpl. intros [= <-]. exists (targetName <$> servRefs), pf. split; [done|].
  right. eauto.
Qed.

Lemma kept_marked_doLines T i lines s :
  kept T i s ->
  T ∈ derived (opts s) (servRefPartsFold s) lines ->
  T ∈ overrides (doLines lines s).2.
Proof.
  revert s. induction lines as [|line rest IH]; intros s Hk Hin.
  { by apply not_elem_of_nil in Hin. }
  cbn [derived doLines] in *.
  destruct (doLine line s) as [s1|e] eqn:Hl.
  2:{ apply doLine_Raise in Hl. rewrite Hl in Hin. by apply not_elem_of_nil in Hin. }
  destruct (kept_doLine T i line s s1 Hk Hl) as (Hk1 & Ho & ts' & Hts').
  apply doLine_Ok in Hl as (ts & pf & Hts & Hcase).
  rewrite Hts in Hin, Hts'. injection Hts' as <- ->.
  apply elem_of_app in Hin as [Hin|Hin].
  - apply overrides_doLines.
    destruct Hcase as [(-> & _)|(servRef & picon & servRefs & -> & ->)].
    + by apply not_elem_of_nil in Hin.
    + apply (kept_marked_reconcileAll T i); [|done].
      by apply (kept_fields T i s); try apply Hk.
  - apply IH; [done|]. by rewrite Ho.
Qed.

Lemma plain_file_runs jobs w T i :
  out w !! T = Some (Reg i) -> refType w T = IS_FILE ->
  out (runs jobs w) !! T = Some (Reg i) /\ refType (runs jobs w) T = IS_FILE.
Proof.
  revert w. induction jobs as [|[o lines] rest IH]; intros w Hn Hf; [done|].
  simpl. pose proof (kept_run T i o lines w Hn Hf) as Hk.
  apply IH; [apply Hk|by eapply kept_FILE].
Qed.


(** ** Stale links are removed *)

Lemma pending_reconcile T servRef picon T' s :
  pending T s -> pending T (reconcile servRef picon T' s).
Proof.
  intros Hp. pose proof (reconcile_reconciled servRef picon T' s) as H.
  destruct (decide (T' = T)) as [->|Hne].
  2:{ destruct (reconciled_other _ _ _ _ _ T H) as (E1 & E2 & E3 & _); [done|].
      unfold pending. rewrite E1, E2, E3. exact Hp. }
  unfold pending in *.
  destruct H as [| | | | | | pn pr s2 w ? ? ? ? Hc Hl | pn pr ? ? ? ? Hs Hr
                | pn pr s2 ? ? ? ? Hc Hl];
    split_placeholder; simpl; try (by rewrite ?lookup_insert_eq); try done.
  - intros _. exfalso. destruct Hp as [E|(_ & n & E & Hn)]; [done| |].
    + rewrite E in Hs. by destruct Hs.
    + apply os_remove_None in Hr as [Hr|[i Hr]]; [congruence|].
      rewrite E in Hr. injection Hr as ->. by destruct (Hn i).
  - intros _. exfalso. destruct Hp as [E|(_ & n & E & Hn)]; [done| |].
    + rewrite E in Hs. by destruct Hs.
    + apply os_remove_None in Hr as [Hr|[i Hr]]; [congruence|].
      rewrite E in Hr. injection Hr as ->. by destruct (Hn i).
  - inv_cleared Hc. intros _. left. rewrite Cout. apply lookup_delete_eq.
  - inv_cleared Hc. intros _. left. rewrite Cout. apply lookup_delete_eq.
Qed.

Lemma pending_emit T m s : pending T s -> pending T (emit m s).
Proof. done. Qed.

Lemma pending_clean T s : pending T s -> piconLinks s !! T = None ->
  out (fs (clean s)) !! T = None.
Proof.
  intros Hp Hq. unfold clean, _clean. simpl. rewrite removeEach_out. simpl.
  destruct (Hp Hq) as [E|(Ho & n & E & Hn)].
  - rewrite E. by destruct (decide _).
  - rewrite decide_True by by apply keys_spec.
    rewrite E. destruct n as [i|t|i]; try done. by destruct (Hn i).
Qed.

Lemma _clean_same names s :
  opts (_clean names s) = opts s /\
  piconFiles (_clean names s) = piconFiles s /\
  origPiconLinks (_clean names s) = origPiconLinks s /\
  overrides (_clean names s) = overrides s /\
  piconLinks (_clean names s) = piconLinks s /\
  linksMade (_clean names s) = linksMade s /\
  servRefPartsFold (_clean names s) = servRefPartsFold s /\
  static (fs s) (fs (_clean names s)).
Proof. unfold _clean. apply (removeEach_same names (emit _ s)). Qed.

Lemma clean_same s :
  opts (clean s) = opts s /\
  piconFiles (clean s) = piconFiles s /\
  origPiconLinks (clean s) = ∅ /\
  overrides (clean s) = overrides s /\
  piconLinks (clean s) = piconLinks s /\
  linksMade (clean s) = linksMade s /\
  servRefPartsFold (clean s) = servRefPartsFold s /\
  static (fs s) (fs (clean s)).
Proof.
  unfold clean. simpl.
  destruct (_clean_same (map_to_list (origPiconLinks s)).*1 s)
    as (?&?&?&?&?&?&?&?). done.
Qed.

(** What the constructor establishes when it does not exit. *)
Lemma init_fields o w s :
  init o w = (false, s) ->
  opts s = o /\ piconLinks s = ∅ /\ overrides s = ∅ /\
  static w (fs s) /\ inventory_sound w (piconFiles s) /\
  exists log, _makePiconFileList w = Some (piconFiles s, log).
Proof.
  intros Hi. apply init_inv in Hi
    as [(?&_)|(_ & files & log & orig & wrong & Hf & _ & ->)]; [done|].
  cbv zeta.
  destruct (_clean_same wrong (scanned o w files log orig))
    as (E1&E2&E3&E4&E5&E6&E7&E8).
  destruct (clean_same (_clean wrong (scanned o w files log orig)))
    as (F1&F2&F3&F4&F5&F6&F7&F8).
  destruct (_makePiconFileList_spec _ _ _ Hf) as [Hs _].
  destruct (o_cleanAll o).
  - rewrite F1, F2, F4, F5, E1, E2, E4, E5. simpl.
    refine (conj _ (conj _ (conj _ (conj _ (conj _ _))))); try done.
    + by eapply static_trans.
    + eauto.
  - rewrite E1, E2, E4, E5. simpl.
    refine (conj _ (conj _ (conj _ (conj _ (conj _ _))))); try done.
    eauto.
Qed.

Lemma pending_init o w s T :
  init o w = (false, s) ->
  is_png T = true ->
  refType w T = wanted (o_useHardLinks o) ->
  pending T s.
Proof.
  intros Hi Hpng Hk. apply init_inv in Hi
    as [(?&_)|(_ & files & log & orig & wrong & Hf & Hscan & ->)]; [done|].
  destruct (scanLinks_spec _ _ _ _ _ _ _ Hscan) as (Horig & Hwrong & Href).
  assert (Hn : exists n, out w !! T = Some n /\ forall i, n ≠ Dir i).
  { destruct (o_useHardLinks o); simpl in Hk.
    - apply refType_HLINK in Hk as (i & -> & _). by eexists.
    - apply refType_SLINK in Hk as (t & ->). by eexists. }
  destruct Hn as (n & Hn & Hnd).
  assert (Hdir : T ∈ listdir w) by (apply listdir_spec; eauto).
  assert (Hlink : is_link (refType w T) = true).
  { rewrite Hk. by destruct (o_useHardLinks o). }
  assert (Hp1 : pending T (_clean wrong (scanned o w files log orig))).
  { intros _. right.
    destruct (_clean_same wrong (scanned o w files log orig))
      as (_&_&->&_). simpl. split.
    - rewrite Horig, decide_True by done. by apply Href.
    - exists n. split; [|done]. unfold _clean. rewrite removeEach_out. simpl.
      rewrite decide_False; [done|]. rewrite Hwrong.
      intros [H|(_&_&_&H)]; [by apply not_elem_of_nil in H|done]. }
  cbv zeta. destruct (o_cleanAll o); [|done].
  intros _. left. apply pending_clean; [done|].
  by destruct (_clean_same wrong (scanned o w files log orig)) as (_&_&_&_&->&_).
Qed.

(** A name no record derives is never claimed. *)
Lemma unclaimed_doLines T lines s :
  T ∉ derived (opts s) (servRefPartsFold s) lines ->
  piconLinks s !! T = None ->
  piconLinks (doLines lines s).2 !! T = None.
Proof.
  intros Hd Hq.
  apply (doLines_invariant (fun s => piconLinks s !! T = None) (fun T' => T' ≠ T)).
  - done.
  - done.
  - intros s0 servRef picon T' Hne Hs0.
    destruct (reconciled_other _ _ _ _ _ T (reconcile_reconciled servRef picon T' s0))
      as (_ & _ & -> & _); done.
  - intros T' Hin ->. done.
  - done.
Qed.

Lemma pending_doLines T lines s :
  pending T s -> pending T (doLines lines s).2.
Proof.
  intros Hp.
  apply (doLines_invariant (pending T) (fun _ => True)).
  - done.
  - done.
  - intros s0 servRef picon T' _ Hs0. by apply pending_reconcile.
  - done.
  - done.
Qed.


(** ** Claimed targets are links to their icons *)

Lemma getLinkRef_frame w w' T :
  static w w' -> out w' !! T = out w !! T -> getLinkRef w' T = getLinkRef w T.
Proof.
  intros Hs Ho. unfold getLinkRef, stat, object. rewrite Ho.
  destruct (out w !! T) as [[i|t|i]|]; try done.
  rewrite (static_follow _ _ _ Hs). by destruct (follow w t) as [[?|?|?]|].
Qed.

Lemma links_to_frame h w w' T id :
  static w w' -> out w' !! T = out w !! T ->
  links_to h w T id -> links_to h w' T id.
Proof.
  intros Hs Ho [H1 H2]. split.
  - by rewrite Ho.
  - by rewrite (getLinkRef_frame _ _ _ Hs Ho).
Qed.

Lemma inventory_sound_static w w' files :
  static w w' -> inventory_sound w files -> inventory_sound w' files.
Proof.
  intros Hs H k pn r Hk. rewrite (static_chan_lookup _ _ _ Hs). eauto.
Qed.

Lemma follow_picon w piconName :
  follow w (CHAN_PICON_DIR +:+ "/" +:+ piconName) = final (chan_lookup w piconName).
Proof.
  unfold follow, Py.chars, Py.str. simpl.
  by rewrite string_of_list_ascii_of_string.
Qed.

(** A new link is a link of the wanted kind to the file of the icon. *)
Lemma links_to_new h w piconName id n m T :
  chan_lookup w piconName = Some (Reg id) ->
  linkNode h w piconName = Some n ->
  links_to h (set_out (<[T := n]> m) w) T id.
Proof.
  intros Hc Hn. unfold linkNode in Hn. unfold links_to, getLinkRef, stat, object.
  simpl. rewrite lookup_insert_eq. destruct h.
  - rewrite Hc in Hn. injection Hn as <-. done.
  - injection Hn as <-. split; [eauto|].
    rewrite follow_picon. unfold chan_lookup in *. simpl. by rewrite Hc.
Qed.

(** With the icon in the image directory, such a link is classified as
    the wanted kind. *)
Lemma links_to_refType h w T id piconName :
  links_to h w T id ->
  chan_lookup w piconName = Some (Reg id) ->
  refType w T = wanted h.
Proof.
  intros [Hn _] Hc. destruct h; simpl.
  - rewrite (refType_Reg _ _ _ Hn).
    pose proof (nlink_icon _ _ _ _ Hc Hn) as Hl.
    apply Nat.ltb_lt in Hl. by rewrite Hl.
  - destruct Hn as [t Hn]. by eapply refType_Sym.
Qed.

Lemma path_exists_Reg w T i : out w !! T = Some (Reg i) -> path_exists w T = true.
Proof. intros H. unfold path_exists, stat, object. by rewrite H. Qed.

Lemma consistent_reconciled servRef picon T' s s' :
  reconciled servRef picon T' s s' -> consistent s -> consistent s'.
Proof.
  intros H (Hinv & Horig & Hclaim & Hover).
  destruct (reconciled_static _ _ _ _ _ H) as (Eo & Ef & Hst & _).
  assert (Hmarked : forall T, T ∈ overrides s -> overridden s T).
  { intros T HT. destruct (Hover T HT) as (i & Hi & _). split; [|by left].
    by eapply path_exists_Reg. }
  unfold consistent. rewrite Eo, Ef.
  split; [by eapply inventory_sound_static|].
  split; [|split].
  - (* baseline links *)
    intros T id HT. destruct (decide (T = T')) as [->|Hne].
    2:{ destruct (reconciled_other _ _ _ _ _ T H) as (E1 & E2 & _); [done|].
        rewrite E2 in HT. eapply links_to_frame; eauto. }
    destruct H as [| | | | | | pn pr s2 w ? ? ? ? Hc Hl | | pn pr s2 ? ? ? ? Hc Hl];
      split_placeholder; simpl in *; eauto;
      try (by rewrite lookup_delete_eq in HT).
    + inv_cleared Hc. rewrite Corig in HT. simpl in HT.
      by rewrite lookup_delete_eq in HT.
    + inv_cleared Hc. rewrite Corig in HT. simpl in HT.
      by rewrite lookup_delete_eq in HT.
    + inv_cleared Hc. rewrite Corig in HT. simpl in HT.
      by rewrite lookup_delete_eq in HT.
  - (* claimed targets *)
    intros T q HT. destruct (decide (T = T')) as [->|Hne].
    2:{ destruct (reconciled_other _ _ _ _ _ T H) as (E1 & E2 & E3 & _); [done|].
        rewrite E3 in HT. destruct (Hclaim _ _ HT) as (pn & id & ? & ? & ?).
        exists pn, id. rewrite E2. split; [done|]. split; [|done].
        eapply links_to_frame; eauto. }
    destruct H as [| | | | | | pn pr s2 w ? ? ? ? Hc Hl | | pn pr s2 ? ? ? ? Hc Hl];
      split_placeholder; simpl in *; eauto; try congruence.
    + rewrite lookup_insert_eq in HT. injection HT as <-.
      exists piconName, piconRef. split; [done|].
      split; [by apply Horig|]. apply lookup_delete_eq.
    + rewrite lookup_insert_eq in HT. injection HT as <-.
      inv_cleared Hc. inv_makeLink Hl. exists pn, pr. split; [done|]. split.
      * eapply links_to_new; [|exact Lnode].
        rewrite (static_chan_lookup _ _ _ Cstatic). simpl. eauto.
      * simpl. rewrite Corig. simpl. apply lookup_delete_eq.
    + inv_cleared Hc. rewrite Clinks in HT. simpl in HT. congruence.
    + inv_cleared Hc. rewrite Clinks in HT. simpl in HT. congruence.
  - (* overrides *)
    intros T HT. destruct (decide (T = T')) as [->|Hne].
    2:{ destruct (reconciled_other _ _ _ _ _ T H) as (E1 & E2 & E3 & E4); [done|].
        rewrite E1, E3. apply Hover. by apply E4. }
    destruct H as [| | | | | | pn pr s2 w ? ? ? ? Hc Hl | | pn pr s2 ? ? ? ? Hc Hl];
      split_placeholder; simpl in *; eauto;
      try (exfalso; by eauto).
    + apply refType_FILE in H2 as (i & Hi & _). eauto.
    + inv_cleared Hc. rewrite Cover in HT. simpl in HT. exfalso. eauto.
    + inv_cleared Hc. rewrite Cover in HT. simpl in HT. exfalso. eauto.
    + inv_cleared Hc. rewrite Cover in HT. simpl in HT. exfalso. eauto.
Qed.

Lemma consistent_reconcile servRef picon T s :
  consistent s -> consistent (reconcile servRef picon T s).
Proof. eapply consistent_reconciled, reconcile_reconciled. Qed.

Lemma consistent_emit m s : consistent s -> consistent (emit m s).
Proof. done. Qed.

Lemma consistent_binding pf s :
  consistent s -> consistent (set_servRefPartsFold pf s).
Proof. done. Qed.

Lemma consistent_init o w s : init o w = (false, s) -> consistent s.
Proof.
  intros Hi. destruct (init_fields _ _ _ Hi) as (Ho & Hq & Hov & Hst & Hinv & _).
  unfold consistent. rewrite Ho, Hq, Hov.
  split; [by eapply inventory_sound_static|].
  split; [|split].
  2:{ intros T q. by rewrite lookup_empty. }
  2:{ intros T HT. by apply not_elem_of_empty in HT. }
  apply init_inv in Hi
    as [(?&_)|(_ & files & log & orig & wrong & Hf & Hscan & ->)]; [done|].
  destruct (scanLinks_spec _ _ _ _ _ _ _ Hscan) as (Horig & Hwrong & Href).
  cbv zeta. destruct (o_cleanAll o).
  { intros T id. destruct (clean_same (_clean wrong (scanned o w files log orig)))
      as (_&_&->&_). by rewrite lookup_empty. }
  intros T id.
  destruct (_clean_same wrong (scanned o w files log orig))
    as (_&_&->&_&_&_&_&Hst1). simpl.
  rewrite Horig. destruct (decide _) as [(Hin & Hpng & Hk)|]; [|by rewrite lookup_empty].
  intros Hid. apply (links_to_frame _ w); [done| |].
  - unfold _clean. rewrite removeEach_out. simpl. rewrite decide_False; [done|].
    rewrite Hwrong. intros [H|(_&_&_&H)]; [by apply not_elem_of_nil in H|done].
  - split; [|done]. destruct (o_useHardLinks o); simpl in Hk.
    + apply refType_HLINK in Hk as (i & Hn & _ & Hr). congruence.
    + by apply refType_SLINK in Hk.
Qed.

Lemma consistent_enter s :
  consistent s -> piconLinks s = ∅ -> consistent (enter s).
Proof.
  intros (H1 & H2 & H3 & H4) Hq. unfold consistent. simpl.
  split; [done|]. split; [done|]. split.
  - intros T q. by rewrite lookup_empty.
  - intros T HT. destruct (H4 T HT) as (i & ? & _). exists i. by rewrite lookup_empty.
Qed.

Lemma consistent_doLines lines s :
  consistent s -> consistent (doLines lines s).2.
Proof.
  intros Hc. apply (doLines_invariant consistent (fun _ => True)).
  - done.
  - done.
  - intros s0 servRef picon T _ Hs0. by apply consistent_reconcile.
  - done.
  - done.
Qed.

Lemma reachable_consistent o w s : reachable o w s -> consistent s /\ opts s = o.
Proof.
  induction 1 as [s0 Hi|lines s _ [IH1 IH2]|pf s _ [IH1 IH2]|servRef picon T s _ [IH1 IH2]].
  - destruct (init_fields _ _ _ Hi) as (Ho & Hq & _). split; [|done].
    apply consistent_enter; [by eapply consistent_init|done].
  - split; [by apply consistent_doLines|].
    rewrite <- IH2. apply (doLines_invariant (fun _ => True) (fun _ => True)); done.
  - done.
  - split; [by apply consistent_reconcile|].
    rewrite <- IH2. apply reconcile_opts.
Qed.

(** What the invariant says about a claimed target. *)
Lemma consistent_claimed s T q :
  consistent s -> piconLinks s !! T = Some q ->
  exists pn id, piconFiles s !! q = Some (pn, id) /\
    refType (fs s) T = wanted (o_useHardLinks (opts s)) /\
    getLinkRef (fs s) T = Some id.
Proof.
  intros (Hinv & _ & Hclaim & _) Hq.
  destruct (Hclaim _ _ Hq) as (pn & id & Hp & Hl & _).
  exists pn, id. split; [done|]. split; [|apply Hl].
  eapply links_to_refType; eauto.
Qed.

(** The end-of-run clean-up leaves claimed targets as they are. *)
Lemma claimed_clean s T q :
  consistent s -> piconLinks s !! T = Some q ->
  exists pn id, piconFiles s !! q = Some (pn, id) /\
    refType (fs (clean s)) T = wanted (o_useHardLinks (opts s)) /\
    getLinkRef (fs (clean s)) T = Some id.
Proof.
  intros (Hinv & _ & Hclaim & _) Hq.
  destruct (Hclaim _ _ Hq) as (pn & id & Hp & Hl & Ho).
  destruct (clean_same s) as (_&_&_&_&_&_&_&Hst).
  exists pn, id. split; [done|].
  assert (Hl' : links_to (o_useHardLinks (opts s)) (fs (clean s)) T id).
  { eapply links_to_frame; [done| |done].
    unfold clean, _clean. simpl. rewrite removeEach_out. simpl.
    rewrite decide_False; [done|]. rewrite keys_spec, Ho. by intros [? ?]. }
  split; [|apply Hl'].
  eapply links_to_refType; [done|].
  rewrite (static_chan_lookup _ _ _ Hst). eauto.
Qed.

(** ** Duplicate targets *)

Lemma said_app s s' msgs : output s' = output s ++ msgs -> said s s' = msgs.
Proof. intros E. unfold said. rewrite E. apply drop_app_length. Qed.

Lemma claims_persist_reconcile servRef picon T' s T q :
  piconLinks s !! T = Some q ->
  piconLinks (reconcile servRef picon T' s) !! T = Some q.
Proof.
  intros Hq. pose proof (reconcile_reconciled servRef picon T' s) as H.
  destruct (decide (T = T')) as [->|Hne].
  - destruct H; simpl; congruence.
  - destruct (reconciled_other _ _ _ _ _ T H) as (_ & _ & -> & _); done.
Qed.

Lemma claims_persist_doLines lines s T q :
  piconLinks s !! T = Some q -> piconLinks (doLines lines s).2 !! T = Some q.
Proof.
  intros Hq.
  apply (doLines_invariant (fun s => piconLinks s !! T = Some q) (fun _ => True)).
  - done.
  - done.
  - intros s0 servRef picon T' _ Hs0. by apply claims_persist_reconcile.
  - done.
  - done.
Qed.


(** ** Failed links are not claimed *)

Lemma os_remove_None_Dir w T :
  os_remove w T = None -> is_Some (out w !! T) ->
  exists i, out w !! T = Some (Dir i).
Proof.
  intros Hr [n Hn]. apply os_remove_None in Hr as [Hr|Hr]; [congruence|done].
Qed.

(** In a consistent state the link itself cannot fail once the name is
    cleared: the inventory names a file of the image directory. *)
Lemma consistent_link_succeeds s T s2 piconName piconRef picon :
  consistent s ->
  piconFiles s !! picon = Some (piconName, piconRef) ->
  cleared T (unbaseline T s) s2 ->
  os_makeLink (o_useHardLinks (opts s)) (fs s2) piconName T = None -> False.
Proof.
  intros (Hinv & _) Hp Hc Hl. inv_cleared Hc.
  apply os_makeLink_None in Hl as [[n Hn]|Hl].
  - rewrite Cout in Hn. by rewrite lookup_delete_eq in Hn.
  - unfold linkNode in Hl. destruct (o_useHardLinks (opts s)); [|done].
    rewrite (static_chan_lookup _ _ _ Cstatic) in Hl. simpl in Hl.
    by rewrite (Hinv _ _ _ Hp) in Hl.
Qed.


(** ** Every claimable target is linked *)

Lemma doLines_app l1 l2 s :
  doLines (l1 ++ l2) s =
  match doLines l1 s with
  | (Finished, s') => doLines l2 s'
  | r => r
  end.
Proof.
  revert s. induction l1 as [|line rest IH]; intros s; simpl; [done|].
  destruct (doLine line s); [apply IH|done].
Qed.

Lemma doLines_status lines s :
  (doLines lines s).1 ≠ Exited.
Proof.
  revert s. induction lines as [|line rest IH]; intros s; simpl; [done|].
  destruct (doLine line s); [apply IH|done].
Qed.

Lemma doLine_fields line s s1 :
  doLine line s = Ok s1 ->
  opts s1 = opts s /\
  exists ts, lineTargets (opts s) (servRefPartsFold s) line
             = Ok (ts, servRefPartsFold s1).
Proof.
  intros Hl.
  destruct (doLine_invariant (fun _ => True) (fun _ => True)) with (line := line)
    (s := s) (s' := s1) as (_ & ? & ?); done.
Qed.

Lemma doLines_binding lines s s' :
  doLines lines s = (Finished, s') ->
  opts s' = opts s /\
  servRefPartsFold s' = bindingAfter (opts s) (servRefPartsFold s) lines.
Proof.
  revert s. induction lines as [|line rest IH]; intros s; simpl.
  { by intros [= <-]. }
  destruct (doLine line s) as [s1|e] eqn:Hl; [|done].
  intros Hrest. destruct (doLine_fields _ _ _ Hl) as (Ho & ts & Hts).
  rewrite Hts. destruct (IH _ Hrest) as [Ho' Hb]. rewrite Ho', Hb, Ho. done.
Qed.

(** The program makes no directory. *)
Lemma reconciled_Dir servRef picon T' s s' T i :
  reconciled servRef picon T' s s' ->
  out (fs s') !! T = Some (Dir i) -> out (fs s) !! T = Some (Dir i).
Proof.
  intros H. destruct (decide (T = T')) as [->|Hne].
  2:{ destruct (reconciled_other _ _ _ _ _ T H) as (-> & _); done. }
  destruct H as [| | | | | | pn pr s2 w ? ? ? ? Hc Hl | | pn pr s2 ? ? ? ? Hc Hl];
    split_placeholder; simpl; try done.
  - inv_cleared Hc. inv_makeLink Hl. simpl. rewrite lookup_insert_eq.
    intros [= ->]. unfold linkNode in Lnode.
    destruct (o_useHardLinks (opts s)); [|done].
    by destruct (chan_lookup (fs s2) pn) as [[?|?|?]|].
  - inv_cleared Hc. rewrite Cout. by rewrite lookup_delete_eq.
  - inv_cleared Hc. rewrite Cout. by rewrite lookup_delete_eq.
Qed.

Lemma removeEach_Dir names s T i :
  out (fs (removeEach names s)) !! T = Some (Dir i) ->
  out (fs s) !! T = Some (Dir i).
Proof.
  rewrite removeEach_out. destruct (decide _); [|done].
  by destruct (out (fs s) !! T) as [[?|?|?]|].
Qed.

Lemma init_Dir o w s T i :
  init o w = (false, s) ->
  out (fs s) !! T = Some (Dir i) -> out w !! T = Some (Dir i).
Proof.
  intros Hi. apply init_inv in Hi
    as [(?&_)|(_ & files & log & orig & wrong & _ & _ & ->)]; [done|].
  cbv zeta. unfold clean, _clean. destruct (o_cleanAll o); simpl; intros H.
  - apply removeEach_Dir in H. simpl in H. by apply removeEach_Dir in H.
  - by apply removeEach_Dir in H.
Qed.

Lemma doLines_Dir lines s T :
  (forall i, out (fs s) !! T ≠ Some (Dir i)) ->
  forall i, out (fs (doLines lines s).2) !! T ≠ Some (Dir i).
Proof.
  intros Hs.
  apply (doLines_invariant (fun s => forall i, out (fs s) !! T ≠ Some (Dir i))
           (fun _ => True)).
  - done.
  - done.
  - intros s0 servRef picon T' _ Hs0 i Hi.
    eapply Hs0, reconciled_Dir; [apply reconcile_reconciled|done].
  - done.
  - done.
Qed.

Lemma cleared_not_Dir T s s2 i :
  cleared T s s2 -> out (fs s) !! T ≠ Some (Dir i).
Proof.
  intros [Hn|w Hw]; [congruence|].
  apply os_remove_Some in Hw as (_ & n & Hn & Hnd). rewrite Hn.
  intros [= ->]. by destruct (Hnd i).
Qed.

Lemma settled_reconcile servRef picon T' s T :
  settled T s -> settled T (reconcile servRef picon T' s).
Proof.
  intros Hs. pose proof (reconcile_reconciled servRef picon T' s) as H.
  destruct Hs as [[q Hq]|[Hov|[i Hi]]].
  - left. exists q. by apply claims_persist_reconcile.
  - right. left.
    destruct (reconciled_overrides _ _ _ _ _ H) as [->|(_ & -> & _)]; [done|].
    rewrite elem_of_union. tauto.
  - destruct (decide (T = T')) as [->|Hne].
    2:{ right. right. exists i.
        destruct (reconciled_other _ _ _ _ _ T H) as (-> & _); done. }
    destruct H as [| | | | | | pn pr s2 w ? ? ? ? Hc Hl | | pn pr s2 ? ? ? ? Hc Hl];
      split_placeholder; simpl;
      try (right; right; by exists i);
      try (left; by rewrite lookup_insert_eq);
      exfalso; by eapply (cleared_not_Dir _ _ _ i Hc).
Qed.

Lemma settled_reconcileAll servRef picon servRefs s T :
  settled T s -> settled T (reconcileAll servRef picon servRefs s).
Proof.
  intros Hs.
  apply (reconcileAll_invariant (settled T) (fun _ => True)); [|done|done].
  intros s0 servRef' picon' T' _ Hs0. by apply settled_reconcile.
Qed.

Lemma settled_doLines lines s T :
  settled T s -> settled T (doLines lines s).2.
Proof.
  intros Hs. apply (doLines_invariant (settled T) (fun _ => True)).
  - done.
  - done.
  - intros s0 servRef picon T' _ Hs0. by apply settled_reconcile.
  - done.
  - done.
Qed.

(** A record whose icon is in the inventory settles its target. *)
Lemma settles_reconcile servRef picon T s :
  consistent s -> is_Some (piconFiles s !! picon) ->
  settled T (reconcile servRef picon T s).
Proof.
  intros Hc [[pn0 pr0] Hp].
  destruct (reconcile_reconciled servRef picon T s)
    as [| | | | | | pn pr s2 w ? ? ? ? Hcl Hl | pn pr ? ? ? ? Hs Hrm
       | pn pr s2 ? ? ? ? Hcl Hl].
  - left. eauto.
  - left. eauto.
  - right. left. simpl. rewrite elem_of_union, elem_of_singleton. tauto.
  - right. by left.
  - congruence.
  - left. simpl. rewrite lookup_insert_eq. eauto.
  - left. simpl. rewrite lookup_insert_eq. eauto.
  - right. right. apply os_remove_None_Dir in Hrm as [i Hi]; [|done].
    exists i. by split_placeholder.
  - exfalso. by eapply consistent_link_succeeds.
Qed.

Lemma settles_reconcileAll servRef picon servRefs s T :
  consistent s -> is_Some (piconFiles s !! picon) ->
  T ∈ targetName <$> servRefs ->
  settled T (reconcileAll servRef picon servRefs s).
Proof.
  revert s. induction servRefs as [|srp rest IH]; intros s Hc Hp Hin.
  { by apply not_elem_of_nil in Hin. }
  simpl. destruct (decide (T = targetName srp)) as [->|Hne].
  - apply settled_reconcileAll. by apply settles_reconcile.
  - apply IH.
    + by apply consistent_reconcile.
    + destruct (reconciled_static _ _ _ _ _
        (reconcile_reconciled servRef picon (targetName srp) s)) as (_ & -> & _).
      done.
    + rewrite fmap_cons in Hin. apply elem_of_cons in Hin as [?|?]; done.
Qed.

Lemma doLine_record line s servRef serviceName picon :
  Py.split_ws [] (Py.chars (cleanLine line)) = [servRef; serviceName; picon] ->
  doLine line s =
  (r <-! expand (opts s) (servRefPartsFold s) servRef serviceName;
   Ok (reconcileAll servRef picon r.1 (set_servRefPartsFold r.2 s))).
Proof.
  intros HF. unfold doLine. rewrite HF.
  destruct (String.eqb (cleanLine line) "") eqn:E.
  { apply String.eqb_eq in E. rewrite E in HF. done. }
  simpl. by destruct (expand _ _ _ _) as [[? ?]|].
Qed.

Lemma piconFiles_doLines lines s :
  piconFiles (doLines lines s).2 = piconFiles s.
Proof.
  apply (doLines_invariant (fun s' => piconFiles s' = piconFiles s) (fun _ => True)).
  - done.
  - done.
  - intros s0 servRef picon T' _ Hs0.
    destruct (reconciled_static _ _ _ _ _ (reconcile_reconciled servRef picon T' s0))
      as (_ & -> & _). done.
  - done.
  - done.
Qed.

Lemma doLines_snd lines s st s' :
  doLines lines s = (st, s') -> s' = (doLines lines s).2.
Proof. by intros ->. Qed.

Lemma piconFiles_reconcileAll servRef picon servRefs s :
  piconFiles (reconcileAll servRef picon servRefs s) = piconFiles s.
Proof.
  destruct (reconcileAll_invariant (fun s' => piconFiles s' = piconFiles s)
              (fun _ => True)) with (servRef := servRef) (picon := picon)
    (servRefs := servRefs) (s := s) as (? & _); try done.
  intros s' servRef' picon' T' _ Hs'.
  destruct (reconciled_static _ _ _ _ _ (reconcile_reconciled servRef' picon' T' s'))
    as (_ & -> & _). done.
Qed.

Lemma consistent_reconcileAll servRef picon servRefs s :
  consistent s -> consistent (reconcileAll servRef picon servRefs s).
Proof.
  intros Hc.
  destruct (reconcileAll_invariant consistent (fun _ => True))
    with (servRef := servRef) (picon := picon) (servRefs := servRefs) (s := s)
    as (? & _); try done.
  intros s' servRef' picon' T' _ Hs'. by apply consistent_reconcile.
Qed.


(* ================================================================== *)
(** * The expansion rules and the inventory *)
(* ================================================================== *)

(** ** The fold rule *)

(** What the block of [fold] does when field 0 selects the record, by
    the service type. *)
Lemma foldRule_folds servRefParts servRefs partsFold p0 n0 p2 stype :
  servRefParts !! 0%nat = Some p0 -> Py.parse_int 10 p0 = Some n0 ->
  terrestrial n0 = true ->
  servRefParts !! 2%nat = Some p2 -> Py.parse_int 16 p2 = Some stype ->
  in_Z stype [1; 2; 10] = false ->
  foldRule servRefParts (servRefs, partsFold)
  = Ok (servRefs ++ [<[2%nat := "1"]> servRefParts],
        Some (<[2%nat := "1"]> servRefParts)).
Proof.
  intros H0 E0 Ht H2 E2 Hs. unfold foldRule, Py.getitem, Py.int, Py.int16.
  rewrite H0. cbn [rbind of_option]. rewrite E0. cbn [rbind of_option].
  rewrite Ht, H2. cbn [rbind of_option]. rewrite E2. cbn [rbind of_option].
  by rewrite Hs.
Qed.

Lemma foldRule_skips servRefParts acc p0 n0 :
  servRefParts !! 0%nat = Some p0 -> Py.parse_int 10 p0 = Some n0 ->
  terrestrial n0 = false ->
  foldRule servRefParts acc = Ok acc.
Proof.
  intros H0 E0 Ht. destruct acc as [servRefs partsFold].
  unfold foldRule, Py.getitem, Py.int, Py.int16.
  rewrite H0. cbn [rbind of_option]. rewrite E0. cbn [rbind of_option].
  by rewrite Ht.
Qed.

(** C5.  For a record that field 0 selects and whose service type is 1,
    2 or A, the block of [fold] does not leave the list of targets alone:
    it appends whatever [servRefPartsFold] is bound to -- the folded
    target of an earlier record -- and raises [UnboundLocalError] when no
    record has bound it yet. *)
Theorem C5_fold_appends_stale_target
    (servRefParts : list string) (servRefs : list (list string))
    (partsFold : option (list string)) (p0 p2 : string) (n0 stype : Z) :
  servRefParts !! 0%nat = Some p0 -> Py.parse_int 10 p0 = Some n0 ->
  terrestrial n0 = true ->
  servRefParts !! 2%nat = Some p2 -> Py.parse_int 16 p2 = Some stype ->
  in_Z stype [1; 2; 10] = true ->
  foldRule servRefParts (servRefs, partsFold)
  = match partsFold with
    | Some stale => Ok (servRefs ++ [stale], partsFold)
    | None => Raise UnboundLocalError
    end.
Proof.
  intros H0 E0 Ht H2 E2 Hs. unfold foldRule, Py.getitem, Py.int, Py.int16.
  rewrite H0. cbn [rbind of_option]. rewrite E0. cbn [rbind of_option].
  rewrite Ht, H2. cbn [rbind of_option]. rewrite E2. cbn [rbind of_option].
  rewrite Hs. by destruct partsFold.
Qed.

Lemma C5_fold_appends_stale_target_witness :
  let parts := ["1"; "0"; "1"; "4B"; "6"; "86"; "0"; "0"; "0"; "0"] in
  let stale := ["1"; "0"; "1"; "4A"; "6"; "85"; "0"; "0"; "0"; "0"] in
  foldRule parts ([], Some stale) = Ok ([stale], Some stale) /\
  foldRule parts ([], None) = Raise UnboundLocalError.
Proof.
  cbv zeta. split.
  - apply (C5_fold_appends_stale_target _ [] (Some _) "1" "1" 1 1); reflexivity.
  - apply (C5_fold_appends_stale_target _ [] None "1" "1" 1 1); reflexivity.
Defined.

(** With [--fold] alone, a database whose first record has service type
    1 stops the run with [UnboundLocalError]; after a record of another
    type, a record of type 1 is given the folded name of that earlier
    record, which is then reported as a conflict. *)
Example fold_first_record_crashes :
  forall w, (doLines ["1:0:1:4A:6:85:0:0:0:0 ABC abc"]
               (enter (scanned only_fold w ∅ [] ∅))).1
            = Crashed UnboundLocalError.
Proof. reflexivity. Qed.

Example fold_stale_target :
  derived only_fold None
    ["1:0:19:4A:6:85:0:0:0:0 ABC_HD abc"; "1:0:1:4B:6:86:0:0:0:0 SBS sbs"]
  = ["1_0_1_4A_6_85_0_0_0_0.png"; "1_0_1_4A_6_85_0_0_0_0.png"].
Proof. reflexivity. Qed.

(** ** The addfold example *)

(** C6 (as stated) fails: the expansion is not the three targets. *)
Lemma C6_not_three_targets :
  targets only_addfold None abc_news "ABC_News"
  ≠ Ok ["1_0_2_4A_6_1010_0_0_0_0.png"; "1_0_1_4A_6_1010_0_0_0_0.png";
        "1_0_A_4A_6_1010_0_0_0_0.png"].
Proof. vm_compute. discriminate. Qed.

(** C6 (as amended).  Under [addfold] alone the record with reference
    1:0:2:4A:6:1010:0:0:0:0 yields exactly one target, the full one with
    service type 2 as given: type 2 is not folded, and field 3 is 4A,
    whose low four bits are A and not F, so no alias is made. *)
Theorem C6_abc_news_one_target (partsFold : option (list string))
    (serviceName : string) :
  targets only_addfold partsFold abc_news serviceName
  = Ok ["1_0_2_4A_6_1010_0_0_0_0.png"].
Proof. reflexivity. Qed.

(** The alias is made when the low four bits of field 3 are F. *)
Example addfold_alias :
  targets only_addfold None "1:0:2:4F:6:1010:0:0:0:0" "ABC_News"
  = Ok ["1_0_2_4F_6_1010_0_0_0_0.png"; "1_0_A_4F_6_1010_0_0_0_0.png"].
Proof. reflexivity. Qed.

Example addfold_folds :
  targets only_addfold None "1:0:19:4A:6:85:0:0:0:0" "ABC_HD"
  = Ok ["1_0_19_4A_6_85_0_0_0_0.png"; "1_0_1_4A_6_85_0_0_0_0.png"].
Proof. reflexivity. Qed.

(** ** The inventory *)

(** C9 (as amended).  When a scanned image file carries no recognised
    source suffix and its base name is already a key of the inventory,
    the earlier entry is kept and nothing is printed. *)
Theorem C9_unsuffixed_duplicate_keeps_first
    (w : world) (piconName basename : string)
    (files : gmap string (string * ident)) (log : list msg) :
  Py.splitext piconName = (basename, ".png") ->
  picon_isfile w piconName = true ->
  (0 <? Py.rfind "_" basename)
    && bool_decide (Py.from (Py.rfind "_" basename) basename ∈ PICON_SRCS) = false ->
  is_Some (files !! basename) ->
  addPiconFile w piconName (files, log) = Some (files, log).
Proof.
  intros Hext Hfile Hsuffix [old Hold]. unfold addPiconFile.
  rewrite Hext, Hfile, Hsuffix. simpl.
  rewrite bool_decide_eq_false_2; [done|]. by rewrite Hold.
Qed.

(** ** Numbers that cannot be read *)

(** C7 (as amended).  When a record has a numeric field that an active
    rule reads and that is no number, the expansion raises [ValueError]
    and nothing catches it: the run stops there in the state reached
    before the record; nothing is printed for it, no later record is
    processed and the end-of-run clean-up does not take place. *)
Theorem C7_unparsable_number_stops_the_run
    (o : options) (w : world) (s0 sb : LinkMaker)
    (before after : list string) (line servRef serviceName picon : string) :
  init o w = (false, s0) ->
  doLines before (enter s0) = (Finished, sb) ->
  Py.split_ws [] (Py.chars (cleanLine line)) = [servRef; serviceName; picon] ->
  unparsable o servRef = true ->
  run o (before ++ line :: after) w = (Crashed ValueError, sb).
Proof.
  intros Hi Hb HF Hbad. unfold run, makeLinks. rewrite Hi, doLines_app, Hb.
  cbn [doLines]. rewrite (doLine_record _ _ _ _ _ HF).
  destruct (doLines_binding _ _ _ Hb) as [Ho _].
  destruct (init_fields _ _ _ Hi) as (Ho0 & _). simpl in Ho.
  rewrite Ho, Ho0. by rewrite unparsable_raises.
Qed.

(* ================================================================== *)
(** * Examples *)
(* ================================================================== *)





(** C7 (as stated) fails: the run stops with the exception, nothing is
    reported for the record, and the record after it is not processed. *)
Lemma C7_run_crashes :
  let r := run only_addfold unreadable example_world in
  r.1 = Crashed ValueError /\
  output r.2 = [Removing 0] /\
  out (fs r.2) !! "1_0_1_4B_6_86_0_0_0_0.png" = None /\
  out (fs (run only_addfold (drop 1 unreadable) example_world).2)
    !! "1_0_1_4B_6_86_0_0_0_0.png" = Some (Sym "channel_picons/sbs.png").
Proof. cbv zeta. repeat split; vm_compute; reflexivity. Qed.

Lemma C7_unparsable_number_stops_the_run_witness :
  unparsable only_addfold "x:0:1:4A:6:85:0:0:0:0" = true /\
  run only_addfold unreadable example_world
  = (Crashed ValueError, enter (init only_addfold example_world).2).
Proof.
  split; [vm_compute; reflexivity|].
  apply (C7_unparsable_number_stops_the_run only_addfold example_world
           (init only_addfold example_world).2 _ []
           ["1:0:1:4B:6:86:0:0:0:0 SBS sbs"] "x:0:1:4A:6:85:0:0:0:0 ABC_HD abc"
           "x:0:1:4A:6:85:0:0:0:0" "ABC_HD" "abc"); vm_compute; reflexivity.
Defined.



(** C9 (as stated) fails in its last part: the earlier entry is kept,
    but the inventory is built without printing anything. *)
Lemma C9_ambiguity_not_logged :
  _makePiconFileList ambiguous_world
  = Some ({[ "abc" := ("abc_wp.png", (1, 10)) ]}, []).
Proof. vm_compute. reflexivity. Qed.

Lemma C9_unsuffixed_duplicate_keeps_first_witness :
  let files : gmap string (string * ident) := {[ "abc" := ("abc_wp.png", (1, 10)) ]} in
  Py.splitext "abc.png" = ("abc", ".png") /\
  addPiconFile ambiguous_world "abc.png" (files, []) = Some (files, []).
Proof.
  cbv zeta. split; [vm_compute; reflexivity|].
  apply (C9_unsuffixed_duplicate_keeps_first ambiguous_world "abc.png" "abc").
  - vm_compute. reflexivity.
  - vm_compute. reflexivity.
  - vm_compute. reflexivity.
  - exists ("abc_wp.png", (1, 10)). vm_compute. reflexivity.
Defined.


(* ================================================================== *)
(** * Running twice *)
(* ================================================================== *)

Lemma nlink_outside w T i :
  out w !! T = Some (Reg i) -> (1 <= outside w i)%nat -> (1 < nlink w i)%nat.
Proof.
  intros Hn Ho. apply out_refs_pos in Hn. unfold nlink, outside in *. lia.
Qed.

Lemma outside_static w w' i : static w w' -> outside w' i = outside w i.
Proof.
  intros (Hc & _ & He). unfold outside, chan_refs. by rewrite Hc, He.
Qed.

Lemma is_link_wanted h : is_link (wanted h) = true.
Proof. by destruct h. Qed.

(** A link that a step leaves in place was a link of the same kind
    before the step. *)
Lemma refType_link_back w w' T :
  static w w' -> out w' !! T = out w !! T ->
  (forall i, (nlink w' i <= nlink w i)%nat \/
             exists pn, chan_lookup w pn = Some (Reg i)) ->
  is_link (refType w' T) = true ->
  refType w T = refType w' T /\ getLinkRef w T = getLinkRef w' T.
Proof.
  intros Hs Ho Hnl Hl. split; [|symmetry; by apply getLinkRef_frame].
  destruct (out w !! T) as [[i|t|i]|] eqn:Hn.
  - rewrite (refType_Reg _ _ _ Hn).
    rewrite (refType_Reg _ _ _ Ho) in Hl |- *.
    destruct (1 <? nlink w' i)%nat eqn:E'; [|done]. apply Nat.ltb_lt in E'.
    assert (1 < nlink w i)%nat as E.
    { destruct (Hnl i) as [?|[pn Hpn]]; [lia|]. by eapply nlink_icon. }
    apply Nat.ltb_lt in E. by rewrite E.
  - by rewrite (refType_Sym _ _ _ Hn), (refType_Sym _ _ _ Ho).
  - by rewrite (refType_Dir _ _ _ Hn), (refType_Dir _ _ _ Ho).
  - by rewrite (refType_None _ _ Hn), (refType_None _ _ Ho).
Qed.

Lemma reconciled_link_back servRef picon T' s s' T :
  reconciled servRef picon T' s s' -> T ≠ T' ->
  is_link (refType (fs s') T) = true ->
  refType (fs s) T = refType (fs s') T /\
  getLinkRef (fs s) T = getLinkRef (fs s') T.
Proof.
  intros H Hne. destruct (reconciled_static _ _ _ _ _ H) as (_ & _ & Hst & _).
  destruct (reconciled_other _ _ _ _ _ T H Hne) as (Ho & _).
  intros Hl. apply refType_link_back; [done|done| |done].
  intros i. by eapply reconciled_nlink.
Qed.

Lemma removeEach_link_back names s T :
  is_link (refType (fs (removeEach names s)) T) = true ->
  out (fs (removeEach names s)) !! T = out (fs s) !! T /\
  refType (fs s) T = refType (fs (removeEach names s)) T /\
  getLinkRef (fs s) T = getLinkRef (fs (removeEach names s)) T.
Proof.
  intros Hl.
  destruct (removeEach_same names s) as (_&_&_&_&_&_&_&Hst).
  destruct (removeEach_effects names s) as (_ & _ & Hnl).
  assert (Ho : out (fs (removeEach names s)) !! T = out (fs s) !! T).
  { pose proof (removeEach_out names s T) as E. destruct (decide (T ∈ names)); [|done].
    destruct (out (fs s) !! T) as [[i|t|i]|] eqn:Hn; try done.
    - rewrite (refType_None _ _ E) in Hl. done.
    - rewrite (refType_None _ _ E) in Hl. done. }
  split; [done|]. apply refType_link_back; [done|done| |done].
  intros i. left. apply Hnl.
Qed.

(** ** The first run *)

Lemma orig_shrinks servRef picon T' s s' T id :
  reconciled servRef picon T' s s' ->
  origPiconLinks s' !! T = Some id -> origPiconLinks s !! T = Some id.
Proof.
  intros H. destruct (decide (T = T')) as [->|Hne].
  2:{ destruct (reconciled_other _ _ _ _ _ T H Hne) as (_ & -> & _). done. }
  destruct H as [| | | | | | pn pr s2 w ? ? ? ? Hc Hl | | pn pr s2 ? ? ? ? Hc Hl];
    split_placeholder; simpl; try done;
    try (by rewrite lookup_delete_eq);
    inv_cleared Hc; rewrite Corig; simpl; by rewrite lookup_delete_eq.
Qed.

(** A baseline link is still classified as the wanted kind. *)
Lemma baseline_kind o w a T id :
  consistent a -> opts a = o -> static w (fs a) -> anchored o w a ->
  origPiconLinks a !! T = Some id ->
  refType (fs a) T = wanted (o_useHardLinks o).
Proof.
  intros (_ & Horig & _) Ho Hst Hout HT.
  destruct (Horig _ _ HT) as [Hn _]. rewrite Ho in Hn.
  destruct (o_useHardLinks o) eqn:Hh; simpl.
  - rewrite (refType_Reg _ _ _ Hn).
    assert (1 < nlink (fs a) id)%nat as E.
    { eapply nlink_outside; [done|]. rewrite (outside_static _ _ _ Hst). eauto. }
    apply Nat.ltb_lt in E. by rewrite E.
  - destruct Hn as [t Hn]. by eapply refType_Sym.
Qed.

Lemma marks_plain_reconciled o w servRef picon T' a a' :
  reconciled servRef picon T' a a' ->
  consistent a -> opts a = o -> static w (fs a) -> anchored o w a ->
  marks_plain a -> marks_plain a'.
Proof.
  intros H Hc Ho Hst Hout Hm T HT.
  destruct (decide (T ∈ overrides a)) as [Hin|Hnew].
  { destruct (Hm T Hin) as [i Hi]. exists i. by eapply plain_file_reconciled. }
  assert (Hfile : T = T' /\ a' = emit (OverRidden picon T')
                    (set_overrides ({[T']} ∪ overrides a) a) /\
                  piconLinks a !! T' = None /\ refType (fs a) T' = IS_FILE).
  { destruct H as [| | | | | | pn pr s2 w0 ? ? ? ? Hcl Hl | | pn pr s2 ? ? ? ? Hcl Hl];
      split_placeholder; simpl in HT; try done;
      try (inv_cleared Hcl; rewrite Cover in HT; done).
    apply elem_of_union in HT as [HT|HT]; [|done].
    apply elem_of_singleton in HT. done. }
  destruct Hfile as (-> & -> & Hq & Hf).
  apply refType_FILE in Hf as (i & Hn & Hl). exists i. repeat split; try done.
  simpl. destruct (origPiconLinks a !! T') as [id|] eqn:Hid; [|done].
  pose proof (baseline_kind _ _ _ _ _ Hc Ho Hst Hout Hid) as Hk.
  rewrite (refType_Reg _ _ _ Hn) in Hk.
  destruct (1 <? nlink (fs a) i)%nat eqn:E.
  - apply Nat.ltb_lt in E. lia.
  - by destruct (o_useHardLinks o).
Qed.

Lemma links_known_reconciled o servRef picon T' a a' :
  reconciled servRef picon T' a a' ->
  consistent a -> opts a = o ->
  links_known o a -> links_known o a'.
Proof.
  intros H Hc Ho Hk T Hpng Hl.
  destruct (decide (T = T')) as [->|Hne].
  2:{ destruct (reconciled_link_back _ _ _ _ _ T H Hne Hl) as [E1 E2].
      destruct (reconciled_other _ _ _ _ _ T H Hne) as (_ & E3 & E4 & _).
      rewrite <- E1, <- E2, E3, E4. apply Hk; [done|]. by rewrite E1. }
  pose proof (consistent_reconciled _ _ _ _ _ H Hc) as Hc'.
  destruct (reconciled_static _ _ _ _ _ H) as (Ho' & _).
  revert Hl Hc'.
  destruct H as [| | | | | | pn pr s2 w0 ? ? ? ? Hcl Hl' | pn pr ? ? ? ? Hs Hrm
                | pn pr s2 ? ? ? ? Hcl Hl'];
    split_placeholder; simpl; intros Hl Hc'; try (by apply Hk).
  - (* confirmed *)
    destruct (Hk T' Hpng Hl) as (? & ? & _). split; [done|]. split; [done|].
    right. rewrite lookup_insert_eq. eauto.
  - (* made *)
    destruct (consistent_claimed _ T' picon Hc') as (pn' & id & _ & Hkind & Hid).
    { simpl. apply lookup_insert_eq. }
    simpl in Hkind, Hid. inv_cleared Hcl. rewrite Copts in Hkind. simpl in Hkind.
    rewrite Ho in Hkind. split; [done|]. split; [by rewrite Hid|].
    right. rewrite lookup_insert_eq. eauto.
  - (* the removal failed: a directory *)
    apply os_remove_None_Dir in Hrm as [i Hi]; [|done].
    by rewrite (refType_Dir _ _ _ Hi) in Hl.
  - apply os_remove_None_Dir in Hrm as [i Hi]; [|done].
    by rewrite (refType_Dir _ _ _ Hi) in Hl.
  - exfalso. eapply (consistent_link_succeeds a T' s2 pn pr picon); eassumption.
  - exfalso. eapply (consistent_link_succeeds a T' s2 pn pr picon); eassumption.
Qed.

Lemma steady_reconcile o w servRef picon T a :
  is_png T = true -> steady o w a -> steady o w (reconcile servRef picon T a).
Proof.
  intros Hpng (Hc & Ho & Hst & Hout & Hm & Hk & Hp).
  pose proof (reconcile_reconciled servRef picon T a) as H.
  destruct (reconciled_static _ _ _ _ _ H) as (Ho' & _ & Hst' & _).
  split; [by eapply consistent_reconciled|].
  split; [congruence|].
  split; [by eapply static_trans|].
  split; [|split; [|split]].
  - intros Hh T0 id HT. apply (Hout Hh T0). by eapply orig_shrinks.
  - by eapply marks_plain_reconciled.
  - by eapply links_known_reconciled.
  - intros T0 HT. destruct (decide (T0 = T)) as [->|Hne]; [done|].
    apply Hp. by destruct (reconciled_other _ _ _ _ _ T0 H Hne) as (_ & _ & <- & _).
Qed.

Lemma enter_init o w a0 : init o w = (false, a0) -> enter a0 = a0.
Proof.
  intros Hi. destruct (init_fields _ _ _ Hi) as (_ & Hq & _).
  apply init_inv in Hi
    as [(?&_)|(_ & files & log & orig & wrong & _ & _ & E)]; [done|].
  assert (Hm : linksMade a0 = 0%nat /\ servRefPartsFold a0 = None).
  { subst a0. cbv zeta.
    destruct (_clean_same wrong (scanned o w files log orig))
      as (_&_&_&_&_&E6&E7&_).
    destruct (clean_same (_clean wrong (scanned o w files log orig)))
      as (_&_&_&_&_&F6&F7&_).
    destruct (o_cleanAll o); rewrite ?F6, ?F7, ?E6, ?E7; done. }
  destruct Hm as [Hm Hf]. clear E. destruct a0. simpl in *. unfold enter. simpl.
  by rewrite Hq, Hm, Hf.
Qed.

Section FirstRun.

Variables (o : options) (w : world).
Hypothesis no_cleanAll : o_cleanAll o = false.
Hypothesis hard_links_anchored :
  o_useHardLinks o = true ->
  forall T i, out w !! T = Some (Reg i) -> (1 < nlink w i)%nat ->
              (1 <= outside w i)%nat.

Lemma steady_init a0 : init o w = (false, a0) -> steady o w a0.
Proof.
  intros Hi. pose proof (consistent_init _ _ _ Hi) as Hc.
  destruct (init_fields _ _ _ Hi) as (Ho & Hq & Hov & Hst & _).
  split; [done|]. split; [done|]. split; [done|].
  apply init_inv in Hi
    as [(?&_)|(_ & files & log & orig & wrong & _ & Hscan & ->)]; [done|].
  rewrite no_cleanAll in *. cbv zeta in *.
  destruct (scanLinks_spec _ _ _ _ _ _ _ Hscan) as (Horig & Hwrong & Href).
  destruct (_clean_same wrong (scanned o w files log orig))
    as (_&_&Eo&_&_&_&_&_).
  split; [|split; [|split]].
  - intros Hh T id. rewrite Eo. simpl. rewrite Horig. rewrite Hh.
    destruct (decide _) as [(_ & _ & Hk)|]; [|by rewrite lookup_empty].
    intros Hid. simpl in Hk. apply refType_HLINK in Hk as (i & Hn & Hl & Hr).
    assert (i = id) as -> by congruence. by eapply hard_links_anchored.
  - intros T HT. rewrite Hov in HT. by apply not_elem_of_empty in HT.
  - intros T Hpng Hl. unfold _clean in Hl |- *.
    destruct (removeEach_link_back _ _ _ Hl) as (En & Ek & Er).
    simpl in En, Ek, Er. rewrite <- Ek, <- Er. rewrite <- Ek in Hl.
    assert (Hin : T ∈ listdir w).
    { apply listdir_spec. destruct (out w !! T) eqn:E; [eauto|].
      by rewrite (refType_None _ _ E) in Hl. }
    assert (Hk : refType w T = wanted (o_useHardLinks o)).
    { destruct (decide (refType w T = wanted (o_useHardLinks o))) as [|Hno]; [done|].
      exfalso. assert (Hw : T ∈ wrong) by (apply Hwrong; right; done).
      pose proof (removeEach_out wrong
        (emit (Removing (length wrong)) (scanned o w files log orig)) T) as E.
      rewrite decide_True in E by done. simpl in E, En. rewrite En in E.
      destruct (out w !! T) as [[i|t|i]|] eqn:E0; try done.
      - by rewrite (refType_Dir _ _ _ E0) in Hl.
      - by rewrite (refType_None _ _ E0) in Hl. }
    split; [done|]. split; [by apply Href|].
    left. destruct (removeEach_same wrong
      (emit (Removing (length wrong)) (scanned o w files log orig)))
      as (_&_&->&_). simpl.
    rewrite Horig, decide_True by done. by apply Href.
  - intros T. rewrite Hq. rewrite lookup_empty. by intros [? ?].
Qed.

Lemma steady_doLines lines a :
  (forall T, T ∈ derived (opts a) (servRefPartsFold a) lines -> is_png T = true) ->
  steady o w a -> steady o w (doLines lines a).2.
Proof.
  intros Hd Hs.
  apply (doLines_invariant (steady o w) (fun T => is_png T = true)).
  - done.
  - done.
  - intros s0 servRef picon T HT Hs0. by apply steady_reconcile.
  - done.
  - done.
Qed.

End FirstRun.

(** ** The second run *)

Lemma reconcile_Dir_forward servRef picon T' s T i :
  out (fs s) !! T = Some (Dir i) ->
  out (fs (reconcile servRef picon T' s)) !! T = Some (Dir i).
Proof.
  intros Hd. pose proof (reconcile_reconciled servRef picon T' s) as H.
  destruct (decide (T = T')) as [->|Hne].
  2:{ by destruct (reconciled_other _ _ _ _ _ T H Hne) as (-> & _). }
  destruct H as [| | | | | | pn pr s2 w ? ? ? ? Hc Hl | | pn pr s2 ? ? ? ? Hc Hl];
    split_placeholder; simpl; try done;
    exfalso; by eapply (cleared_not_Dir _ _ _ i Hc).
Qed.

Lemma overrides_grow servRef picon T' s T :
  T ∈ overrides s -> T ∈ overrides (reconcile servRef picon T' s).
Proof.
  intros Hin.
  destruct (reconciled_overrides _ _ _ _ _ (reconcile_reconciled servRef picon T' s))
    as [->|(_ & -> & _)]; [done|].
  rewrite elem_of_union. tauto.
Qed.

Lemma ahead_back_reconcile w1 orig2 servRef picon T s :
  ahead w1 orig2 (reconcile servRef picon T s) -> ahead w1 orig2 s.
Proof.
  intros (H1 & H2 & H3).
  destruct (reconciled_static _ _ _ _ _ (reconcile_reconciled servRef picon T s))
    as (_ & Ef & _).
  split; [|split].
  - intros T0 q Hq. rewrite <- Ef. apply H1. by apply claims_persist_reconcile.
  - intros T0 HT. apply H2. by apply overrides_grow.
  - intros T0 i Hd. apply (H3 T0 i). by apply reconcile_Dir_forward.
Qed.

Lemma ahead_back_reconcileAll w1 orig2 servRef picon servRefs s :
  ahead w1 orig2 (reconcileAll servRef picon servRefs s) -> ahead w1 orig2 s.
Proof.
  revert s. induction servRefs as [|srp rest IH]; intros s; simpl; [done|].
  intros H. eapply ahead_back_reconcile, IH, H.
Qed.

Lemma ahead_back_doLine w1 orig2 line s s' :
  doLine line s = Ok s' -> ahead w1 orig2 s' -> ahead w1 orig2 s.
Proof.
  intros Hl. apply doLine_Ok in Hl as (ts & pf & _ & Hcase).
  destruct Hcase as [(_ & _ & [->|[[l ->]|[l ->]]])
                    |(servRef & picon & servRefs & _ & ->)]; try done.
  intros H. by apply ahead_back_reconcileAll in H.
Qed.

Lemma ahead_back_doLines w1 orig2 lines s :
  ahead w1 orig2 (doLines lines s).2 -> ahead w1 orig2 s.
Proof.
  revert s. induction lines as [|line rest IH]; intros s; simpl; [done|].
  destruct (doLine line s) as [s'|e] eqn:Hl; [|done].
  intros H. eapply ahead_back_doLine; [done|]. by apply IH.
Qed.

Lemma wanted_not_FILE h : wanted h ≠ IS_FILE.
Proof. by destruct h. Qed.

(** What a step of the first run does to the claims. *)
Lemma first_run_cases servRef picon T a :
  consistent a ->
  (piconLinks (reconcile servRef picon T a) = piconLinks a /\
   (is_Some (piconLinks a !! T) \/
    T ∈ overrides (reconcile servRef picon T a) \/
    piconFiles a !! picon = None \/
    exists i, out (fs (reconcile servRef picon T a)) !! T = Some (Dir i))) \/
  (piconLinks a !! T = None /\
   piconLinks (reconcile servRef picon T a) = <[T := picon]> (piconLinks a) /\
   is_Some (piconFiles a !! picon)).
Proof.
  intros Hc.
  destruct (reconcile_reconciled servRef picon T a)
    as [| | | | | | pn pr s2 w ? ? ? ? Hcl Hl | pn pr ? ? ? ? Hs Hrm
       | pn pr s2 ? ? ? ? Hcl Hl].
  - left. split; [done|]. left. eauto.
  - left. split; [done|]. left. eauto.
  - left. split; [done|]. right. left. simpl.
    rewrite elem_of_union, elem_of_singleton. tauto.
  - left. split; [done|]. right. by left.
  - left. split; [by destruct (placeholder picon)|]. right. right. by left.
  - right. split; [done|]. split; [done|]. eauto.
  - right. split; [done|]. inv_cleared Hcl. simpl. rewrite Clinks. split; [done|]. eauto.
  - left. apply os_remove_None_Dir in Hrm as [i Hi]; [|done].
    split; [by destruct (placeholder picon)|]. right. right. right. exists i.
    by destruct (placeholder picon).
  - exfalso. by eapply (consistent_link_succeeds a T s2 pn pr picon).
Qed.

Section SecondRun.

Variables (h : bool) (w1 : world) (orig2 : gmap string ident).
Hypothesis orig2_sound :
  forall T id, orig2 !! T = Some id -> refType w1 T = wanted h.

(** A step of the second run on a target that the first run left
    unclaimed, or had claimed before, changes nothing. *)
Lemma second_run_idle servRef picon T b :
  fs b = w1 ->
  (forall T0, T0 ∈ overrides b -> refType w1 T0 = IS_FILE) ->
  (forall id, origPiconLinks b !! T = Some id -> refType w1 T = wanted h) ->
  (is_Some (piconLinks b !! T) \/
   (path_exists w1 T = true /\ refType w1 T = IS_FILE) \/
   piconFiles b !! picon = None \/
   exists i, out w1 !! T = Some (Dir i)) ->
  fs (reconcile servRef picon T b) = fs b /\
  trace (reconcile servRef picon T b) = trace b /\
  linksMade (reconcile servRef picon T b) = linksMade b /\
  piconLinks (reconcile servRef picon T b) = piconLinks b /\
  (forall T0, origPiconLinks (reconcile servRef picon T b) !! T0
              = origPiconLinks b !! T0) /\
  (forall T0, T0 ∈ overrides (reconcile servRef picon T b) ->
              refType w1 T0 = IS_FILE).
Proof.
  intros Hfs Hmarks Horig Hidle.
  assert (Hnot : ~ overridden b T -> piconLinks b !! T = None ->
                 is_Some (piconFiles b !! picon) ->
                 exists i, out w1 !! T = Some (Dir i)).
  { intros Hno Hq [x Hp]. destruct Hidle as [[? ?]|[[He Hf]|[?|?]]].
    - congruence.
    - exfalso. apply Hno. split; [by rewrite Hfs|]. right. by rewrite Hfs.
    - congruence.
    - done. }
  destruct (reconcile_reconciled servRef picon T b)
    as [| | | | | | pn pr s2 w ? ? ? ? Hcl Hl | pn pr ? ? ? ? Hs Hrm
       | pn pr s2 ? ? ? ? Hcl Hl]; simpl.
  - done.
  - done.
  - repeat split; try done. intros T0 [HT%elem_of_singleton|HT]%elem_of_union.
    + subst T0. by rewrite <- Hfs.
    + by apply Hmarks.
  - done.
  - by destruct (placeholder picon).
  - exfalso. destruct Hnot as [i Hi]; [done|done|eauto|].
    pose proof (Horig _ ltac:(eassumption)) as Hk.
    rewrite <- Hfs in Hi. rewrite <- Hfs, (refType_Dir _ _ _ Hi) in Hk.
    by destruct h.
  - exfalso. destruct Hnot as [i Hi]; [done|done|eauto|].
    rewrite <- Hfs in Hi. by apply (cleared_not_Dir _ _ _ i Hcl).
  - destruct Hnot as [i Hi]; [done|done|eauto|].
    assert (Hnone : origPiconLinks b !! T = None).
    { destruct (origPiconLinks b !! T) as [id|] eqn:E; [|done].
      pose proof (Horig _ eq_refl) as Hk.
      rewrite <- Hfs in Hi. rewrite <- Hfs, (refType_Dir _ _ _ Hi) in Hk.
      by destruct h. }
    rewrite (unbaseline_absent _ _ Hnone). by destruct (placeholder picon).
  - exfalso. destruct Hnot as [i Hi]; [done|done|eauto|].
    rewrite <- Hfs in Hi. by apply (cleared_not_Dir _ _ _ i Hcl).
Qed.

(** A step of the second run on a target that the first run claims at
    this point confirms the link it finds. *)
Lemma second_run_confirms servRef picon T b piconName id :
  fs b = w1 ->
  (forall T0, T0 ∈ overrides b -> refType w1 T0 = IS_FILE) ->
  piconLinks b !! T = None ->
  origPiconLinks b !! T = Some id ->
  piconFiles b !! picon = Some (piconName, id) ->
  refType w1 T = wanted h ->
  reconcile servRef picon T b = claim picon piconName T (unbaseline T b).
Proof.
  intros Hfs Hmarks Hq Ho Hp Hk.
  destruct (reconcile_reconciled servRef picon T b)
    as [| | ? ? ? Hf | Hq' Hex Hin | | pn pr Hq' Hno Hp' Ho' | pn pr s2 w ? ? ? ? Hcl Hl
       | pn pr ? ? ? ? Hs Hrm | pn pr s2 ? ? ? ? Hcl Hl]; try congruence.
  - exfalso. rewrite Hfs, Hk in Hf. by eapply wanted_not_FILE.
  - exfalso. apply Hmarks in Hin. rewrite Hk in Hin. by eapply wanted_not_FILE.
Qed.

Lemma twin_reconcile servRef picon T a b :
  consistent a ->
  twin w1 orig2 a b ->
  ahead w1 orig2 (reconcile servRef picon T a) ->
  twin w1 orig2 (reconcile servRef picon T a) (reconcile servRef picon T b).
Proof.
  intros Hc (To & Tf & Tb & Tfs & Ttr & Tm & Tq & Torig & Tov) (A1 & A2 & A3).
  destruct (reconciled_static _ _ _ _ _ (reconcile_reconciled servRef picon T a))
    as (Eo & Ef & _ & Eb).
  destruct (reconciled_static _ _ _ _ _ (reconcile_reconciled servRef picon T b))
    as (Eo' & Ef' & _ & Eb').
  assert (Horig : forall id, origPiconLinks b !! T = Some id ->
                             refType w1 T = wanted h).
  { intros id. rewrite Torig. destruct (piconLinks a !! T); [done|].
    apply orig2_sound. }
  destruct (first_run_cases servRef picon T a Hc) as [[Eq Hidle]|(Hq & Eq & Hp)].
  - (* the first run leaves the claims as they are *)
    destruct (second_run_idle servRef picon T b Tfs Tov Horig)
      as (I1 & I2 & I3 & I4 & I5 & I6).
    { destruct Hidle as [?|[?|[?|[i Hi]]]].
      - left. by rewrite Tq.
      - right. left. by apply A2.
      - right. right. left. by rewrite Tf.
      - right. right. right. exists i. by apply A3. }
    unfold twin. rewrite Eo, Ef, Eb, Eo', Ef', Eb', I1, I2, I3, I4, Eq.
    repeat split; try done. intros T0. by rewrite I5.
  - (* the first run claims the target *)
    destruct (A1 T picon) as (pn & id & Hp' & Ho2).
    { rewrite Eq. apply lookup_insert_eq. }
    rewrite Ef in Hp'.
    rewrite (second_run_confirms servRef picon T b pn id); try done.
    + unfold twin. rewrite Eo, Ef, Eb, Eq. simpl.
      repeat split; try done.
      * by rewrite Tq.
      * intros T0. destruct (decide (T0 = T)) as [->|Hne].
        -- by rewrite lookup_delete_eq, lookup_insert_eq.
        -- rewrite lookup_delete_ne, lookup_insert_ne by done. apply Torig.
    + by rewrite Tq.
    + by rewrite Torig, Hq.
    + by rewrite Tf.
    + by eapply orig2_sound.
Qed.

Lemma twin_emit m1 m2 a b :
  twin w1 orig2 a b -> twin w1 orig2 (emit m1 a) (emit m2 b).
Proof. done. Qed.

Lemma twin_binding pf a b :
  twin w1 orig2 a b ->
  twin w1 orig2 (set_servRefPartsFold pf a) (set_servRefPartsFold pf b).
Proof.
  intros (To & Tf & Tb & Tfs & Ttr & Tm & Tq & Torig & Tov).
  by repeat split.
Qed.

Lemma ahead_emit m a : ahead w1 orig2 (emit m a) <-> ahead w1 orig2 a.
Proof. done. Qed.

Lemma twin_reconcileAll servRef picon servRefs a b :
  consistent a ->
  twin w1 orig2 a b ->
  ahead w1 orig2 (reconcileAll servRef picon servRefs a) ->
  twin w1 orig2 (reconcileAll servRef picon servRefs a)
                (reconcileAll servRef picon servRefs b).
Proof.
  revert a b. induction servRefs as [|srp rest IH]; intros a b Hc Ht Ha; [done|].
  cbn [reconcileAll] in *. apply IH; [by apply consistent_reconcile| |done].
  apply twin_reconcile; [done|done|]. by eapply ahead_back_reconcileAll.
Qed.

Lemma twin_doLine line a a' b :
  doLine line a = Ok a' ->
  consistent a ->
  twin w1 orig2 a b ->
  ahead w1 orig2 a' ->
  exists b', doLine line b = Ok b' /\ twin w1 orig2 a' b'.
Proof.
  intros Hd Hc Ht Ha. pose proof Ht as (To & _ & Tb & _).
  unfold doLine in *. rewrite To, Tb.
  destruct (String.eqb (cleanLine line) "").
  { injection Hd as <-. eauto. }
  destruct (3 <? length (Py.split_ws [] (Py.chars (cleanLine line))))%nat.
  { injection Hd as <-. eexists. split; [done|]. by apply twin_emit. }
  destruct (Py.split_ws [] (Py.chars (cleanLine line)))
    as [|servRef [|serviceName [|picon [|]]]];
    try (injection Hd as <-; eexists; split; [done|]; by apply twin_emit).
  destruct (expand (opts a) (servRefPartsFold a) servRef serviceName)
    as [[servRefs pf]|e]; cbn [rbind] in *; [|done].
  injection Hd as <-. eexists. split; [done|].
  apply twin_reconcileAll; [by apply consistent_binding|by apply twin_binding|done].
Qed.

Lemma twin_doLines lines a a1 b :
  doLines lines a = (Finished, a1) ->
  consistent a ->
  twin w1 orig2 a b ->
  ahead w1 orig2 a1 ->
  exists b1, doLines lines b = (Finished, b1) /\ twin w1 orig2 a1 b1.
Proof.
  revert a b. induction lines as [|line rest IH]; intros a b Hd Hc Ht Ha.
  { injection Hd as <-. eauto. }
  cbn [doLines] in *. destruct (doLine line a) as [a'|e] eqn:El; [|done].
  assert (Hc' : consistent a').
  { pose proof (consistent_doLines [line] a Hc) as Hx.
    cbn [doLines] in Hx. by rewrite El in Hx. }
  assert (Ha' : ahead w1 orig2 a').
  { apply (ahead_back_doLines w1 orig2 rest). by rewrite Hd. }
  destruct (twin_doLine line a a' b El Hc Ht Ha') as (b' & -> & Ht').
  by apply (IH a' b').
Qed.

End SecondRun.

(** ** Between the runs *)

(** The inventory is read from the directory of the icons only. *)
Lemma addPiconFile_static w w' piconName acc :
  static w w' -> addPiconFile w' piconName acc = addPiconFile w piconName acc.
Proof.
  intros Hs. unfold addPiconFile, picon_isfile, picon_getLinkRef.
  by rewrite (static_chan_lookup _ _ piconName Hs).
Qed.

Lemma addPiconFiles_static w w' names acc :
  static w w' -> addPiconFiles w' names acc = addPiconFiles w names acc.
Proof.
  intros Hs. revert acc. induction names as [|n rest IH]; intros acc; [done|].
  cbn [addPiconFiles]. rewrite (addPiconFile_static _ _ _ _ Hs).
  destruct (addPiconFile w n acc); [apply IH|done].
Qed.

Lemma _makePiconFileList_static w w' :
  static w w' -> _makePiconFileList w' = _makePiconFileList w.
Proof.
  intros Hs. unfold _makePiconFileList. pose proof Hs as (-> & _).
  destruct (chan w); [|done]. by apply addPiconFiles_static.
Qed.

(** The scan goes through when every link can be followed. *)
Lemma scanLinks_total w h names orig0 wrong0 :
  (forall T, T ∈ names -> is_png T = true -> is_link (refType w T) = true ->
     is_Some (getLinkRef w T)) ->
  is_Some (scanLinks w h names orig0 wrong0).
Proof.
  revert orig0 wrong0. induction names as [|name rest IH]; intros orig0 wrong0 H;
    cbn [scanLinks]; [by eexists|].
  assert (Hrest : forall o' w', is_Some (scanLinks w h rest o' w')).
  { intros o' w'. apply IH. intros T HT. apply H. by right. }
  destruct (is_png name) eqn:Hpng; [|done].
  destruct (is_link (refType w name)) eqn:Hl; [|done].
  destruct (H name) as [r ->]; [by left|done|done|].
  by destruct (Bool.eqb _ _).
Qed.

Lemma clean_link_back a T :
  is_link (refType (fs (clean a)) T) = true ->
  out (fs (clean a)) !! T = out (fs a) !! T /\
  refType (fs a) T = refType (fs (clean a)) T /\
  getLinkRef (fs a) T = getLinkRef (fs (clean a)) T.
Proof. apply removeEach_link_back. Qed.

Lemma clean_out a T :
  out (fs (clean a)) !! T =
  if decide (is_Some (origPiconLinks a !! T))
  then match out (fs a) !! T with
       | Some (Dir i) => Some (Dir i)
       | _ => None
       end
  else out (fs a) !! T.
Proof.
  unfold clean, _clean. simpl. rewrite removeEach_out. simpl.
  destruct (decide (T ∈ _)) as [Hin|Hin]; apply keys_spec in Hin || rewrite keys_spec in Hin.
  - by rewrite decide_True.
  - by rewrite decide_False.
Qed.

(** After the clean-up at the end of the first run, a scan of the output
    directory goes through, finds no link of the wrong kind, lists as
    baseline links the claimed targets and nothing else, and the state
    [a] at the end of the loop agrees with it. *)
Lemma rescan o w a :
  steady o w a ->
  exists orig2,
    scanLinks (fs (clean a)) (o_useHardLinks o) (listdir (fs (clean a))) ∅ []
      = Some (orig2, []) /\
    (forall T id, orig2 !! T = Some id ->
       refType (fs (clean a)) T = wanted (o_useHardLinks o)) /\
    (forall T id, orig2 !! T = Some id -> is_Some (piconLinks a !! T)) /\
    ahead (fs (clean a)) orig2 a.
Proof.
  intros (Hc & Ho & Hst & Hanch & Hm & Hk & Hp).
  set (h := o_useHardLinks o). set (w1 := fs (clean a)).
  assert (Hlink : forall T, is_png T = true -> is_link (refType w1 T) = true ->
     refType w1 T = wanted h /\ is_Some (getLinkRef w1 T) /\
     is_Some (piconLinks a !! T)).
  { intros T Hpng Hl. destruct (clean_link_back a T Hl) as (En & Ek & Er).
    fold w1 in En, Ek, Er. rewrite <- Ek in Hl.
    destruct (Hk T Hpng Hl) as (K1 & K2 & K3).
    split; [by rewrite <- Ek|]. split; [by rewrite <- Er|].
    destruct K3 as [K3|K3]; [|done]. exfalso.
    pose proof (clean_out a T) as E. fold w1 in E. rewrite decide_True in E by done.
    rewrite En in E.
    destruct (out (fs a) !! T) as [[i|t|i]|] eqn:E0; try done.
    - by rewrite (refType_Dir _ _ _ E0) in Hl.
    - by rewrite (refType_None _ _ E0) in Hl. }
  destruct (scanLinks_total w1 h (listdir w1) ∅ []) as [[orig2 wrong] Hscan].
  { intros T _ Hpng Hl. by apply Hlink. }
  destruct (scanLinks_spec _ _ _ _ _ _ _ Hscan) as (Horig & Hwrong & _).
  assert (wrong = []) as ->.
  { destruct wrong as [|x l]; [done|]. exfalso.
    destruct (proj1 (Hwrong x)) as [Hx|(_ & Hpng & Hl & Hne)]; [by left| |].
    - by apply not_elem_of_nil in Hx.
    - by destruct (Hlink x Hpng Hl). }
  exists orig2. split; [done|]. split; [|split].
  - intros T id. rewrite Horig.
    destruct (decide _) as [(_ & _ & E)|]; [done|by rewrite lookup_empty].
  - intros T id. rewrite Horig.
    destruct (decide _) as [(_ & Hpng & E)|]; [|by rewrite lookup_empty].
    intros _. apply Hlink; [done|]. rewrite E. apply is_link_wanted.
  - split; [|split].
    + intros T q Hq. destruct (claimed_clean a T q Hc Hq) as (pn & id & Hf & Ek & Er).
      rewrite Ho in Ek. fold h w1 in Ek, Er.
      exists pn, id. split; [done|]. rewrite Horig, decide_True; [done|].
      split; [|split; [by apply Hp|done]].
      apply listdir_spec. destruct (out w1 !! T) eqn:E; [eauto|].
      rewrite (refType_None _ _ E) in Ek. by destruct h.
    + intros T HT. destruct (Hm T HT) as (i & Hn & Hnl & Horg & _).
      pose proof (clean_out a T) as E. fold w1 in E.
      rewrite decide_False in E by (rewrite Horg; by intros [? ?]).
      rewrite Hn in E.
      split; [by eapply path_exists_Reg|].
      rewrite (refType_Reg _ _ _ E).
      destruct (removeEach_effects (map_to_list (origPiconLinks a)).*1
                  (emit (Removing (length (map_to_list (origPiconLinks a)).*1)) a))
        as (_ & _ & Hle).
      specialize (Hle i). change (nlink w1 i <= nlink (fs a) i)%nat in Hle.
      destruct (1 <? nlink w1 i)%nat eqn:El; [|done].
      apply Nat.ltb_lt in El. lia.
    + intros T i Hn. pose proof (clean_out a T) as E. fold w1 in E.
      rewrite Hn in E. by destruct (decide _).
Qed.

(** ** What the second run reports *)

Lemma quiet_reconciled servRef picon T s s' :
  reconciled servRef picon T s s' ->
  Forall quiet (output s) -> Forall quiet (output s').
Proof.
  intros H Hq.
  destruct H as [| | | | | | pn pr s2 w ? ? ? ? Hc Hl | | pn pr s2 ? ? ? ? Hc Hl];
    split_placeholder; simpl; try done;
    try (inv_cleared Hc; rewrite Coutput; simpl);
    rewrite ?Forall_app; repeat split; try done; by repeat constructor.
Qed.

Lemma quiet_doLines lines s :
  Forall quiet (output s) -> Forall quiet (output (doLines lines s).2).
Proof.
  intros Hq.
  apply (doLines_invariant (fun s => Forall quiet (output s)) (fun _ => True)).
  - intros s0 line H. split; simpl; rewrite Forall_app; split; try done;
      by repeat constructor.
  - done.
  - intros s0 servRef picon T _ H.
    eapply quiet_reconciled; [apply reconcile_reconciled|done].
  - done.
  - done.
Qed.

Lemma init_steps o w files log orig wrong :
  _makePiconFileList w = Some (files, log) ->
  scanLinks w (o_useHardLinks o) (listdir w) ∅ [] = Some (orig, wrong) ->
  init o w = (false, let s1 := _clean wrong (scanned o w files log orig) in
                     if o_cleanAll o then clean s1 else s1).
Proof.
  intros Hf Hs. unfold init. rewrite Hf. unfold _cleanWrongLinks.
  cbn [fs opts origPiconLinks]. rewrite Hs.
  assert (Ho : opts (_clean wrong (scanned o w files log orig)) = o).
  { unfold _clean. by destruct (removeEach_same wrong
      (emit (Removing (length wrong)) (scanned o w files log orig))) as (->&_). }
  change (set_origPiconLinks orig _) with (scanned o w files log orig).
  cbv zeta. by rewrite Ho.
Qed.

Lemma clean_nothing s :
  origPiconLinks s = ∅ -> clean s = set_origPiconLinks ∅ (emit (Removing 0) s).
Proof. intros H. unfold clean, _clean. by rewrite H, map_to_list_empty. Qed.

Lemma quiet_Renamed log : Forall is_Renamed log -> Forall quiet log.
Proof. intros H. eapply Forall_impl; [exact H|]. by intros []. Qed.




(* ================================================================== *)
(** * Further properties of the script *)
(* ================================================================== *)

(** ** Text *)

Lemma str_chars s : Py.str (Py.chars s) = s.
Proof. apply string_of_list_ascii_of_string. Qed.

Lemma chars_str l : Py.chars (Py.str l) = l.
Proof. apply list_ascii_of_string_of_list_ascii. Qed.

Lemma str_app l1 l2 : Py.str (l1 ++ l2) = Py.str l1 +:+ Py.str l2.
Proof.
  unfold Py.str. induction l1 as [|c l1 IH]; [done|].
  change (string_of_list_ascii ((c :: l1) ++ l2))
    with (String c (string_of_list_ascii (l1 ++ l2))).
  by rewrite IH.
Qed.

Lemma chars_app s1 s2 : Py.chars (s1 +:+ s2) = Py.chars s1 ++ Py.chars s2.
Proof.
  unfold Py.chars. induction s1 as [|c s1 IH]; [done|].
  change (list_ascii_of_string (String c s1 +:+ s2))
    with (c :: list_ascii_of_string (s1 +:+ s2)).
  by rewrite IH.
Qed.

Lemma upto_from i s : Py.upto i s +:+ Py.from i s = s.
Proof.
  unfold Py.upto, Py.from. by rewrite <- str_app, take_drop, str_chars.
Qed.

Lemma rfind_from_app c i best l1 l2 :
  Py.rfind_from c i best (l1 ++ l2)
  = Py.rfind_from c (i + Z.of_nat (length l1)) (Py.rfind_from c i best l1) l2.
Proof.
  revert i best. induction l1 as [|d l1 IH]; intros i best; simpl.
  { by rewrite Z.add_0_r. }
  rewrite IH. f_equal. lia.
Qed.

Lemma rfind_from_bound c i best l :
  Py.rfind_from c i best l = best \/
  i <= Py.rfind_from c i best l < i + Z.of_nat (length l).
Proof.
  revert i best. induction l as [|d l IH]; intros i best; simpl; [by left|].
  destruct (IH (i + 1) (if Ascii.eqb d c then i else best)) as [E|E].
  - rewrite E. destruct (Ascii.eqb d c); [right; lia|by left].
  - right. lia.
Qed.

Lemma rfind_from_absent c i best l :
  Forall (fun d => Ascii.eqb d c = false) l -> Py.rfind_from c i best l = best.
Proof.
  revert i best. induction l as [|d l IH]; intros i best H; [done|].
  inversion H as [|? ? Hd Hl]; subst. simpl. rewrite Hd. by apply IH.
Qed.

Lemma upto_rfind_nonempty c s :
  0 < Py.rfind c s -> Py.upto (Py.rfind c s) s ≠ "".
Proof.
  unfold Py.rfind, Py.upto. intros Hpos E.
  apply (f_equal Py.chars) in E. rewrite chars_str in E. simpl in E.
  destruct (rfind_from_bound c 0 (-1) (Py.chars s)) as [Hb|Hb]; [lia|].
  apply (f_equal length) in E. rewrite length_take in E. simpl in E. lia.
Qed.

(** A recognised suffix is an underscore followed by letters. *)
Lemma rfind_suffixed key suf :
  suf ∈ PICON_SRCS ->
  Py.rfind "_" (key +:+ suf) = Z.of_nat (length (Py.chars key)).
Proof.
  intros Hs. unfold Py.rfind. rewrite chars_app, rfind_from_app. simpl.
  unfold PICON_SRCS in Hs.
  repeat (apply elem_of_cons in Hs as [->|Hs]; [reflexivity|]).
  by apply not_elem_of_nil in Hs.
Qed.

Lemma upto_app key suf : Py.upto (Z.of_nat (length (Py.chars key))) (key +:+ suf) = key.
Proof.
  unfold Py.upto. rewrite chars_app, Nat2Z.id, take_app_length. apply str_chars.
Qed.

Lemma from_app key suf : Py.from (Z.of_nat (length (Py.chars key))) (key +:+ suf) = suf.
Proof.
  unfold Py.from. rewrite chars_app, Nat2Z.id, drop_app_length. apply str_chars.
Qed.

(** ** The inventory of the icons *)

Lemma addPiconFile_cases w pn files log files' log' :
  addPiconFile w pn (files, log) = Some (files', log') ->
  files' = files \/
  exists key id,
    files' = <[key := (pn, id)]> files /\ key ≠ "" /\
    chan_lookup w pn = Some (Reg id) /\ (Py.splitext pn).2 = ".png" /\
    ((exists suf, suf ∈ PICON_SRCS /\ (Py.splitext pn).1 = key +:+ suf) \/
     (key = (Py.splitext pn).1 /\ files !! key = None)).
Proof.
  unfold addPiconFile.
  destruct (Py.splitext pn) as [basename ext] eqn:Hsp.
  destruct (String.eqb_spec ext ".png") as [->|Hne]; cbn [negb];
    [|intros [= <- <-]; by left].
  unfold picon_isfile, picon_getLinkRef.
  destruct (chan_lookup w pn) as [[i|t|i]|] eqn:Hc;
    try (intros [= <- <-]; by left).
  destruct ((0 <? Py.rfind "_" basename)
            && bool_decide (Py.from (Py.rfind "_" basename) basename ∈ PICON_SRCS))
    eqn:Hrec.
  - apply andb_true_iff in Hrec as [Hpos Hin].
    apply Z.ltb_lt in Hpos. apply bool_decide_eq_true_1 in Hin.
    destruct (String.eqb_spec (Py.upto (Py.rfind "_" basename) basename) "") as [E|E];
      intros [= <- <-]; [by left|].
    right. eexists _, i. split; [done|]. split; [done|]. split; [done|].
    split; [done|]. left. eexists. split; [exact Hin|].
    simpl. by rewrite upto_from.
  - destruct (decide (files !! basename = None)) as [Hn|Hn];
      [rewrite bool_decide_eq_true_2 by done|rewrite bool_decide_eq_false_2 by done].
    + destruct (String.eqb_spec basename "") as [E|E];
        intros [= <- <-]; [by left|].
      right. exists basename, i. split; [done|]. split; [done|]. split; [done|].
      split; [done|]. by right.
    + intros [= <- <-]. by left.
Qed.

Lemma addPiconFile_total w pn acc : is_Some (addPiconFile w pn acc).
Proof.
  destruct acc as [files log]. unfold addPiconFile.
  destruct (Py.splitext pn) as [basename ext].
  destruct (negb _); [by eexists|].
  unfold picon_isfile, picon_getLinkRef.
  destruct (chan_lookup w pn) as [[i|t|i]|]; try by eexists.
  destruct (_ && _).
  - by destruct (String.eqb _ "").
  - destruct (bool_decide _); [|by eexists]. by destruct (String.eqb _ "").
Qed.

Lemma addPiconFiles_total w names acc : is_Some (addPiconFiles w names acc).
Proof.
  revert acc. induction names as [|n rest IH]; intros acc; cbn [addPiconFiles];
    [by eexists|].
  destruct (addPiconFile_total w n acc) as [acc' ->]. apply IH.
Qed.

Lemma addPiconFiles_app w l1 l2 acc :
  addPiconFiles w (l1 ++ l2) acc
  = match addPiconFiles w l1 acc with
    | Some acc' => addPiconFiles w l2 acc'
    | None => None
    end.
Proof.
  revert acc. induction l1 as [|n l1 IH]; intros acc; [done|].
  cbn [app addPiconFiles]. destruct (addPiconFile w n acc); [apply IH|done].
Qed.

Lemma _makePiconFileList_None w :
  _makePiconFileList w = None <-> chan w = None.
Proof.
  unfold _makePiconFileList. destruct (chan w) as [l|]; [|done].
  split; [|done]. by destruct (addPiconFiles_total w l.*1 (∅, [])) as [r ->].
Qed.

(** X1.  The scan of the image directory ends the run ([exit(1)]) only
    when the directory cannot be listed: whatever a listed directory
    holds, every entry is taken or passed over and the scan delivers an
    inventory. *)
Theorem X1_inventory_fails_only_unlisted w :
  (_makePiconFileList w = None <-> chan w = None) /\
  (forall l, chan w = Some l ->
     exists files log, addPiconFiles w l.*1 (∅, []) = Some (files, log) /\
                       _makePiconFileList w = Some (files, log)).
Proof.
  split; [apply _makePiconFileList_None|]. intros l Hl.
  unfold _makePiconFileList. rewrite Hl.
  destruct (addPiconFiles_total w l.*1 (∅, [])) as [[files log] ->]. eauto.
Qed.

Lemma X1_inventory_fails_only_unlisted_witness :
  _makePiconFileList ambiguous_world
  = Some ({[ "abc" := ("abc_wp.png", (1, 10)) ]}, []).
Proof.
  destruct (proj2 (X1_inventory_fails_only_unlisted ambiguous_world) _ eq_refl)
    as (files & log & Ha & ->).
  vm_compute in Ha. injection Ha as <- <-. vm_compute. reflexivity.
Defined.

Lemma addPiconFiles_entries w names files log files' log' (I : string -> string * ident -> Prop) :
  addPiconFiles w names (files, log) = Some (files', log') ->
  (forall key e, files !! key = Some e -> I key e) ->
  (forall pn key id, pn ∈ names -> key ≠ "" ->
     chan_lookup w pn = Some (Reg id) -> (Py.splitext pn).2 = ".png" ->
     (exists suf, suf ∈ PICON_SRCS /\ (Py.splitext pn).1 = key +:+ suf) \/
       key = (Py.splitext pn).1 ->
     I key (pn, id)) ->
  forall key e, files' !! key = Some e -> I key e.
Proof.
  revert files log. induction names as [|n rest IH]; intros files log;
    cbn [addPiconFiles].
  { by intros [= <- <-]. }
  destruct (addPiconFile w n (files, log)) as [[f1 l1]|] eqn:H1; [|done].
  intros H Hf Hn. eapply IH; [exact H| |].
  - apply addPiconFile_cases in H1
      as [->|(key & id & -> & Hk & Hc & He & Hs)]; [done|].
    intros k e. destruct (decide (k = key)) as [->|Hne].
    + rewrite lookup_insert_eq. intros [= <-].
      apply Hn; [by left|done|done|done|]. destruct Hs as [?|[? _]]; eauto.
    + rewrite lookup_insert_ne by done. apply Hf.
  - intros pn key id Hin. apply Hn. by right.
Qed.



Lemma addPiconFile_suffixed w pn key suf files log :
  picon_isfile w pn = true ->
  Py.splitext pn = (key +:+ suf, ".png") ->
  suf ∈ PICON_SRCS -> key ≠ "" ->
  exists id log',
    chan_lookup w pn = Some (Reg id) /\
    addPiconFile w pn (files, log) = Some (<[key := (pn, id)]> files, log').
Proof.
  intros Hf Hsp Hs Hk. unfold addPiconFile. rewrite Hsp. cbn [negb String.eqb].
  change (String.eqb ".png" ".png") with true. cbn [negb].
  rewrite Hf. unfold picon_isfile, picon_getLinkRef in *.
  destruct (chan_lookup w pn) as [[i|t|i]|]; try done.
  rewrite (rfind_suffixed key suf Hs), from_app, upto_app.
  assert ((0 <? Z.of_nat (length (Py.chars key))) = true) as ->.
  { apply Z.ltb_lt. destruct key; [done|]. simpl. lia. }
  rewrite bool_decide_eq_true_2 by done. cbn [andb].
  destruct (String.eqb_spec key "") as [?|_]; [done|]. eauto.
Qed.

Lemma addPiconFiles_keeps w names key e files log files' log' :
  addPiconFiles w names (files, log) = Some (files', log') ->
  files !! key = Some e ->
  (forall pn suf, pn ∈ names -> suf ∈ PICON_SRCS -> picon_isfile w pn = true ->
     (Py.splitext pn ≠ (key +:+ suf, ".png"))) ->
  files' !! key = Some e.
Proof.
  revert files log. induction names as [|n rest IH]; intros files log;
    cbn [addPiconFiles].
  { by intros [= <- <-]. }
  destruct (addPiconFile w n (files, log)) as [[f1 l1]|] eqn:H1; [|done].
  intros H Hf Hn. eapply IH; [exact H| |].
  - apply addPiconFile_cases in H1
      as [->|(k & id & -> & Hk & Hc & He & Hs)]; [done|].
    destruct (decide (k = key)) as [->|Hne]; [|by rewrite lookup_insert_ne].
    exfalso. destruct Hs as [(suf & Hsuf & Hst)|[_ Hnone]]; [|congruence].
    apply (Hn n suf); [by left|done| |].
    + unfold picon_isfile. by rewrite Hc.
    + destruct (Py.splitext n) as [b x]. simpl in *. congruence.
  - intros pn suf Hin. apply Hn. by right.
Qed.



(** ** The scan of the output directory *)

Lemma follow_final w t x : follow w t ≠ Some (Sym x).
Proof.
  unfold follow, final.
  destruct (strip_prefix _ _);
    [destruct (chan_lookup w _) as [[?|?|?]|]|destruct (ext w !! t) as [[?|?|?]|]];
    done.
Qed.

Lemma dangling_spec w T :
  is_link (refType w T) = true /\ getLinkRef w T = None <->
  exists t, out w !! T = Some (Sym t) /\ follow w t = None.
Proof.
  unfold refType, getLinkRef, path_islink, path_isfile, stat, object.
  destruct (out w !! T) as [[i|t|i]|] eqn:Ho; simpl.
  - split; [|by intros (t & ? & _)].
    intros [Hl Hr]. done.
  - split.
    + intros [_ Hr]. exists t. split; [done|].
      pose proof (follow_final w t) as Hfin.
      destruct (follow w t) as [[?|?|?]|]; try done. by destruct (Hfin target).
    + intros (t' & [= <-] & ->). done.
  - split; [|by intros (t & ? & _)]. by intros [? ?].
  - split; [|by intros (t & ? & _)]. by intros [? ?].
Qed.

Lemma scanLinks_None w h names orig0 wrong0 :
  scanLinks w h names orig0 wrong0 = None <->
  exists T, T ∈ names /\ is_png T = true /\ is_link (refType w T) = true /\
            getLinkRef w T = None.
Proof.
  revert orig0 wrong0. induction names as [|name rest IH]; intros orig0 wrong0;
    cbn [scanLinks].
  { split; [done|]. intros (T & H & _). by apply not_elem_of_nil in H. }
  assert (Hrest : forall o' w',
    (is_png name = false \/ is_link (refType w name) = false \/
     is_Some (getLinkRef w name)) ->
    scanLinks w h rest o' w' = None <->
    exists T, T ∈ name :: rest /\ is_png T = true /\
              is_link (refType w T) = true /\ getLinkRef w T = None).
  { intros o' w' Hno. rewrite IH. split.
    - intros (T & ? & ?). exists T. split; [by right|done].
    - intros (T & [->|?]%elem_of_cons & Hp & Hl & Hr); [|by exists T].
      destruct Hno as [?|[?|[? ?]]]; congruence. }
  destruct (is_png name) eqn:Hpng; [|refine (Hrest _ _ _); by left].
  destruct (is_link (refType w name)) eqn:Hl; [|refine (Hrest _ _ _); by right; left].
  destruct (getLinkRef w name) as [r|] eqn:Hr.
  - destruct (Bool.eqb _ _); refine (Hrest _ _ _); right; right; eauto.
  - split; [|done]. intros _. exists name. split; [by left|done].
Qed.

Lemma makeLinks_status lines s : (makeLinks lines s).1 ≠ Exited.
Proof.
  unfold makeLinks. pose proof (doLines_status lines (enter s)) as H.
  by destruct (doLines lines (enter s)) as [[| |e] s'].
Qed.



Lemma removeEach_trace_prefix names s :
  exists ops, trace (removeEach names s) = trace s ++ ops.
Proof. destruct (removeEach_effects names s) as ((ops & ? & _) & _). eauto. Qed.

Lemma removeEach_Removed names s T n :
  T ∈ names -> out (fs s) !! T = Some n -> (forall i, n ≠ Dir i) ->
  Removed T ∈ trace (removeEach names s).
Proof.
  revert s. induction names as [|name rest IH]; intros s Hin Ho Hn.
  { by apply not_elem_of_nil in Hin. }
  cbn [removeEach]. destruct (decide (name = T)) as [->|Hne].
  - unfold os_remove. rewrite Ho. destruct n as [i|t|i]; [| |by destruct (Hn i)].
    + destruct (removeEach_trace_prefix rest
        (did (Removed T) (set_out (delete T (out (fs s))) (fs s)) s)) as (ops & ->).
      simpl. rewrite !elem_of_app, list_elem_of_singleton. tauto.
    + destruct (removeEach_trace_prefix rest
        (did (Removed T) (set_out (delete T (out (fs s))) (fs s)) s)) as (ops & ->).
      simpl. rewrite !elem_of_app, list_elem_of_singleton. tauto.
  - apply elem_of_cons in Hin as [?|Hin]; [congruence|].
    destruct (os_remove (fs s) name) as [w'|] eqn:Hr.
    + apply os_remove_Some in Hr as (-> & _). apply IH; [done| |done].
      simpl. by rewrite lookup_delete_ne.
    + by apply IH.
Qed.

(** X5.  Without cleanAll, after [__init__] the baseline lists exactly
    the names with the image extension that were links of the configured
    kind, each with the identity [stat] found; every link of the other
    kind with the image extension has been removed; every other name of
    the output directory is as it was. *)
Theorem X5_scan_baseline o w s :
  init o w = (false, s) -> o_cleanAll o = false ->
  (forall T, origPiconLinks s !! T =
     if decide (is_png T = true /\ refType w T = wanted (o_useHardLinks o))
     then getLinkRef w T else None) /\
  (forall T, is_png T = true -> is_link (refType w T) = true ->
     refType w T ≠ wanted (o_useHardLinks o) ->
     out (fs s) !! T = None /\ Removed T ∈ trace s) /\
  (forall T, ~ (is_png T = true /\ is_link (refType w T) = true /\
                refType w T ≠ wanted (o_useHardLinks o)) ->
     out (fs s) !! T = out w !! T).
Proof.
  intros Hi Hno.
  apply init_inv in Hi
    as [(?&_)|(_ & files & log & orig & wrong & _ & Hscan & ->)]; [done|].
  rewrite Hno. cbv zeta.
  destruct (scanLinks_spec _ _ _ _ _ _ _ Hscan) as (Horig & Hwrong & Href).
  destruct (_clean_same wrong (scanned o w files log orig))
    as (_&_&Eo&_&_&_&_&_).
  assert (Hlisted : forall T, is_link (refType w T) = true -> T ∈ listdir w).
  { intros T Hl. apply listdir_spec. destruct (out w !! T) eqn:E; [eauto|].
    by rewrite (refType_None _ _ E) in Hl. }
  split; [|split].
  - intros T. rewrite Eo. simpl. rewrite Horig.
    destruct (decide (T ∈ listdir w /\ _)) as [(_ & Hp & Hk)|Hn].
    + by rewrite decide_True.
    + rewrite lookup_empty. rewrite decide_False; [done|]. intros [Hp Hk].
      apply Hn. split; [|done]. apply Hlisted. rewrite Hk. apply is_link_wanted.
  - intros T Hp Hl Hk.
    assert (Hw : T ∈ wrong).
    { apply Hwrong. right. split; [by apply Hlisted|done]. }
    assert (Hnode : exists n, out w !! T = Some n /\ forall i, n ≠ Dir i).
    { destruct (out w !! T) as [[i|t|i]|] eqn:E.
      - eexists. split; [done|]. done.
      - eexists. split; [done|]. done.
      - by rewrite (refType_Dir _ _ _ E) in Hl.
      - by rewrite (refType_None _ _ E) in Hl. }
    destruct Hnode as (n & Ho & Hn). unfold _clean. split.
    + rewrite removeEach_out, decide_True by done. simpl. rewrite Ho.
      destruct n as [i|t|i]; [done|done|by destruct (Hn i)].
    + by eapply removeEach_Removed.
  - intros T Hn. unfold _clean. rewrite removeEach_out. simpl.
    destruct (decide (T ∈ wrong)) as [Hw|]; [|done].
    exfalso. apply Hwrong in Hw as [Hw|(_ & ? & ? & ?)]; [|by apply Hn].
    by apply not_elem_of_nil in Hw.
Qed.

Lemma X5_scan_baseline_witness :
  origPiconLinks (init only_full example_world).2 !! "old.png" = Some (1, 10) /\
  out (fs (init only_full example_world).2) !! "file.png" = Some (Reg (1, 50)).
Proof.
  assert (H1 : init only_full example_world
               = (false, (init only_full example_world).2))
    by (vm_compute; reflexivity).
  assert (H2 : o_cleanAll only_full = false) by reflexivity.
  destruct (X5_scan_baseline only_full example_world _ H1 H2) as (Hb & _ & Hk).
  split.
  - rewrite Hb. vm_compute. reflexivity.
  - rewrite Hk; [vm_compute; reflexivity|]. vm_compute. intros (_ & H & _).
    discriminate H.
Defined.

Lemma _clean_link_back names s T :
  is_link (refType (fs (_clean names s)) T) = true ->
  out (fs (_clean names s)) !! T = out (fs s) !! T /\
  refType (fs s) T = refType (fs (_clean names s)) T.
Proof.
  intros Hl. destruct (removeEach_link_back _ _ _ Hl) as (? & ? & _). done.
Qed.

Lemma _clean_out names s T :
  out (fs (_clean names s)) !! T =
  if decide (T ∈ names)
  then match out (fs s) !! T with
       | Some (Dir i) => Some (Dir i)
       | _ => None
       end
  else out (fs s) !! T.
Proof. unfold _clean. by rewrite removeEach_out. Qed.

(** X6.  With cleanAll, after [__init__] the baseline is empty and no
    name with the image extension is a link any more; names that were no
    links with the image extension are as they were. *)
Theorem X6_cleanAll_clears o w s :
  init o w = (false, s) -> o_cleanAll o = true ->
  origPiconLinks s = ∅ /\
  (forall T, is_png T = true -> is_link (refType (fs s) T) = false) /\
  (forall T, ~ (is_png T = true /\ is_link (refType w T) = true) ->
     out (fs s) !! T = out w !! T).
Proof.
  intros Hi Hall.
  apply init_inv in Hi
    as [(?&_)|(_ & files & log & orig & wrong & _ & Hscan & ->)]; [done|].
  rewrite Hall. cbv zeta.
  destruct (scanLinks_spec _ _ _ _ _ _ _ Hscan) as (Horig & Hwrong & Href).
  assert (Eo : origPiconLinks (_clean wrong (scanned o w files log orig)) = orig).
  { by destruct (_clean_same wrong (scanned o w files log orig))
      as (_&_&E&_). }
  pose proof (_clean_link_back wrong (scanned o w files log orig)) as Hback.
  pose proof (_clean_out wrong (scanned o w files log orig)) as Hout.
  simpl in Hback, Hout.
  remember (_clean wrong (scanned o w files log orig)) as s1 eqn:Es1. clear Es1.
  assert (Hlisted : forall T, is_link (refType w T) = true -> T ∈ listdir w).
  { intros T Hl. apply listdir_spec. destruct (out w !! T) eqn:E; [eauto|].
    by rewrite (refType_None _ _ E) in Hl. }
  split; [by destruct (clean_same s1) as (_&_&E&_)|]. split.
  - intros T Hp. destruct (is_link (refType (fs (clean s1)) T)) eqn:Hl; [|done].
    exfalso. destruct (clean_link_back s1 T Hl) as (En & Ek & Er).
    rewrite <- Ek in Hl. destruct (Hback T Hl) as (En' & Ek').
    rewrite <- Ek' in Hl.
    pose proof (clean_out s1 T) as Ec. rewrite En, En' in Ec.
    pose proof (Hout T) as Ew. rewrite En' in Ew.
    assert (Hnode : exists n, out w !! T = Some n /\ forall i, n ≠ Dir i).
    { destruct (out w !! T) as [[i|t|i]|] eqn:E.
      - eexists. split; [done|]. done.
      - eexists. split; [done|]. done.
      - by rewrite (refType_Dir _ _ _ E) in Hl.
      - by rewrite (refType_None _ _ E) in Hl. }
    destruct Hnode as (n & Hn & Hnd). rewrite Hn in Ec, Ew.
    destruct (decide (refType w T = wanted (o_useHardLinks o))) as [Hk|Hk].
    + rewrite decide_True in Ec.
      * destruct n as [i|t|i]; try done. by destruct (Hnd i).
      * rewrite Eo, Horig, decide_True by (split; [by apply Hlisted|done]).
        by apply Href; [apply Hlisted| |].
    + rewrite decide_True in Ew.
      * destruct n as [i|t|i]; try done. by destruct (Hnd i).
      * apply Hwrong. right. split; [by apply Hlisted|done].
  - intros T Hn. rewrite clean_out. rewrite Eo.
    assert (Hw : T ∉ wrong).
    { intros Hw. apply Hwrong in Hw as [Hw|(_ & ? & ? & ?)]; [|by apply Hn].
      by apply not_elem_of_nil in Hw. }
    assert (Ho : orig !! T = None).
    { rewrite Horig. rewrite decide_False; [by rewrite lookup_empty|].
      intros (_ & Hp & Hk). apply Hn. split; [done|]. rewrite Hk.
      apply is_link_wanted. }
    rewrite decide_False by (rewrite Ho; by intros [? ?]).
    rewrite Hout. by rewrite decide_False.
Qed.

Lemma X6_cleanAll_clears_witness :
  origPiconLinks (init (with_cleanAll only_full) example_world).2 = ∅ /\
  is_link (refType (fs (init (with_cleanAll only_full) example_world).2) "old.png")
  = false.
Proof.
  assert (H1 : init (with_cleanAll only_full) example_world
               = (false, (init (with_cleanAll only_full) example_world).2))
    by (vm_compute; reflexivity).
  assert (H2 : o_cleanAll (with_cleanAll only_full) = true) by reflexivity.
  destruct (X6_cleanAll_clears _ example_world _ H1 H2) as (He & Hl & _).
  split; [exact He|]. apply Hl. vm_compute. reflexivity.
Defined.

(** ** Removing names *)

Lemma os_remove_removable w n :
  os_remove w n = if removable w n then Some (set_out (delete n (out w)) w) else None.
Proof. unfold os_remove, removable. by destruct (out w !! n) as [[i|t|i]|]. Qed.

Lemma removeEach_reports names s :
  NoDup names ->
  exists ops msgs,
    trace (removeEach names s) = trace s ++ ops /\
    output (removeEach names s) = output s ++ msgs /\
    (forall n, Removed n ∈ ops <-> n ∈ names /\ removable (fs s) n = true) /\
    (forall n, CantRemove n ∈ msgs <-> n ∈ names /\ removable (fs s) n = false) /\
    (length ops + length msgs = length names)%nat.
Proof.
  revert s. induction names as [|name rest IH]; intros s Hnd.
  { exists [], []. rewrite !app_nil_r. split; [done|]. split; [done|].
    split; [|split; [|done]]; intros n; split;
      try (intros H; by apply not_elem_of_nil in H);
      intros [H _]; by apply not_elem_of_nil in H. }
  apply NoDup_cons in Hnd as [Hnotin Hnd]. cbn [removeEach].
  assert (Hframe : forall n, n ∈ rest ->
            removable (set_out (delete name (out (fs s))) (fs s)) n
            = removable (fs s) n).
  { intros n Hn. unfold removable. simpl.
    rewrite lookup_delete_ne; [done|]. by intros ->. }
  rewrite os_remove_removable. destruct (removable (fs s) name) eqn:Hr.
  - destruct (IH (did (Removed name) (set_out (delete name (out (fs s))) (fs s)) s) Hnd)
      as (ops & msgs & Et & Eo & Hops & Hmsgs & Hlen).
    exists (Removed name :: ops), msgs. simpl in Et, Eo, Hops, Hmsgs.
    split; [by rewrite Et, <- app_assoc|]. split; [done|].
    split; [|split].
    + intros n. rewrite !elem_of_cons, Hops. split.
      * intros [[= ->]|[Hn Hrm]]; [by split; [left|]|].
        split; [by right|]. by rewrite <- Hframe.
      * intros [[->|Hn] Hrm]; [by left|]. right. split; [done|].
        by rewrite Hframe.
    + intros n. rewrite Hmsgs, elem_of_cons. split.
      * intros [Hn Hrm]. split; [by right|]. by rewrite <- Hframe.
      * intros [[->|Hn] Hrm]; [congruence|]. split; [done|]. by rewrite Hframe.
    + simpl. lia.
  - destruct (IH (emit (CantRemove name) s) Hnd)
      as (ops & msgs & Et & Eo & Hops & Hmsgs & Hlen).
    exists ops, (CantRemove name :: msgs). simpl in Et, Eo, Hops, Hmsgs.
    split; [done|]. split; [by rewrite Eo, <- app_assoc|].
    split; [|split].
    + intros n. rewrite Hops, elem_of_cons. split.
      * intros [Hn Hrm]. split; [by right|done].
      * intros [[->|Hn] Hrm]; [congruence|done].
    + intros n. rewrite !elem_of_cons, Hmsgs. split.
      * intros [[= ->]|[Hn Hrm]]; [by split; [left|]|]. split; [by right|done].
      * intros [[->|Hn] Hrm]; [by left|]. by right.
    + simpl. lia.
Qed.

(** X7.  [_clean] on names without repetition first prints their
    number, then removes every name that is a file or a symbolic link
    and reports every other one (missing, or a directory) without
    stopping: each name is removed or reported, and only the removed
    names change in the output directory. *)
Theorem X7_clean_reports_each_failure (names : list string) (s : LinkMaker) :
  NoDup names ->
  exists ops msgs,
    trace (_clean names s) = trace s ++ ops /\
    output (_clean names s) = output s ++ Removing (length names) :: msgs /\
    (forall n, Removed n ∈ ops <-> n ∈ names /\ removable (fs s) n = true) /\
    (forall n, CantRemove n ∈ msgs <-> n ∈ names /\ removable (fs s) n = false) /\
    (length ops + length msgs = length names)%nat /\
    (forall n, out (fs (_clean names s)) !! n =
       if decide (n ∈ names /\ removable (fs s) n = true) then None
       else out (fs s) !! n).
Proof.
  intros Hnd. unfold _clean.
  destruct (removeEach_reports names (emit (Removing (length names)) s) Hnd)
    as (ops & msgs & Et & Eo & Hops & Hmsgs & Hlen).
  exists ops, msgs. simpl in Et, Eo, Hops, Hmsgs. split; [done|].
  split; [by rewrite Eo, <- app_assoc|]. split; [done|]. split; [done|].
  split; [done|]. intros n. rewrite removeEach_out. simpl. unfold removable.
  destruct (decide (n ∈ names)) as [Hin|Hin].
  - destruct (out (fs s) !! n) as [[i|t|i]|] eqn:Ho.
    + by rewrite decide_True.
    + by rewrite decide_True.
    + rewrite decide_False; [done|]. by intros [_ ?].
    + rewrite decide_False; [done|]. by intros [_ ?].
  - rewrite decide_False; [done|]. by intros [? _].
Qed.

Lemma X7_clean_reports_each_failure_witness :
  exists ops msgs,
    trace (_clean ["old.png"] (scanned only_full example_world ∅ [] ∅)) = [] ++ ops /\
    output (_clean ["old.png"] (scanned only_full example_world ∅ [] ∅))
      = [] ++ Removing 1 :: msgs /\
    (forall n, Removed n ∈ ops <->
       n ∈ ["old.png"] /\ removable example_world n = true) /\
    (forall n, CantRemove n ∈ msgs <->
       n ∈ ["old.png"] /\ removable example_world n = false) /\
    (length ops + length msgs = 1)%nat /\
    (forall n, out (fs (_clean ["old.png"]
                          (scanned only_full example_world ∅ [] ∅))) !! n =
       if decide (n ∈ ["old.png"] /\ removable example_world n = true) then None
       else out example_world !! n).
Proof.
  apply (X7_clean_reports_each_failure ["old.png"]
           (scanned only_full example_world ∅ [] ∅)).
  apply NoDup_singleton.
Defined.

(** ** Reading the database *)

Lemma sub_comment_tail inside l c :
  Forall (fun d => d ≠ "010"%char) c ->
  Py.sub_comment inside (l ++ "#"%char :: c) = Py.sub_comment inside l.
Proof.
  intros Hc.
  assert (Hin : Py.sub_comment true c = []).
  { induction Hc as [|d c Hd _ IH]; [done|]. simpl.
    apply Ascii.eqb_neq in Hd as ->. done. }
  revert inside. induction l as [|d l IH]; intros inside.
  - simpl. by destruct inside.
  - simpl. destruct (Ascii.eqb d "010"); [by rewrite IH|].
    destruct inside; [apply IH|]. destruct (Ascii.eqb d "#"); by rewrite IH.
Qed.

(** X8.  What follows a [#] on a line of the database is not read: the
    line is processed as the text in front of the [#]. *)
Theorem X8_comments_are_ignored (line comment : string) (s : LinkMaker) :
  Forall (fun d => d ≠ "010"%char) (Py.chars comment) ->
  doLine (line +:+ "#" +:+ comment) s = doLine line s.
Proof.
  intros Hc. unfold doLine.
  assert (E : cleanLine (line +:+ "#" +:+ comment) = cleanLine line).
  { unfold cleanLine. rewrite chars_app.
    change (Py.chars ("#" +:+ comment)) with ("#"%char :: Py.chars comment).
    by rewrite sub_comment_tail. }
  by rewrite E.
Qed.

Lemma X8_comments_are_ignored_witness :
  doLine "1:0:1:4A:6:85:0:0:0:0 ABC_HD abc # the main channel"
         (scanned only_full example_world ∅ [] ∅)
  = doLine "1:0:1:4A:6:85:0:0:0:0 ABC_HD abc "
           (scanned only_full example_world ∅ [] ∅).
Proof.
  apply (X8_comments_are_ignored "1:0:1:4A:6:85:0:0:0:0 ABC_HD abc "
           " the main channel").
  repeat (constructor; [discriminate|]). constructor.
Defined.

Lemma split_on_app sep cur l1 l2 :
  Py.split_on sep cur (l1 ++ sep :: l2)
  = Py.split_on sep cur l1 ++ Py.split_on sep [] l2.
Proof.
  revert cur. induction l1 as [|c l1 IH]; intros cur; simpl.
  - by rewrite Ascii.eqb_refl.
  - destruct (Ascii.eqb c sep); simpl; by rewrite IH.
Qed.

(** X9.  Only the first ten colon-separated fields of a service
    reference are used: a reference with at least ten fields expands to
    the same targets whatever is added after a further colon. *)
Theorem X9_fields_after_the_tenth_are_ignored
    (o : options) (partsFold : option (list string))
    (servRef extra serviceName : string) :
  (10 <= length (Py.split ":" servRef))%nat ->
  expand o partsFold (servRef +:+ ":" +:+ extra) serviceName
  = expand o partsFold servRef serviceName.
Proof.
  intros Hlen. unfold expand.
  assert (E : take 10 (Py.split ":" (servRef +:+ ":" +:+ extra))
              = take 10 (Py.split ":" servRef)).
  { unfold Py.split in *. rewrite chars_app.
    change (Py.chars (":" +:+ extra)) with (":"%char :: Py.chars extra).
    rewrite split_on_app. by rewrite take_app_le. }
  by rewrite E.
Qed.

Lemma X9_fields_after_the_tenth_are_ignored_witness :
  expand only_full None "1:0:1:4A:6:85:0:0:0:0:http%3a//example" "ABC"
  = expand only_full None "1:0:1:4A:6:85:0:0:0:0" "ABC".
Proof.
  apply (X9_fields_after_the_tenth_are_ignored only_full None
           "1:0:1:4A:6:85:0:0:0:0" "http%3a//example" "ABC").
  vm_compute. lia.
Defined.

Lemma land_256 n : Z.land n 256 = 0 \/ Z.land n 256 = 256.
Proof.
  change 256 with (2 ^ 8). destruct (Z.testbit n 8) eqn:E.
  - right. apply Z.bits_inj'. intros k Hk. rewrite Z.land_spec, Z.pow2_bits_eqb by lia.
    destruct (Z.eqb_spec 8 k) as [<-|]; [by rewrite E|by rewrite andb_false_r].
  - left. apply Z.bits_inj'. intros k Hk. rewrite Z.land_spec, Z.pow2_bits_eqb, Z.bits_0 by lia.
    destruct (Z.eqb_spec 8 k) as [<-|]; [by rewrite E|by rewrite andb_false_r].
Qed.

Lemma ldiff_256 n : Z.land n (Z.lnot 256) = n - Z.land n 256.
Proof.
  rewrite <- Z.ldiff_land.
  assert (H : Z.land (Z.ldiff n 256) (Z.land n 256) = 0).
  { apply Z.bits_inj'. intros k Hk.
    rewrite !Z.land_spec, Z.ldiff_spec, Z.bits_0.
    by destruct (Z.testbit n k), (Z.testbit 256 k). }
  pose proof (Z.add_nocarry_lxor _ _ H) as E.
  rewrite (Z.lxor_lor _ _ H), Z.lor_ldiff_and in E. lia.
Qed.

Lemma terrestrial_spec n : terrestrial n = true <-> n = 1 \/ n = 257.
Proof.
  unfold terrestrial. rewrite Z.eqb_eq, ldiff_256. split.
  - destruct (land_256 n) as [E|E]; rewrite E; lia.
  - intros [->| ->]; reflexivity.
Qed.

(** X10.  A record whose field 0 reads as a number other than 1 and 257
    (0x101) gets nothing from the blocks of [addfold] and [fold]: both
    leave the targets and the binding of [servRefPartsFold] as they are
    and read no other field. *)
Theorem X10_unselected_records_not_folded
    (servRefParts : list string) (acc : list (list string) * option (list string))
    (p0 : string) (n0 : Z) :
  servRefParts !! 0%nat = Some p0 -> Py.parse_int 10 p0 = Some n0 ->
  n0 ≠ 1 -> n0 ≠ 257 ->
  addfoldRule servRefParts acc = Ok acc /\ foldRule servRefParts acc = Ok acc.
Proof.
  intros H0 Hn H1 H257.
  assert (Ht : terrestrial n0 = false).
  { destruct (terrestrial n0) eqn:E; [|done].
    apply terrestrial_spec in E. lia. }
  destruct acc as [servRefs pf]. unfold addfoldRule, foldRule, Py.getitem, Py.int.
  rewrite H0. cbn [of_option rbind]. rewrite Hn. cbn [of_option rbind].
  by rewrite Ht.
Qed.

Lemma X10_unselected_records_not_folded_witness :
  addfoldRule ["2"; "0"; "zz"] ([], None) = Ok ([], None) /\
  foldRule ["2"; "0"; "zz"] ([], None) = Ok ([], None).
Proof.
  apply (X10_unselected_records_not_folded ["2"; "0"; "zz"] ([], None) "2" 2).
  - reflexivity.
  - reflexivity.
  - discriminate.
  - discriminate.
Defined.

(** X11.  When the block of [addfold] does not raise it adds at most
    one target: either nothing changes, or the one new target is the
    record's fields with field 2 replaced by "1", "2" or "A", and
    [servRefPartsFold] is left bound to it. *)
Theorem X11_addfold_adds_at_most_one
    (servRefParts : list string) (servRefs servRefs' : list (list string))
    (partsFold partsFold' : option (list string)) :
  addfoldRule servRefParts (servRefs, partsFold) = Ok (servRefs', partsFold') ->
  (servRefs' = servRefs /\ partsFold' = partsFold) \/
  exists t x,
    servRefs' = servRefs ++ [x] /\ partsFold' = Some x /\
    x = <[2%nat := t]> servRefParts /\ t ∈ ["1"; "2"; "A"] /\
    (2 < length servRefParts)%nat.
Proof.
  unfold addfoldRule, Py.getitem, Py.int, Py.int16.
  destruct (servRefParts !! 0%nat) as [p0|]; cbn [of_option rbind]; [|done].
  destruct (Py.parse_int 10 p0) as [n0|]; cbn [of_option rbind]; [|done].
  destruct (terrestrial n0); [|intros [= <- <-]; by left].
  destruct (servRefParts !! 2%nat) as [p2|] eqn:H2; cbn [of_option rbind]; [|done].
  assert (Hlen : (2 < length servRefParts)%nat) by (by eapply lookup_lt_Some).
  destruct (Py.parse_int 16 p2) as [stype|]; cbn [of_option rbind]; [|done].
  destruct (in_Z stype [1; 2; 10]) eqn:E1; cbn [negb].
  - destruct (in_Z stype [2; 10]).
    + destruct (servRefParts !! 5%nat) as [p5|]; cbn [of_option rbind]; [|done].
      destruct (Py.parse_int 16 p5) as [n5|]; cbn [of_option rbind]; [|done].
      destruct (in_Z n5 [4112; 12801]); cbn [rbind];
        [|intros [= <- <-]; by left].
      destruct (servRefParts !! 3%nat) as [p3|]; cbn [of_option rbind]; [|done].
      destruct (Py.parse_int 16 p3) as [n3|]; cbn [of_option rbind]; [|done].
      destruct (Z.land n3 15 =? 15); intros [= <- <-]; [|by left].
      right. eexists _, _. split; [done|]. split; [done|]. split; [done|].
      split; [|done]. destruct (stype =? 10); set_solver.
    + cbn [rbind]. intros [= <- <-]. by left.
  - assert (in_Z stype [2; 10] = false) as ->.
    { unfold in_Z in *. apply bool_decide_eq_false_2.
      apply bool_decide_eq_false_1 in E1. intros H. apply E1.
      apply elem_of_cons. by right. }
    cbn [rbind]. intros [= <- <-].
    right. eexists _, _. split; [done|]. split; [done|]. split; [done|].
    split; [set_solver|done].
Qed.

Lemma X11_addfold_adds_at_most_one_witness :
  let parts := ["1"; "0"; "19"; "4A"; "6"; "85"; "0"; "0"; "0"; "0"] in
  ([<[2%nat := "1"]> parts] = [] /\ Some (<[2%nat := "1"]> parts) = None) \/
  exists t x,
    [<[2%nat := "1"]> parts] = [] ++ [x] /\ Some (<[2%nat := "1"]> parts) = Some x /\
    x = <[2%nat := t]> parts /\ t ∈ ["1"; "2"; "A"] /\
    (2 < length parts)%nat.
Proof.
  cbv zeta.
  apply (X11_addfold_adds_at_most_one
           ["1"; "0"; "19"; "4A"; "6"; "85"; "0"; "0"; "0"; "0"] [] _ None _).
  vm_compute. reflexivity.
Defined.

(** X12.  A target name whose fields hold no slash is seen by the scan
    of the next run ([splitext] gives it the extension [.png]) exactly
    when the joined fields hold a character other than a dot. *)
Theorem X12_target_has_image_extension (srp : list string) :
  Forall (fun c => c ≠ "/"%char) (Py.chars (Py.join "_" srp)) ->
  (is_png (targetName srp) = true <->
   Exists (fun c => c ≠ "."%char) (Py.chars (Py.join "_" srp))).
Proof.
  unfold targetName. set (n := Py.join "_" srp). intros Hslash.
  unfold is_png, Py.splitext.
  assert (Hsep : Py.rfind "/" (n +:+ ".png") = -1).
  { unfold Py.rfind. rewrite chars_app, rfind_from_app.
    rewrite (rfind_from_absent _ _ _ (Py.chars n)); [done|].
    eapply Forall_impl; [exact Hslash|]. intros c Hc. simpl in Hc.
    by apply Ascii.eqb_neq. }
  assert (Hdot : Py.rfind "." (n +:+ ".png") = Z.of_nat (length (Py.chars n))).
  { unfold Py.rfind. rewrite chars_app, rfind_from_app. reflexivity. }
  rewrite Hsep, Hdot.
  assert ((-1 <? Z.of_nat (length (Py.chars n))) = true) as -> by (apply Z.ltb_lt; lia).
  rewrite chars_app, Nat2Z.id, take_app_length. simpl (Z.to_nat _).
  rewrite drop_0.
  destruct (forallb (fun c => Ascii.eqb c ".") (Py.chars n)) eqn:Hall.
  - split; [done|]. intros Hex. exfalso. rewrite forallb_forall in Hall.
    apply Exists_exists in Hex as (c & Hin & Hc). apply Hc.
    apply Ascii.eqb_eq, Hall. by apply list_elem_of_In.
  - split; [intros _|intros _].
    + apply Exists_exists.
      assert (Hn : ~ Forall (fun c => Ascii.eqb c "." = true) (Py.chars n)).
      { intros HF. rewrite Forall_forall in HF.
        assert (forallb (fun c => Ascii.eqb c ".") (Py.chars n) = true);
          [|congruence].
        apply forallb_forall. intros c Hc. apply HF. by apply list_elem_of_In. }
      apply not_Forall_Exists in Hn; [|intros c; apply _].
      apply Exists_exists in Hn as (c & Hin & Hc). exists c. split; [done|].
      intros ->. by apply Hc.
    + simpl. rewrite from_app. done.
Qed.

Lemma X12_target_has_image_extension_witness :
  is_png (targetName ["1"; "0"; "1"]) = true <->
  Exists (fun c => c ≠ "."%char) (Py.chars (Py.join "_" ["1"; "0"; "1"])).
Proof.
  apply (X12_target_has_image_extension ["1"; "0"; "1"]).
  vm_compute. repeat (constructor; [discriminate|]). constructor.
Defined.

Lemma doLine_plain line s :
  o_addfold (opts s) = false -> o_fold (opts s) = false ->
  exists s', doLine line s = Ok s' /\ opts s' = opts s.
Proof.
  intros Ha Hf. unfold doLine.
  destruct (String.eqb (cleanLine line) ""); [eauto|].
  destruct (3 <? length _)%nat; [eauto|].
  destruct (Py.split_ws [] (Py.chars (cleanLine line)))
    as [|servRef [|serviceName [|picon [|]]]]; eauto.
  unfold expand. rewrite Ha, Hf. cbn [rbind]. eexists. split; [done|].
  by destruct (reconcileAll_invariant (fun _ => True) (fun _ => True)
       ltac:(done) servRef picon
       (plainRules (opts s) (take 10 (Py.split ":" servRef)) serviceName)
       (set_servRefPartsFold (servRefPartsFold s) s)) as (_ & -> & _).
Qed.

Lemma doLines_plain lines s :
  o_addfold (opts s) = false -> o_fold (opts s) = false ->
  (doLines lines s).1 = Finished.
Proof.
  revert s. induction lines as [|line rest IH]; intros s Ha Hf; [done|].
  cbn [doLines]. destruct (doLine_plain line s Ha Hf) as (s' & -> & Ho).
  apply IH; by rewrite Ho.
Qed.



(** ** What a run does to the output directory *)

Lemma links_in_app a b : links_in (a ++ b) = (links_in a + links_in b)%nat.
Proof. unfold links_in. by rewrite filter_app, length_app. Qed.

Lemma links_in_removals ops :
  Forall (fun op => exists n, op = Removed n) ops -> links_in ops = 0%nat.
Proof.
  induction 1 as [|op ops (n & ->) _ IH]; [done|].
  change (Removed n :: ops) with ([Removed n] ++ ops).
  rewrite links_in_app, IH. done.
Qed.

Lemma links_in_removeEach names s :
  links_in (trace (removeEach names s)) = links_in (trace s).
Proof.
  destruct (removeEach_effects names s) as ((ops & -> & Hops) & _).
  rewrite links_in_app, (links_in_removals ops); [lia|].
  eapply Forall_impl; [exact Hops|]. intros op (n & _ & ->). eauto.
Qed.

Lemma links_in__clean names s :
  links_in (trace (_clean names s)) = links_in (trace s).
Proof. unfold _clean. by rewrite links_in_removeEach. Qed.

Lemma links_in_clean s : links_in (trace (clean s)) = links_in (trace s).
Proof.
  unfold clean. cbn [trace set_origPiconLinks]. apply links_in__clean.
Qed.

Lemma links_in_init o w s : init o w = (false, s) -> links_in (trace s) = 0%nat.
Proof.
  intros Hi. apply init_inv in Hi
    as [(?&_)|(_ & files & log & orig & wrong & _ & _ & ->)]; [done|].
  cbv zeta. destruct (o_cleanAll o); by rewrite ?links_in_clean, links_in__clean.
Qed.

Lemma links_in_linkOp h pn T : links_in [linkOp h pn T] = 1%nat.
Proof. by destruct h. Qed.

Lemma counted_reconcile servRef picon T s :
  consistent s -> linksMade s = links_in (trace s) ->
  linksMade (reconcile servRef picon T s)
  = links_in (trace (reconcile servRef picon T s)).
Proof.
  intros Hc Hn.
  destruct (reconcile_reconciled servRef picon T s)
    as [| | | | | | pn pr s2 w ? ? ? ? Hcl Hl | pn pr ? ? ? ? Hs Hrm
       | pn pr s2 ? ? ? ? Hcl Hl]; split_placeholder; simpl; try done.
  - inv_cleared Hcl. rewrite Cmade. simpl. rewrite links_in_app, links_in_linkOp.
    destruct Ctrace as [[-> _]|[-> _]]; simpl.
    + lia.
    + rewrite links_in_app. change (links_in [Removed T]) with 0%nat. lia.
  - exfalso. by eapply (consistent_link_succeeds s T s2 pn pr picon).
  - exfalso. by eapply (consistent_link_succeeds s T s2 pn pr picon).
Qed.



Lemma is_png_ends T : is_png T = true -> ends_png T.
Proof.
  unfold is_png, Py.splitext.
  destruct (Py.rfind "/" T <? Py.rfind "." T); [|done].
  destruct (forallb _ _); [done|]. simpl. intros E%String.eqb_eq.
  exists (Py.upto (Py.rfind "." T) T). by rewrite <- E, upto_from.
Qed.

Lemma targetName_ends srp : ends_png (targetName srp).
Proof. by eexists. Qed.

Lemma lineTargets_ends o pf line ts pf' T :
  lineTargets o pf line = Ok (ts, pf') -> T ∈ ts -> ends_png T.
Proof.
  unfold lineTargets.
  destruct (String.eqb _ ""); [intros [= <- _] H; by apply not_elem_of_nil in H|].
  destruct (3 <? _)%nat; [intros [= <- _] H; by apply not_elem_of_nil in H|].
  destruct (Py.split_ws [] (Py.chars (cleanLine line)))
    as [|servRef [|serviceName [|picon [|]]]];
    try (intros [= <- _] H; by apply not_elem_of_nil in H).
  destruct (expand o pf servRef serviceName) as [[rs pf2]|e]; [|done].
  cbn [rbind]. intros [= <- _] (srp & -> & _)%list_elem_of_fmap.
  apply targetName_ends.
Qed.

Lemma derived_ends o pf lines T : T ∈ derived o pf lines -> ends_png T.
Proof.
  revert pf. induction lines as [|line rest IH]; intros pf; cbn [derived].
  { intros H. by apply not_elem_of_nil in H. }
  destruct (lineTargets o pf line) as [[ts pf']|e] eqn:E.
  - intros [H|H]%elem_of_app; [by eapply lineTargets_ends|by eapply IH].
  - intros H. by apply not_elem_of_nil in H.
Qed.

Lemma png_only_removeEach w names s :
  Forall ends_png names -> png_only w s -> png_only w (removeEach names s).
Proof.
  intros Hn (Hst & Htr & Hout & Ho).
  destruct (removeEach_same names s) as (_&_&Eo&_&_&_&_&Hst').
  destruct (removeEach_effects names s) as ((ops & Et & Hops) & _).
  split; [by eapply static_trans|]. split; [|split].
  - rewrite Et. apply Forall_app. split; [done|].
    eapply Forall_impl; [exact Hops|]. intros op (n & Hin & ->). simpl.
    by eapply Forall_forall in Hn.
  - intros T HT. rewrite removeEach_out, decide_False; [by apply Hout|].
    intros Hin. apply HT. by eapply Forall_forall in Hn.
  - intros T id. rewrite Eo. apply Ho.
Qed.

Lemma png_only_clean w s : png_only w s -> png_only w (clean s).
Proof.
  intros H. pose proof H as (_ & _ & _ & Ho).
  assert (H' : png_only w (_clean (map_to_list (origPiconLinks s)).*1 s)).
  { apply png_only_removeEach; [|done]. apply Forall_forall. intros T HT.
    apply keys_spec in HT as [id HT]. by eapply Ho. }
  destruct H' as (? & ? & ? & _).
  split; [done|]. split; [done|]. split; [done|].
  intros T id. simpl. by rewrite lookup_empty.
Qed.

Lemma png_only_reconcile w servRef picon T s :
  ends_png T -> png_only w s -> png_only w (reconcile servRef picon T s).
Proof.
  intros HT (Hst & Htr & Hout & Ho).
  pose proof (reconcile_reconciled servRef picon T s) as H.
  destruct (reconciled_static _ _ _ _ _ H) as (_ & _ & Hst' & _).
  destruct (reconciled_trace _ _ _ _ _ H) as (ops & Et & Hops).
  split; [by eapply static_trans|]. split; [|split].
  - rewrite Et. apply Forall_app. split; [done|].
    eapply Forall_impl; [exact Hops|]. by intros op ->.
  - intros T0 HT0. destruct (reconciled_other _ _ _ _ _ T0 H) as (-> & _).
    + intros ->. by apply HT0.
    + by apply Hout.
  - intros T0 id HT0. eapply Ho. by eapply orig_shrinks.
Qed.

Lemma png_only_init o w st s : init o w = (st, s) -> png_only w s.
Proof.
  intros Hi. apply init_inv in Hi
    as [(_ & Hfs & Htr & _ & _ & Ho & _)
       |(_ & files & log & orig & wrong & _ & Hscan & ->)].
  { unfold png_only. rewrite Hfs. split; [apply static_refl|].
    split; [by rewrite Htr|].
    split; [done|]. intros T id. by rewrite Ho, lookup_empty. }
  destruct (scanLinks_spec _ _ _ _ _ _ _ Hscan) as (Horig & Hwrong & _).
  assert (H1 : png_only w (_clean wrong (scanned o w files log orig))).
  { apply png_only_removeEach.
    - apply Forall_forall. intros T [HT|(_ & HT & _)]%Hwrong.
      + by apply not_elem_of_nil in HT.
      + by apply is_png_ends.
    - split; [apply static_refl|]. split; [constructor|]. split; [done|].
      intros T id. simpl. rewrite Horig.
      destruct (decide _) as [(_ & HT & _)|]; [|by rewrite lookup_empty].
      intros _. by apply is_png_ends. }
  cbv zeta. destruct (o_cleanAll o); [by apply png_only_clean|done].
Qed.



Lemma links_known_clean o a : links_known o a -> links_known o (clean a).
Proof.
  intros Hk T Hpng Hl. destruct (clean_link_back a T Hl) as (En & Ek & Er).
  rewrite <- Ek, <- Er. rewrite <- Ek in Hl.
  destruct (Hk T Hpng Hl) as (K1 & K2 & K3).
  split; [done|]. split; [done|]. right.
  destruct (clean_same a) as (_&_&_&_&->&_).
  destruct K3 as [K3|K3]; [|done]. exfalso.
  pose proof (clean_out a T) as E. rewrite decide_True in E by done.
  rewrite En in E.
  destruct (out (fs a) !! T) as [[i|t|i]|] eqn:E0; try done.
  - by rewrite (refType_Dir _ _ _ E0) in Hl.
  - by rewrite (refType_None _ _ E0) in Hl.
Qed.

Lemma links_known_init o w s0 : init o w = (false, s0) -> links_known o s0.
Proof.
  intros Hi. apply init_inv in Hi
    as [(?&_)|(_ & files & log & orig & wrong & _ & Hscan & ->)]; [done|].
  destruct (scanLinks_spec _ _ _ _ _ _ _ Hscan) as (Horig & Hwrong & Href).
  assert (H1 : links_known o (_clean wrong (scanned o w files log orig))).
  { intros T Hpng Hl. unfold _clean in Hl |- *.
    destruct (removeEach_link_back _ _ _ Hl) as (En & Ek & Er).
    simpl in En, Ek, Er. rewrite <- Ek, <- Er. rewrite <- Ek in Hl.
    assert (Hin : T ∈ listdir w).
    { apply listdir_spec. destruct (out w !! T) eqn:E; [eauto|].
      by rewrite (refType_None _ _ E) in Hl. }
    assert (Hk : refType w T = wanted (o_useHardLinks o)).
    { destruct (decide (refType w T = wanted (o_useHardLinks o))) as [|Hno]; [done|].
      exfalso. assert (Hw : T ∈ wrong) by (apply Hwrong; right; done).
      pose proof (removeEach_out wrong
        (emit (Removing (length wrong)) (scanned o w files log orig)) T) as E.
      rewrite decide_True in E by done. simpl in E, En. rewrite En in E.
      destruct (out w !! T) as [[i|t|i]|] eqn:E0; try done.
      - by rewrite (refType_Dir _ _ _ E0) in Hl.
      - by rewrite (refType_None _ _ E0) in Hl. }
    split; [done|]. split; [by apply Href|].
    left. destruct (removeEach_same wrong
      (emit (Removing (length wrong)) (scanned o w files log orig)))
      as (_&_&->&_). simpl.
    rewrite Horig, decide_True by done. by apply Href. }
  cbv zeta. destruct (o_cleanAll o); [by apply links_known_clean|done].
Qed.



Lemma reset_reconcile servRef picon T s :
  consistent s -> origPiconLinks s = ∅ ->
  linksMade s = size (piconLinks s) ->
  origPiconLinks (reconcile servRef picon T s) = ∅ /\
  linksMade (reconcile servRef picon T s)
  = size (piconLinks (reconcile servRef picon T s)).
Proof.
  intros Hc Ho Hn.
  destruct (reconcile_reconciled servRef picon T s)
    as [| | | | | pn pr ? ? ? Hor | pn pr s2 w Hq ? ? ? Hcl Hl | pn pr ? ? ? ? Hs Hrm
       | pn pr s2 ? ? ? ? Hcl Hl]; split_placeholder; simpl; try done.
  - by rewrite Ho, lookup_empty in Hor.
  - inv_cleared Hcl. simpl in *. rewrite Corig, Cmade, Clinks, Ho.
    rewrite map_size_insert_None by done. split; [apply delete_empty|lia].
  - rewrite Ho. split; [apply delete_empty|done].
  - rewrite Ho. split; [apply delete_empty|done].
  - exfalso. by eapply (consistent_link_succeeds s T s2 pn pr picon).
  - exfalso. by eapply (consistent_link_succeeds s T s2 pn pr picon).
Qed.



(** ** Unused icons *)

Lemma compare_le_trans a b c :
  String.compare a b ≠ Gt -> String.compare b c ≠ Gt -> String.compare a c ≠ Gt.
Proof.
  revert b c. induction a as [|x a IH]; intros [|y b] [|z c]; simpl; try done.
  unfold Ascii.compare.
  destruct (N.compare_spec (N_of_ascii x) (N_of_ascii y)) as [E1|E1|E1];
    destruct (N.compare_spec (N_of_ascii y) (N_of_ascii z)) as [E2|E2|E2];
    destruct (N.compare_spec (N_of_ascii x) (N_of_ascii z)) as [E3|E3|E3];
    try done; try lia.
  apply IH.
Qed.

#[global] Instance str_le_trans : Transitive str_le.
Proof.
  intros a b c. unfold str_le, String.leb. intros H1 H2.
  pose proof (compare_le_trans a b c) as H.
  destruct (String.compare a b), (String.compare b c), (String.compare a c);
    try done; exfalso; by apply H.
Qed.

#[global] Instance str_le_total : Total str_le.
Proof. intros a b. apply String.leb_total. Qed.

#[global] Instance str_le_antisym : AntiSymm eq str_le.
Proof. intros a b. apply String.leb_antisym. Qed.

Lemma removeEach_linked names s :
  linkedPiconNames (removeEach names s) = linkedPiconNames s.
Proof.
  revert s. induction names as [|n rest IH]; intros s; [done|].
  cbn [removeEach]. destruct (os_remove (fs s) n); by rewrite IH.
Qed.

Lemma _clean_linked names s :
  linkedPiconNames (_clean names s) = linkedPiconNames s.
Proof. unfold _clean. by rewrite removeEach_linked. Qed.

Lemma clean_linked s : linkedPiconNames (clean s) = linkedPiconNames s.
Proof.
  unfold clean. cbn [linkedPiconNames set_origPiconLinks]. apply _clean_linked.
Qed.

Lemma init_linked o w s : init o w = (false, s) -> linkedPiconNames s = ∅.
Proof.
  intros Hi. apply init_inv in Hi
    as [(?&_)|(_ & files & log & orig & wrong & _ & _ & ->)]; [done|].
  cbv zeta. destruct (o_cleanAll o); by rewrite ?clean_linked, _clean_linked.
Qed.

Lemma linked_claim picon pn pr T s :
  piconLinks s !! T = None -> piconFiles s !! picon = Some (pn, pr) ->
  linked_are_used s -> linked_are_used (claim picon pn T s).
Proof.
  intros Hq Hp Hu pn'. unfold claim.
  cbn [linkedPiconNames piconLinks piconFiles set_piconLinks set_linkedPiconNames].
  rewrite elem_of_union, elem_of_singleton, (Hu pn'). split.
  - intros [->|(T0 & q & id & H1 & H2)].
    + exists T, picon, pr. by rewrite lookup_insert_eq.
    + exists T0, q, id. rewrite lookup_insert_ne; [done|]. intros <-. congruence.
  - intros (T0 & q & id & H1 & H2). destruct (decide (T0 = T)) as [->|Hne].
    + rewrite lookup_insert_eq in H1. injection H1 as <-. left. congruence.
    + rewrite lookup_insert_ne in H1 by done. right. eauto.
Qed.

Lemma linked_reconcile servRef picon T s :
  consistent s -> linked_are_used s ->
  linked_are_used (reconcile servRef picon T s).
Proof.
  intros Hc Hu.
  destruct (reconcile_reconciled servRef picon T s)
    as [| | | | | pn pr | pn pr s2 w Hq ? ? ? Hcl Hl | pn pr ? ? ? ? Hs Hrm
       | pn pr s2 ? ? ? ? Hcl Hl]; split_placeholder; try done.
  - by apply (linked_claim picon pn pr T (unbaseline T s)).
  - inv_cleared Hcl. simpl in *.
    apply (linked_claim picon pn pr T
             (did (linkOp (o_useHardLinks (opts s)) pn T) w
                (set_linksMade (linksMade s2 + 1) s2))).
    + simpl. by rewrite Clinks.
    + simpl. by rewrite Cfiles.
    + intros pn'. simpl. rewrite Clinked, Clinks, Cfiles. apply Hu.
  - exfalso. by eapply (consistent_link_succeeds s T s2 pn pr picon).
  - exfalso. by eapply (consistent_link_succeeds s T s2 pn pr picon).
Qed.

Lemma piconNames_spec s pn :
  pn ∈ piconNames s <-> exists key id, piconFiles s !! key = Some (pn, id).
Proof.
  unfold piconNames. rewrite elem_of_list_to_set, list_elem_of_fmap. split.
  - intros (e & -> & Hin). apply list_elem_of_fmap in Hin
      as ([key e'] & -> & Hin). apply elem_of_map_to_list in Hin.
    destruct e' as [pn' id]. simpl. eauto.
  - intros (key & id & H). exists (pn, id). split; [done|].
    apply list_elem_of_fmap. exists (key, (pn, id)). split; [done|].
    by apply elem_of_map_to_list.
Qed.

Lemma sorted_spec l :
  StronglySorted str_le (sorted l) /\ sorted l ≡ₚ l.
Proof.
  split; [apply (StronglySorted_merge_sort str_le); apply _|].
  apply merge_sort_Permutation.
Qed.

(** X18.  After [makeLinks] has finished, [checkUnused] prints, in
    ascending order and each once, exactly the files of the inventory
    that no claimed target is linked to; the final [clean] would not
    change that list. *)
Theorem X18_unused_icons_are_reported o lines w s0 a :
  init o w = (false, s0) -> makeLinks lines s0 = (Finished, a) ->
  StronglySorted str_le (checkUnused a) /\ NoDup (checkUnused a) /\
  (forall pn, pn ∈ checkUnused a <->
     (exists key id, piconFiles a !! key = Some (pn, id)) /\
     ~ exists T q id, piconLinks a !! T = Some q /\
                      piconFiles a !! q = Some (pn, id)) /\
  checkUnused (clean a) = checkUnused a.
Proof.
  intros Hi Hm. unfold makeLinks in Hm.
  pose proof (consistent_init _ _ _ Hi) as Hc0.
  destruct (init_fields _ _ _ Hi) as (_ & Hq0 & _).
  assert (H1 : consistent (doLines lines (enter s0)).2 /\
               linked_are_used (doLines lines (enter s0)).2).
  { apply (doLines_invariant
      (fun s => consistent s /\ linked_are_used s) (fun _ => True)).
    - done.
    - done.
    - intros s1 servRef picon T _ [Hc Hu].
      split; [by apply consistent_reconcile|by apply linked_reconcile].
    - done.
    - split; [by apply consistent_enter|]. intros pn. simpl.
      rewrite (init_linked _ _ _ Hi). split; [set_solver|].
      intros (T & q & id & H & _). by rewrite lookup_empty in H. }
  destruct (doLines lines (enter s0)) as [[| |e] s1]; try done.
  injection Hm as <-. simpl in H1. destruct H1 as [_ Hu].
  destruct (sorted_spec (elements (piconNames (emit (LinksMade (linksMade s1)) s1)
                                   ∖ linkedPiconNames (emit (LinksMade (linksMade s1)) s1))))
    as [Hs Hp].
  split; [exact Hs|]. split; [|split].
  - unfold checkUnused. rewrite Hp. apply NoDup_elements.
  - intros pn. unfold checkUnused. rewrite Hp, elem_of_elements, elem_of_difference.
    rewrite piconNames_spec. simpl. by rewrite (Hu pn).
  - unfold checkUnused, piconNames. rewrite clean_linked.
    by destruct (clean_same (emit (LinksMade (linksMade s1)) s1)) as (_&->&_).
Qed.

Lemma X18_unused_icons_are_reported_witness :
  "sbs.png" ∈ checkUnused
    (makeLinks conflicting (init only_full example_world).2).2.
Proof.
  assert (H1 : init only_full example_world
               = (false, (init only_full example_world).2))
    by (vm_compute; reflexivity).
  assert (H2 : makeLinks conflicting (init only_full example_world).2
               = (Finished, (makeLinks conflicting
                               (init only_full example_world).2).2))
    by (vm_compute; reflexivity).
  destruct (X18_unused_icons_are_reported _ _ _ _ _ H1 H2) as (_ & _ & Hin & _).
  apply Hin. split.
  - exists "sbs", (1, 12). vm_compute. reflexivity.
  - intros (T & q & id & Hq & Hf).
    assert (Hq' : piconLinks (makeLinks conflicting
                    (init only_full example_world).2).2
                  = {[ abc_hd := "abc" ]}) by (vm_compute; reflexivity).
    rewrite Hq' in Hq. apply lookup_singleton_Some in Hq as [_ <-].
    vm_compute in Hf. discriminate Hf.
Defined.

(** ** The index page *)

Ltac div6 :=
  repeat match goal with
  | |- context [Nat.div ?t 6] =>
      let q := fresh "q" in let r := fresh "r" in
      pose proof (Nat.div_mod_eq t 6);
      pose proof (Nat.mod_upper_bound t 6 ltac:(lia));
      generalize dependent (Nat.div t 6); intros q;
      generalize dependent (Nat.modulo t 6); intros r
  end.

Lemma htmlRows_spec names row item :
  (item < 6)%nat ->
  List.filter is_cell (htmlRows names row item).1 = htmlCell <$> names /\
  opens (htmlRows names row item).1
    = ((item + length names + 5) / 6 - (item + 5) / 6)%nat /\
  closes (htmlRows names row item).1
    = (if (row =? 0)%nat && (item =? 0)%nat
       then pred ((item + length names + 5) / 6 - (item + 5) / 6)
       else (item + length names + 5) / 6 - (item + 5) / 6)%nat /\
  (htmlRows names row item).2 = (row + (item + length names) / 6)%nat.
Proof.
  revert row item. induction names as [|pn rest IH]; intros row item Hi.
  { cbn [htmlRows fst snd]. unfold opens, closes. cbn [List.filter length fmap list_fmap].
    rewrite Nat.add_0_r, Nat.sub_diag. rewrite (Nat.div_small item 6) by done.
    split; [done|]. split; [done|]. split; [by destruct (_ && _)|lia]. }
  cbn [htmlRows].
  assert (Hcell : is_cell (htmlCell pn) = true) by reflexivity.
  assert (Hopen : is_open (htmlCell pn) = false) by reflexivity.
  assert (Hclose : is_close (htmlCell pn) = false) by reflexivity.
  destruct item as [|[|[|[|[|[|item]]]]]]; [| | | | | |lia];
    cbn [Nat.eqb Nat.leb Nat.add];
    [specialize (IH row 1%nat ltac:(lia))
    |specialize (IH row 2%nat ltac:(lia))
    |specialize (IH row 3%nat ltac:(lia))
    |specialize (IH row 4%nat ltac:(lia))
    |specialize (IH row 5%nat ltac:(lia))
    |specialize (IH (row + 1)%nat 0%nat ltac:(lia))];
    match goal with
    | |- context [htmlRows rest ?r ?i] =>
        destruct (htmlRows rest r i) as [ws r'] eqn:E
    end;
    cbn [fst snd] in *; destruct IH as (I1 & I2 & I3 & I4);
    unfold opens, closes in *;
    destruct row as [|row]; cbn [Nat.eqb Nat.add negb andb app] in *;
    rewrite ?List.filter_app, ?length_app; cbn [app List.filter];
    rewrite ?Hcell, ?Hopen, ?Hclose;
    change (is_cell "  ") with false; change (is_cell ("<tr>" +:+ nl)) with false;
    change (is_cell "</tr>") with false;
    change (is_open "  ") with false; change (is_open ("<tr>" +:+ nl)) with true;
    change (is_open "</tr>") with false;
    change (is_close "  ") with false; change (is_close ("<tr>" +:+ nl)) with false;
    change (is_close "</tr>") with true;
    cbn [length fmap list_fmap app];
    rewrite ?I1, ?I2, ?I3, ?I4;
    (split; [done|]); (split; [div6; lia|]); (split; [|div6; lia]);
    repeat match goal with
    | |- context [(?a + 1 =? 0)%nat] =>
        replace (a + 1 =? 0)%nat with false by (symmetry; apply Nat.eqb_neq; lia)
    end; cbn [andb]; div6; lia.
Qed.

(** X19.  [makeHtmlIndex] writes one cell for each entry of the
    inventory, in the order of the sorted file names, and opens a row
    for every six cells begun; the rows are closed only when there are
    at least six cells, so with one to five icons the only row is never
    closed. *)
Theorem X19_index_page_rows (title : string) (s : LinkMaker) :
  List.filter is_cell (makeHtmlIndex title s)
    = htmlCell <$> sorted (map_to_list (piconFiles s)).*2.*1 /\
  opens (makeHtmlIndex title s) = ((size (piconFiles s) + 5) / 6)%nat /\
  closes (makeHtmlIndex title s)
    = (if (size (piconFiles s) <? 6)%nat then 0
       else (size (piconFiles s) + 5) / 6)%nat.
Proof.
  unfold makeHtmlIndex.
  assert (Hlen : length (sorted (map_to_list (piconFiles s)).*2.*1)
                 = size (piconFiles s)).
  { destruct (sorted_spec (map_to_list (piconFiles s)).*2.*1) as [_ Hp].
    by rewrite Hp, !length_fmap, length_map_to_list. }
  destruct (htmlRows_spec (sorted (map_to_list (piconFiles s)).*2.*1) 0 0
              ltac:(lia)) as (H1 & H2 & H3 & H4).
  destruct (htmlRows _ 0 0) as [ws row]. cbn [fst snd] in *.
  rewrite Hlen in H2, H3, H4.
  assert (Hhead : is_cell (htmlHead title +:+ nl) = false /\
                  is_open (htmlHead title +:+ nl) = false /\
                  is_close (htmlHead title +:+ nl) = false) by done.
  destruct Hhead as (C1 & C2 & C3).
  unfold opens, closes in *.
  rewrite !List.filter_app, !length_app. cbn [List.filter].
  rewrite C1, C2, C3, H1, H2, H3.
  change (is_cell (htmlTail +:+ nl)) with false.
  change (is_open (htmlTail +:+ nl)) with false.
  change (is_close (htmlTail +:+ nl)) with false.
  cbn [Nat.eqb andb Nat.add length app].
  assert (Hrow : (row =? 0)%nat = (size (piconFiles s) <? 6)%nat).
  { rewrite H4. destruct (Nat.ltb_spec (size (piconFiles s)) 6).
    - apply Nat.eqb_eq. rewrite Nat.div_small; lia.
    - apply Nat.eqb_neq. div6. lia. }
  rewrite Hrow.
  destruct (Nat.ltb_spec (size (piconFiles s)) 6); cbn [negb List.filter].
  - rewrite app_nil_r. split; [done|]. cbn [length]. split; div6; lia.
  - change (is_cell ("  </tr>" +:+ nl)) with false.
    change (is_open ("  </tr>" +:+ nl)) with false.
    change (is_close ("  </tr>" +:+ nl)) with true.
    rewrite app_nil_r. split; [done|]. cbn [length]. split; div6; lia.
Qed.

Lemma X19_index_page_rows_witness :
  opens (makeHtmlIndex "picon" (run only_full conflicting example_world).2) = 1%nat /\
  closes (makeHtmlIndex "picon" (run only_full conflicting example_world).2) = 0%nat.
Proof.
  destruct (X19_index_page_rows "picon"
              (run only_full conflicting example_world).2) as (_ & Ho & Hc).
  split; [rewrite Ho|rewrite Hc]; vm_compute; reflexivity.
Defined.

(** ** The name of the set of icons *)

Lemma absent_sep l :
  Forall (fun c => c ≠ "/"%char) l ->
  Forall (fun d => Ascii.eqb d "/" = false) l.
Proof. intros H. eapply Forall_impl; [exact H|]. intros c. apply Ascii.eqb_neq. Qed.

Lemma lstrip_sep_stop l1 l2 :
  Forall (fun c => c ≠ "/"%char) l1 -> l1 ≠ [] ->
  lstrip_sep (l1 ++ l2) = l1 ++ l2.
Proof.
  destruct l1 as [|c l1]; [done|]. intros H _. inversion H as [|? ? Hc _]; subst.
  simpl. by apply Ascii.eqb_neq in Hc as ->.
Qed.

Lemma path_split_tail pre name :
  Forall (fun c => c ≠ "/"%char) (Py.chars name) ->
  pre = "" \/ (exists pre', pre = pre' +:+ "/") ->
  (path_split (pre +:+ name)).2 = name.
Proof.
  intros Hn Hpre. unfold path_split. cbn [snd].
  assert (Hi : Py.rfind "/" (pre +:+ name) + 1 = Z.of_nat (length (Py.chars pre))).
  { unfold Py.rfind. rewrite chars_app, rfind_from_app.
    rewrite (rfind_from_absent _ _ _ (Py.chars name)) by by apply absent_sep.
    destruct Hpre as [->|[pre' ->]]; [done|].
    rewrite chars_app, rfind_from_app. simpl. rewrite length_app. simpl. lia. }
  rewrite Hi. apply from_app.
Qed.

Lemma chars_nonempty s : s ≠ "" -> Py.chars s ≠ [].
Proof. intros H E. apply H. by rewrite <- (str_chars s), E. Qed.

Lemma str_nonempty l : l ≠ [] -> String.eqb (Py.str l) "" = false.
Proof.
  intros H. apply String.eqb_neq. intros E. apply H.
  by rewrite <- (chars_str l), E.
Qed.

(** X20.  For an output directory given with a directory in front, the
    name of the set of icons is the last component of that directory
    (for [x/picon/], with nothing after the last slash, it is
    [picon]). *)
Theorem X20_set_name_is_parent_directory (pre name base : string) :
  Forall (fun c => c ≠ "/"%char) (Py.chars name) -> name ≠ "" ->
  Forall (fun c => c ≠ "/"%char) (Py.chars base) ->
  pre = "" \/ (exists pre', pre = pre' +:+ "/") ->
  piconSetOf (pre +:+ name +:+ "/" +:+ base) = name.
Proof.
  intros Hn Hne Hb Hpre. unfold piconSetOf.
  apply chars_nonempty in Hne.
  set (P := Py.chars pre) in *. set (N := Py.chars name) in *.
  set (p := pre +:+ name +:+ "/" +:+ base).
  assert (Hp : Py.chars p = (P ++ N ++ ["/"%char]) ++ Py.chars base).
  { unfold p. rewrite !chars_app. by rewrite <- !app_assoc. }
  assert (Hnil : P ++ N ++ ["/"%char] ≠ []) by (by destruct P, N).
  assert (String.eqb p "" = false) as ->.
  { rewrite <- (str_chars p), Hp. apply str_nonempty.
    intros E. apply Hnil. by apply app_eq_nil in E as [? _]. }
  assert (Hi : Py.rfind "/" p + 1 = Z.of_nat (length (P ++ N ++ ["/"%char]))).
  { unfold Py.rfind. rewrite Hp, rfind_from_app.
    rewrite (rfind_from_absent _ _ _ (Py.chars base)) by by apply absent_sep.
    rewrite app_assoc, rfind_from_app. simpl. rewrite !length_app. simpl. lia. }
  unfold path_split at 1. rewrite Hi. unfold Py.upto, Py.from.
  rewrite Nat2Z.id, Hp, take_app_length, drop_app_length.
  rewrite (str_nonempty _ Hnil), chars_str. cbn [negb andb].
  assert (forallb (fun c => Ascii.eqb c "/") (P ++ N ++ ["/"%char]) = false) as ->.
  { rewrite !forallb_app. destruct N as [|c N]; [done|].
    inversion Hn as [|? ? Hc _]; subst. simpl.
    apply Ascii.eqb_neq in Hc as ->. by rewrite andb_false_r. }
  cbn [negb]. unfold rstrip_sep. rewrite chars_str.
  rewrite app_assoc, rev_app_distr. simpl. rewrite rev_app_distr.
  rewrite lstrip_sep_stop;
    [|by apply Forall_rev|intros E; apply Hne; by rewrite <- (rev_involutive N), E].
  rewrite <- rev_app_distr, rev_involutive. unfold P, N.
  rewrite <- chars_app, str_chars.
  assert (String.eqb (pre +:+ name) "" = false) as ->.
  { rewrite <- (str_chars (pre +:+ name)), chars_app. apply str_nonempty.
    intros E. apply app_eq_nil in E as [_ E]. by apply Hne. }
  cbn [negb]. by apply path_split_tail.
Qed.

Lemma X20_set_name_is_parent_directory_witness :
  piconSetOf "buttonPicons/picon" = "buttonPicons".
Proof.
  apply (X20_set_name_is_parent_directory "" "buttonPicons" "picon").
  - vm_compute. repeat (constructor; [discriminate|]). constructor.
  - discriminate.
  - vm_compute. repeat (constructor; [discriminate|]). constructor.
  - by left.
Defined.

(** ** The command line *)

Lemma doOptions_flags opts c c' :
  doOptions opts c = Parsed c' ->
  o_full (flags c') = o_full (flags c) || given ["--full"; "-f"] opts /\
  o_short (flags c') = o_short (flags c) || given ["--short"; "-s"] opts /\
  o_fold (flags c') = o_fold (flags c) || given ["--fold"; "-F"] opts /\
  o_addfold (flags c') = o_addfold (flags c) || given ["--addfold"; "-a"] opts /\
  o_useServiceNameLinks (flags c')
    = o_useServiceNameLinks (flags c) || given ["--servicenames"; "-S"] opts /\
  o_useHardLinks (flags c')
    = o_useHardLinks (flags c) || given ["--hardlinks"; "-H"] opts /\
  o_cleanAll (flags c') = o_cleanAll (flags c) || given ["--cleanall"; "-c"] opts /\
  given ["--help"; "-h"] opts = false.
Proof.
  revert c. induction opts as [|[o a] rest IH]; intros c; cbn [doOptions].
  { intros [= <-]. rewrite !orb_false_r. done. }
  unfold doOption.
  repeat match goal with
  | |- context [if is_in o ?l then _ else _] =>
      let E := fresh "E" in
      destruct (is_in o l) eqn:E;
      [apply bool_decide_eq_true_1 in E;
       repeat (apply elem_of_cons in E as [->|E]);
       [..|by apply not_elem_of_nil in E]|]
  end; try done;
  (intros H; apply IH in H;
   destruct H as (H1 & H2 & H3 & H4 & H5 & H6 & H7 & H8);
   rewrite H1, H2, H3, H4, H5, H6, H7; unfold given in *; cbn [existsb fst];
   rewrite H8;
   repeat match goal with
   | |- context [is_in ?x ?l] =>
       let b := eval vm_compute in (is_in x l) in change (is_in x l) with b
   end;
   cbn [flags set_flags with_full with_short with_fold with_addfold
        with_serviceNames with_hardLinks with_cleanAll
        o_full o_short o_fold o_addfold o_useServiceNameLinks o_useHardLinks
        o_cleanAll orb];
   rewrite ?orb_true_r; done).
Qed.

(** X21.  When the handling of the options goes through, there are at
    least two arguments, no [--help] was given, each of [short], [fold],
    [addfold], [useServiceNameLinks], [useHardLinks] and [cleanAll] is
    set exactly when one of its two spellings was given, and [full] is
    set when it was given or when none of the five link types was. *)
Theorem X21_script_options (opts : list (string * string)) (args : list string)
    (c : cmdline) :
  script_options opts args = Parsed c ->
  (2 <= length args)%nat /\
  given ["--help"; "-h"] opts = false /\
  o_short (flags c) = given ["--short"; "-s"] opts /\
  o_fold (flags c) = given ["--fold"; "-F"] opts /\
  o_addfold (flags c) = given ["--addfold"; "-a"] opts /\
  o_useServiceNameLinks (flags c) = given ["--servicenames"; "-S"] opts /\
  o_useHardLinks (flags c) = given ["--hardlinks"; "-H"] opts /\
  o_cleanAll (flags c) = given ["--cleanall"; "-c"] opts /\
  o_full (flags c)
    = given ["--full"; "-f"] opts
      || negb (given ["--short"; "-s"] opts || given ["--fold"; "-F"] opts
               || given ["--addfold"; "-a"] opts
               || given ["--servicenames"; "-S"] opts).
Proof.
  unfold script_options.
  destruct (doOptions opts option_defaults) as [c0| |] eqn:Hd; try done.
  destruct (Nat.ltb_spec (length args) 2) as [|Hlen]; [done|].
  intros [= <-].
  apply doOptions_flags in Hd as (H1 & H2 & H3 & H4 & H5 & H6 & H7 & H8).
  cbn in H1, H2, H3, H4, H5, H6, H7.
  split; [done|]. split; [done|].
  rewrite <- H1, <- H2, <- H3, <- H4, <- H5, <- H6, <- H7.
  clear. unfold set_flags, default_full. cbn [flags].
  destruct (flags c0) as [[] [] [] [] [] ? ?]; by cbn.
Qed.

Lemma X21_script_options_witness :
  script_options [("-H", "")] ["defs"; "picon"]
  = Parsed {| flags := with_hardLinks only_full; copyImages := None |} /\
  o_full (with_hardLinks only_full) = true /\
  o_useHardLinks (with_hardLinks only_full) = true.
Proof.
  assert (H : script_options [("-H", "")] ["defs"; "picon"]
              = Parsed {| flags := with_hardLinks only_full; copyImages := None |})
    by reflexivity.
  split; [exact H|].
  destruct (X21_script_options _ _ _ H) as (_ & _ & _ & _ & _ & _ & Hh & _ & Hf).
  split; [exact Hf|exact Hh].
Defined.
